(** * Orchestration control plane: pause expiration, state machine, loop
    services and the worker tables

    A shallow embedding of

    - [src/syntask/server/services/pause_expirations.py]
      (the [FailExpiredPauses] loop service), and
    - [src/syntask/server/database/migrations/versions/postgresql/
       2022_11_24_143620_f7587d6c5776_add_worker_tables.py]
      (the worker pool / worker / worker pool queue schema),

    together with the parts of the state machine and of the loop-service
    driver that these files call but that live elsewhere in the repository. *)

From Stdlib Require Import ZArith List String Bool Arith Lia.
Import ListNotations.

Local Open Scope string_scope.
Local Open Scope list_scope.

(** ** Exceptions and results *)

(** The exceptions that can travel through the modelled code.  [TypeError]
    is Python's own (ordering [None] against a datetime); the next four are
    the error taxonomy of the state machine and the store; [IntegrityError]
    is the database's refusal of a statement that breaks a constraint;
    [OtherError] stands for any other exception, with its short
    description. *)
Inductive exn : Type :=
| TypeError
| InvalidTransition
| RunNotFound
| TerminalStateViolation
| StoreConflict
| IntegrityError
| OtherError (description : string).

Definition short_description (e : exn) : string :=
  match e with
  | TypeError => "TypeError"
  | InvalidTransition => "InvalidTransition"
  | RunNotFound => "RunNotFound"
  | TerminalStateViolation => "TerminalStateViolation"
  | StoreConflict => "StoreConflict"
  | IntegrityError => "IntegrityError"
  | OtherError d => d
  end.

(** A call either returns a value or raises. *)
Inductive outcome (A : Type) : Type :=
| Ok (a : A)
| Raised (e : exn).
Arguments Ok {A} a.
Arguments Raised {A} e.

(** ** States and flow runs ([syntask.server.schemas.states]) *)

Module states.

Inductive StateType : Type :=
| SCHEDULED | PENDING | RUNNING | PAUSED
| COMPLETED | FAILED | CRASHED | CANCELLING | CANCELLED.

Definition StateType_eqb (a b : StateType) : bool :=
  match a, b with
  | SCHEDULED, SCHEDULED | PENDING, PENDING | RUNNING, RUNNING
  | PAUSED, PAUSED | COMPLETED, COMPLETED | FAILED, FAILED
  | CRASHED, CRASHED | CANCELLING, CANCELLING | CANCELLED, CANCELLED => true
  | _, _ => false
  end.

(** The payload of a state.  [pause_timeout] is optional in the schema: a
    Paused state may carry no deadline at all. *)
Record StateDetails : Type := {
  pause_timeout : option Z;
  pause_reschedule : bool
}.

Definition no_details : StateDetails :=
  {| pause_timeout := None; pause_reschedule := false |}.

Record State : Type := {
  type : StateType;
  message : option string;
  state_details : StateDetails
}.

(** [states.Failed(message=...)] *)
Definition Failed (msg : string) : State :=
  {| type := FAILED; message := Some msg; state_details := no_details |}.

(** [states.Paused(pause_timeout=...)] as the tests of the service build it. *)
Definition Paused (timeout : option Z) : State :=
  {| type := PAUSED; message := None;
     state_details := {| pause_timeout := timeout; pause_reschedule := false |} |}.

Definition is_terminal (t : StateType) : bool :=
  match t with
  | COMPLETED | FAILED | CRASHED | CANCELLED => true
  | _ => false
  end.

End states.
Import states.

(** A row of the [flow_run] table, as far as the service reads it: the
    primary key, the current state, and the time that state began.  The
    column [state_type] mirrors the type of the current state. *)
Record FlowRun : Type := {
  id : nat;
  state : State;
  state_timestamp : Z
}.

Definition state_type (r : FlowRun) : StateType := type (state r).

(** The table, in the order in which the store scans it. *)
Definition Store : Type := list FlowRun.

Definition ids (s : Store) : list nat := map id s.

(** ** The effects of the service *)

(** What a pass does to the outside world, in order. *)
Inductive Level : Type := INFO | ERROR.

Inductive Event : Type :=
| EvBegin                                   (* a transaction is opened *)
| EvSelect (selected : list nat)            (* the ids a query returned *)
| EvSetState (run_id : nat) (st : State) (force : bool)
                                            (* a call of set_flow_run_state *)
| EvCommit
| EvRollback
| EvLog (level : Level) (msg : string).

(** The mutable world of a pass: the table and the number of times the clock
    has been read ([pendulum.now]). *)
Record Env : Type := {
  store : Store;
  ticks : nat
}.

(** The world after one more reading of the clock. *)
Definition tick (w : Env) : Env :=
  {| store := store w; ticks := S (ticks w) |}.

(** A computation reads and writes the world, emits events, and returns or
    raises. *)
Definition M (A : Type) : Type := Env -> outcome A * Env * list Event.

Definition ret {A} (a : A) : M A := fun w => (Ok a, w, []).

Definition bind {A B} (m : M A) (k : A -> M B) : M B :=
  fun w =>
    match m w with
    | (Ok a, w1, t1) =>
        match k a w1 with
        | (r, w2, t2) => (r, w2, t1 ++ t2)
        end
    | (Raised e, w1, t1) => (Raised e, w1, t1)
    end.

Definition raise {A} (e : exn) : M A := fun w => (Raised e, w, []).

Definition emit (ev : Event) : M unit := fun w => (Ok tt, w, [ev]).

Definition get_store : M Store := fun w => (Ok (store w), w, []).

Definition put_store (s : Store) : M unit :=
  fun w => (Ok tt, {| store := s; ticks := ticks w |}, []).

Declare Scope service_scope.
Delimit Scope service_scope with service.
Notation "x <- m ;; k" := (bind m (fun x => k))
  (at level 61, m at next level, right associativity) : service_scope.
Notation "m ;; k" := (bind m (fun _ => k))
  (at level 61, right associativity) : service_scope.
Local Open Scope service_scope.

(** ** The state machine ([models.flow_runs.set_flow_run_state]) *)

Definition read_run (s : Store) (run_id : nat) : option FlowRun :=
  find (fun r => Nat.eqb (id r) run_id) s.

Definition write_run_state (s : Store) (run_id : nat) (st : State) (ts : Z)
  : Store :=
  map (fun r => if Nat.eqb (id r) run_id
                then {| id := id r; state := st; state_timestamp := ts |}
                else r) s.

Module state_machine.

(** Modelled from the spec: [set_state(run_id, proposed_state, force)] of
    the state machine ([models.flow_runs.set_flow_run_state]), whose source
    is not among the source files embedded here. It re-reads the run; a
    missing run is [RunNotFound]; a run already in the target state is a
    no-op success (row and timestamp unchanged); a run in a terminal state
    accepts nothing else ([TerminalStateViolation]), forced or not;
    otherwise a forced call writes unconditionally and a normal call writes
    when the rule table permits and fails with [InvalidTransition] when it
    does not. [rule] is the transition rule table and [ts] the transition
    time. *)
Definition set_state (rule : StateType -> StateType -> bool) (ts : Z)
           (s : Store) (run_id : nat) (proposed : State) (force : bool)
  : outcome unit * Store :=
  match read_run s run_id with
  | None => (Raised RunNotFound, s)
  | Some r =>
      if StateType_eqb (state_type r) (type proposed) then (Ok tt, s)
      else if is_terminal (state_type r) then (Raised TerminalStateViolation, s)
      else if force || rule (state_type r) (type proposed)
           then (Ok tt, write_run_state s run_id proposed ts)
           else (Raised InvalidTransition, s)
  end.

End state_machine.

(** ** The FailExpiredPauses service ([pause_expirations.py]) *)

Module pause_expirations.

Definition never_resumed : string := "The flow was paused and never resumed.".
Definition finished_monitoring : string := "Finished monitoring for late runs.".

Section Service.

(** [pendulum.now("UTC")]: the reading of the clock at its [k]-th call. *)
Variable clock : nat -> Z.

(** [models.flow_runs.set_flow_run_state(session, flow_run_id, state,
    force)], called on the table of the open session: it returns or raises,
    and leaves a table. *)
Variable set_flow_run_state :
  Store -> nat -> State -> bool -> outcome unit * Store.

(** [self.batch_size] *)
Variable batch_size : nat.

Definition now : M Z :=
  fun w => (Ok (clock (ticks w)),
            {| store := store w; ticks := S (ticks w) |}, []).

(** [pause_timeout < now]: ordering [None] against a datetime raises
    [TypeError] (both operands are evaluated first). *)
Definition lt_datetime (a : option Z) (b : Z) : M bool :=
  match a with
  | Some t => ret (Z.ltb t b)
  | None => raise TypeError
  end.

Definition call_set_flow_run_state (run_id : nat) (st : State) (force : bool)
  : M unit :=
  emit (EvSetState run_id st force) ;;
  s <- get_store ;;
  match set_flow_run_state s run_id st force with
  | (Ok _, s') => put_store s'
  | (Raised e, s') => put_store s' ;; raise e
  end.

(** [FailExpiredPauses._mark_flow_run_as_failed] *)
Definition _mark_flow_run_as_failed (flow_run : FlowRun) : M unit :=
  t <- now ;;
  expired <- lt_datetime (pause_timeout (state_details (state flow_run))) t ;;
  if expired
  then call_set_flow_run_state (id flow_run) (Failed never_resumed) true
  else ret tt.

(** [for run in runs: await self._mark_flow_run_as_failed(...)] *)
Fixpoint mark_each (runs : list FlowRun) : M unit :=
  match runs with
  | [] => ret tt
  | run :: rest => _mark_flow_run_as_failed run ;; mark_each rest
  end.

(** [sa.select(db.FlowRun).where(state_type == PAUSED).limit(batch_size)]:
    the first [batch_size] Paused rows in scan order. *)
Definition is_paused (r : FlowRun) : bool :=
  StateType_eqb (state_type r) PAUSED.

Definition select_paused (s : Store) : list FlowRun :=
  firstn batch_size (filter is_paused s).

Definition execute_query : M (list FlowRun) :=
  s <- get_store ;;
  let runs := select_paused s in
  emit (EvSelect (ids runs)) ;;
  ret runs.

(** [db.session_context(begin_transaction=True)]: commit when the block
    is left normally (also by [break]), roll the table back when it is
    left by an exception, which travels on. *)
Definition session_context {A} (body : M A) : M A :=
  fun w =>
    match body w with
    | (Ok a, w1, t) => (Ok a, w1, EvBegin :: t ++ [EvCommit])
    | (Raised e, w1, t) =>
        (Raised e, {| store := store w; ticks := ticks w1 |},
         EvBegin :: t ++ [EvRollback])
    end.

(** The body of the [while True] loop; it returns whether the loop is
    left ([break]). *)
Definition batch : M bool :=
  session_context
    (runs <- execute_query ;;
     mark_each runs ;;
     ret (Nat.ltb (List.length runs) batch_size)).

(** How a pass stands after a bounded number of batches. *)
Inductive status : Type :=
| Returned                (* run_once returned *)
| Raises (e : exn)        (* run_once raised e *)
| Running.                (* the loop is still going round *)

(** [while True: ...] unrolled at most [fuel] times. *)
Fixpoint batch_loop (fuel : nat) (w : Env) : status * Env * list Event :=
  match fuel with
  | O => (Running, w, [])
  | S fuel' =>
      match batch w with
      | (Ok true, w1, t1) => (Returned, w1, t1)
      | (Ok false, w1, t1) =>
          match batch_loop fuel' w1 with
          | (r, w2, t2) => (r, w2, t1 ++ t2)
          end
      | (Raised e, w1, t1) => (Raises e, w1, t1)
      end
  end.

(** [FailExpiredPauses.run_once] *)
Definition run_once (fuel : nat) (w : Env) : status * Env * list Event :=
  match batch_loop fuel w with
  | (Returned, w1, t1) => (Returned, w1, t1 ++ [EvLog INFO finished_monitoring])
  | other => other
  end.

End Service.

(** [FailExpiredPauses.__init__]: [self.batch_size = 200]. *)
Definition default_batch_size : nat := 200.

End pause_expirations.


(** ** The loop-service driver ([syntask.server.services.loop_service]) *)

Module loop_service.

(** What the driver does, in order: it calls [run_once], it sleeps, it
    writes a log record. *)
Inductive DriverEvent : Type :=
| RunOnce (iteration : nat)
| Sleep (seconds : Z)
| Log (level : Level) (msg : string).

(** How [start] stands: it returned after the requested iterations, it was
    stopped by an error of [run_once], or (unbounded mode, within the
    iterations looked at) it is still looping. *)
Inductive exit : Type :=
| Completed
| ServiceFatal (cause : exn)
| Looping.

Definition unexpected_error (e : exn) : string :=
  ("Unexpected error in run_once: " ++ short_description e)%string.

Section Driver.

(** The service is anything that can run one reconciliation pass on its
    own state. *)
Variable W : Type.
Variable run_once : W -> outcome unit * W.

(** [loop_interval_seconds], and the time the [i]-th pass took. *)
Variable loop_seconds : Z.
Variable elapsed : nat -> Z.

(** Modelled from the spec: the run loop of [LoopService], whose source is
    not among the source files embedded here. Each iteration invokes
    [run_once] and then sleeps for the interval minus the time the pass
    took, never a negative time; an error raised by [run_once] is caught at
    the loop boundary, logged once at error severity with the short
    description of the exception, and ends the loop. [i] counts the
    iterations done. *)
Fixpoint run_loop (n : nat) (i : nat) (w : W) : exit * W * list DriverEvent :=
  match n with
  | O => (Looping, w, [])
  | S n' =>
      match run_once w with
      | (Ok _, w1) =>
          match run_loop n' (S i) w1 with
          | (x, w2, t) =>
              (x, w2, RunOnce i :: Sleep (Z.max 0 (loop_seconds - elapsed i)) :: t)
          end
      | (Raised e, w1) =>
          (ServiceFatal e, w1, [RunOnce i; Log ERROR (unexpected_error e)])
      end
  end.

(** Modelled from the spec: [LoopService.start(loops)].  With a finite
    [loops] the service stops after that many iterations; with [loops=None]
    it loops for ever, of which [fuel] iterations are followed. *)
Definition start (loops : option nat) (fuel : nat) (w : W)
  : exit * W * list DriverEvent :=
  match loops with
  | Some n =>
      match run_loop n 0 w with
      | (Looping, w', t) => (Completed, w', t)
      | other => other
      end
  | None => run_loop fuel 0 w
  end.

(** The state after [k] passes that all returned, if they all did. *)
Fixpoint after_passes (k : nat) (w : W) : option W :=
  match k with
  | O => Some w
  | S k' =>
      match run_once w with
      | (Ok _, w1) => after_passes k' w1
      | (Raised _, _) => None
      end
  end.

End Driver.

Definition is_run_once (ev : DriverEvent) : bool :=
  match ev with RunOnce _ => true | _ => false end.

Definition is_error_record (ev : DriverEvent) : bool :=
  match ev with Log ERROR _ => true | _ => false end.

(** The number of times [run_once] was invoked, and the error records. *)
Definition invocations (t : list DriverEvent) : nat :=
  List.length (filter is_run_once t).

Definition error_records (t : list DriverEvent) : list DriverEvent :=
  filter is_error_record t.

(** [sub] occurs in [s]. *)
Definition contains (s sub : string) : Prop :=
  exists before after, s = (before ++ sub ++ after)%string.

End loop_service.


(** ** Schema definitions ([sqlalchemy], [alembic.op]) *)

Module sa.

Inductive ColumnType : Type :=
| UUID | Timestamp | String_ | JSON | Boolean | Integer.

(** [sa.Column(name, type, server_default=..., nullable=...)] *)
Record Column : Type := mkColumn {
  column_name : string;
  column_type : ColumnType;
  server_default : option string;
  nullable : bool
}.

(** The [ondelete] action of a foreign key ([NO_ACTION] when none is given). *)
Inductive OnDelete : Type :=
| CASCADE | RESTRICT | SET_NULL | NO_ACTION.

(** Table constraints.  A foreign key names its own columns, the table it
    refers to and the columns there. *)
Inductive Constraint : Type :=
| PrimaryKeyConstraint (cols : list string) (name : string)
| UniqueConstraint (cols : list string) (name : string)
| ForeignKeyConstraint (cols : list string) (reftable : string)
                       (refcols : list string) (name : string)
                       (ondelete : OnDelete).

Record Index : Type := mkIndex {
  index_name : string;
  index_columns : list string;
  unique : bool
}.

Record Table : Type := mkTable {
  columns : list Column;
  constraints : list Constraint;
  indexes : list Index
}.

(** The tables of a database, by name. *)
Definition Schema : Type := list (string * Table).

Fixpoint table_of (sch : Schema) (t : string) : option Table :=
  match sch with
  | [] => None
  | (n, tb) :: rest => if String.eqb n t then Some tb else table_of rest t
  end.

(** Replace the definition of table [t] by [f] of it. *)
Fixpoint alter (sch : Schema) (t : string) (f : Table -> Table) : Schema :=
  match sch with
  | [] => []
  | (n, tb) :: rest =>
      if String.eqb n t then (n, f tb) :: rest else (n, tb) :: alter rest t f
  end.

Definition constraint_name (c : Constraint) : string :=
  match c with
  | PrimaryKeyConstraint _ n => n
  | UniqueConstraint _ n => n
  | ForeignKeyConstraint _ _ _ n _ => n
  end.

Definition constraint_columns (c : Constraint) : list string :=
  match c with
  | PrimaryKeyConstraint cols _ => cols
  | UniqueConstraint cols _ => cols
  | ForeignKeyConstraint cols _ _ _ _ => cols
  end.

Definition mentions (c : string) (cols : list string) : bool :=
  existsb (String.eqb c) cols.

End sa.

Module op.
Import sa.

(** The schema operations a migration issues; those of a
    [batch_alter_table] block carry the name of its table. *)
Inductive Op : Type :=
| create_table (name : string) (cols : list Column) (cs : list Constraint)
| create_index (name : string) (table : string) (cols : list string)
               (unique : bool)
| create_foreign_key (name : string) (source : string) (referent : string)
                     (local_cols remote_cols : list string)
                     (ondelete : OnDelete)
| add_column (table : string) (col : Column)
| drop_column (table : string) (col : string)
| drop_constraint (table : string) (name : string)
| drop_table (name : string).

(** [op.f(name)]: the name is final, the naming convention is not applied. *)
Definition f (name : string) : string := name.

(** The schema an operation leaves when the database accepts it.  When it
    does is said by [ddl.permitted] below, and [ddl.run_checked] runs
    operations only as long as each is accepted; of an operation that the
    database refuses (a table or column that is not there, a name that is
    taken, a table that is still referred to) this function says nothing
    that holds of the database. *)
Definition apply (sch : Schema) (o : Op) : Schema :=
  match o with
  | create_table n cols cs =>
      (n, mkTable cols cs []) :: sch
  | create_index n t cols u =>
      alter sch t (fun tb =>
        mkTable (columns tb) (constraints tb)
                (indexes tb ++ [mkIndex n cols u]))
  | create_foreign_key n t ref lc rc od =>
      alter sch t (fun tb =>
        mkTable (columns tb)
                (constraints tb ++ [ForeignKeyConstraint lc ref rc n od])
                (indexes tb))
  | add_column t col =>
      alter sch t (fun tb =>
        mkTable (columns tb ++ [col]) (constraints tb) (indexes tb))
  | drop_column t c =>
      alter sch t (fun tb =>
        mkTable
          (filter (fun col => negb (String.eqb (column_name col) c))
                  (columns tb))
          (filter (fun k => negb (mentions c (constraint_columns k)))
                  (constraints tb))
          (filter (fun ix => negb (mentions c (index_columns ix)))
                  (indexes tb)))
  | drop_constraint t n =>
      alter sch t (fun tb =>
        mkTable (columns tb)
                (filter (fun k => negb (String.eqb (constraint_name k) n))
                        (constraints tb))
                (indexes tb))
  | drop_table n =>
      filter (fun e => negb (String.eqb (fst e) n)) sch
  end.

Definition run (ops : list Op) (sch : Schema) : Schema :=
  fold_left apply ops sch.

End op.

(** ** The migration [f7587d6c5776]: add worker tables *)

Module add_worker_tables.
Import sa.

Definition revision : string := "f7587d6c5776".
Definition down_revision : string := "5e4f924ff96c".

(** The three columns every table of the migration starts with. *)
Definition id_column : Column :=
  mkColumn "id" UUID (Some "(GEN_RANDOM_UUID())") false.
Definition created_column : Column :=
  mkColumn "created" Timestamp (Some "CURRENT_TIMESTAMP") false.
Definition updated_column : Column :=
  mkColumn "updated" Timestamp (Some "CURRENT_TIMESTAMP") false.

(** [upgrade()] *)
Definition upgrade : list op.Op := [
  op.create_table "worker_pool"
    [ id_column; created_column; updated_column;
      mkColumn "name" String_ None false;
      mkColumn "description" String_ None true;
      mkColumn "type" String_ None true;
      mkColumn "base_job_template" JSON (Some "{}") false;
      mkColumn "is_paused" Boolean (Some "0") false;
      mkColumn "concurrency_limit" Integer None true;
      mkColumn "default_queue_id" UUID None true ]
    [ PrimaryKeyConstraint ["id"] (op.f "pk_worker_pool");
      UniqueConstraint ["name"] (op.f "uq_worker_pool__name") ];
  op.create_index (op.f "ix_worker_pool__updated") "worker_pool" ["updated"] false;
  op.create_index (op.f "ix_worker_pool__type") "worker_pool" ["type"] false;

  op.create_table "worker"
    [ id_column; created_column; updated_column;
      mkColumn "name" String_ None false;
      mkColumn "last_heartbeat_time" Timestamp (Some "CURRENT_TIMESTAMP") false;
      mkColumn "worker_pool_id" UUID None false ]
    [ ForeignKeyConstraint ["worker_pool_id"] "worker_pool" ["id"]
        (op.f "fk_worker__worker_pool_id__worker_pool") CASCADE;
      PrimaryKeyConstraint ["id"] (op.f "pk_worker");
      UniqueConstraint ["worker_pool_id"; "name"]
        (op.f "uq_worker__worker_pool_id_name") ];
  op.create_index (op.f "ix_worker__updated") "worker" ["updated"] false;
  op.create_index (op.f "ix_worker__worker_pool_id") "worker"
    ["worker_pool_id"] false;
  op.create_index (op.f "ix_worker__worker_pool_id_last_heartbeat_time") "worker"
    ["worker_pool_id"; "last_heartbeat_time"] false;

  op.create_table "worker_pool_queue"
    [ id_column; created_column; updated_column;
      mkColumn "name" String_ None false;
      mkColumn "description" String_ None true;
      mkColumn "is_paused" Boolean (Some "0") false;
      mkColumn "concurrency_limit" Integer None true;
      mkColumn "priority" Integer None false;
      mkColumn "worker_pool_id" UUID None false ]
    [ ForeignKeyConstraint ["worker_pool_id"] "worker_pool" ["id"]
        (op.f "fk_worker_pool_queue__worker_pool_id__worker_pool") CASCADE;
      PrimaryKeyConstraint ["id"] (op.f "pk_worker_pool_queue");
      UniqueConstraint ["worker_pool_id"; "name"]
        (op.f "uq_worker_pool_queue__worker_pool_id_name") ];
  op.create_index (op.f "ix_worker_pool_queue__updated") "worker_pool_queue"
    ["updated"] false;
  op.create_index (op.f "ix_worker_pool_queue__worker_pool_id_priority")
    "worker_pool_queue" ["worker_pool_id"; "priority"] false;
  op.create_index (op.f "ix_worker_pool_queue__worker_pool_id")
    "worker_pool_queue" ["worker_pool_id"] false;

  op.create_foreign_key
    (op.f "fk_worker_pool__default_queue_id__worker_pool_queue")
    "worker_pool" "worker_pool_queue" ["default_queue_id"] ["id"] RESTRICT;

  op.add_column "deployment" (mkColumn "worker_pool_queue_id" UUID None true);
  op.create_index (op.f "ix_deployment__worker_pool_queue_id") "deployment"
    ["worker_pool_queue_id"] false;
  op.create_foreign_key
    (op.f "fk_deployment__worker_pool_queue_id__worker_pool_queue")
    "deployment" "worker_pool_queue" ["worker_pool_queue_id"] ["id"] SET_NULL;

  op.add_column "flow_run" (mkColumn "worker_pool_queue_id" UUID None true);
  op.create_index (op.f "ix_flow_run__worker_pool_queue_id") "flow_run"
    ["worker_pool_queue_id"] false;
  op.create_foreign_key
    (op.f "fk_flow_run__worker_pool_queue_id__worker_pool_queue")
    "flow_run" "worker_pool_queue" ["worker_pool_queue_id"] ["id"] SET_NULL
].

(** [downgrade()] *)
Definition downgrade : list op.Op := [
  op.drop_column "deployment" "worker_pool_queue_id";
  op.drop_column "flow_run" "worker_pool_queue_id";
  op.drop_constraint "worker_pool"
    "fk_worker_pool__default_queue_id__worker_pool_queue";
  op.drop_table "worker_pool_queue";
  op.drop_table "worker";
  op.drop_table "worker_pool"
].

(** The tables that earlier revisions created and that this one alters, as
    far as it relies on them: they exist and have a primary key [id]. *)
Definition earlier_revisions : Schema := [
  ("deployment", mkTable [id_column] [PrimaryKeyConstraint ["id"] "pk_deployment"] []);
  ("flow_run", mkTable [id_column] [PrimaryKeyConstraint ["id"] "pk_flow_run"] [])
].

(** The schema once the migration has run. *)
Definition schema : Schema := op.run upgrade earlier_revisions.

End add_worker_tables.


(** ** Rows, tables and the enforcement of the constraints *)

Module database.
Import sa.

(** The values of a column; [NULL] is the absence of one. *)
Inductive value : Type :=
| NULL
| VUuid (u : nat)
| VStr (s : string)
| VInt (z : Z)
| VBool (b : bool)
| VTime (t : Z)
| VJson (j : string).

Definition is_null (v : value) : bool :=
  match v with NULL => true | _ => false end.

Definition value_eqb (a b : value) : bool :=
  match a, b with
  | NULL, NULL => true
  | VUuid x, VUuid y => Nat.eqb x y
  | VStr x, VStr y => String.eqb x y
  | VInt x, VInt y => Z.eqb x y
  | VBool x, VBool y => Bool.eqb x y
  | VTime x, VTime y => Z.eqb x y
  | VJson x, VJson y => String.eqb x y
  | _, _ => false
  end.

(** A row binds column names to values; a column without a binding is
    [NULL], and the first binding of a name is the one that counts. *)
Definition Row : Type := list (string * value).

Fixpoint get (r : Row) (c : string) : value :=
  match r with
  | [] => NULL
  | (k, v) :: rest => if String.eqb k c then v else get rest c
  end.

Definition set_null (cols : list string) (r : Row) : Row :=
  map (fun c => (c, NULL)) cols ++ r.

(** The rows of every table. *)
Definition Database : Type := string -> list Row.

Definition empty : Database := fun _ => [].

Definition set_rows (db : Database) (t : string) (rows : list Row) : Database :=
  fun t' => if String.eqb t t' then rows else db t'.

(** *** What the constraints of a table demand of its rows *)

Definition not_null_ok (tb : Table) (r : Row) : bool :=
  forallb (fun c => nullable c || negb (is_null (get r (column_name c))))
          (columns tb).

(** Two rows collide on a key when they agree on each of its columns and
    none of these values is [NULL]. *)
Definition collide (cols : list string) (r1 r2 : Row) : bool :=
  forallb (fun c => negb (is_null (get r1 c))
                    && value_eqb (get r1 c) (get r2 c)) cols.

Fixpoint unique_ok (cols : list string) (rows : list Row) : bool :=
  match rows with
  | [] => true
  | r :: rest => negb (existsb (collide cols r) rest) && unique_ok cols rest
  end.

Definition key_ok (rows : list Row) (k : Constraint) : bool :=
  match k with
  | PrimaryKeyConstraint cols _ => unique_ok cols rows
  | UniqueConstraint cols _ => unique_ok cols rows
  | ForeignKeyConstraint _ _ _ _ _ => true
  end.

Definition table_ok (tb : Table) (rows : list Row) : bool :=
  forallb (not_null_ok tb) rows && forallb (key_ok rows) (constraints tb).

(** [child] refers to [parent] through the columns [cols] -> [refcols]. *)
Fixpoint refers (cols refcols : list string) (child parent : Row) : bool :=
  match cols, refcols with
  | c :: cols', rc :: refcols' =>
      negb (is_null (get child c))
      && value_eqb (get child c) (get parent rc)
      && refers cols' refcols' child parent
  | _, _ => true
  end.

(** A row's foreign keys all find their parent (a key with a [NULL] column
    needs none). *)
Definition parent_ok (db : Database) (r : Row) (k : Constraint) : bool :=
  match k with
  | ForeignKeyConstraint cols reftable refcols _ _ =>
      existsb (fun c => is_null (get r c)) cols
      || existsb (refers cols refcols r) (db reftable)
  | _ => true
  end.

Definition parents_ok (db : Database) (tb : Table) (r : Row) : bool :=
  forallb (parent_ok db r) (constraints tb).

(** The foreign keys of the schema that refer to table [t]: the referring
    table, its columns, the columns referred to, and the [ondelete] action. *)
Record Reference : Type := mkReference {
  ref_table : string;
  ref_cols : list string;
  ref_refcols : list string;
  ref_ondelete : OnDelete
}.

Definition references_from (t : string) (entry : string * Table)
  : list Reference :=
  flat_map (fun k =>
    match k with
    | ForeignKeyConstraint cols reftable refcols _ od =>
        if String.eqb reftable t
        then [mkReference (fst entry) cols refcols od] else []
    | _ => []
    end) (constraints (snd entry)).

Definition references_to (sch : Schema) (t : string) : list Reference :=
  flat_map (references_from t) sch.

(** *** Statements *)

(** Write the rows of a table after checking them against its constraints. *)
Definition checked_write (sch : Schema) (db : Database) (t : string)
           (rows : list Row) : outcome Database :=
  match table_of sch t with
  | None => Raised (OtherError "no such table")
  | Some tb =>
      if table_ok tb rows then Ok (set_rows db t rows)
      else Raised IntegrityError
  end.

(** INSERT one row. *)
Definition insert (sch : Schema) (db : Database) (t : string) (r : Row)
  : outcome Database :=
  match table_of sch t with
  | None => Raised (OtherError "no such table")
  | Some tb =>
      if parents_ok db tb r then checked_write sch db t (db t ++ [r])
      else Raised IntegrityError
  end.

(** Is [child] a row that refers to one of the rows [dead]? *)
Definition orphaned (rf : Reference) (dead : list Row) (child : Row) : bool :=
  existsb (refers (ref_cols rf) (ref_refcols rf) child) dead.

(** DELETE the rows of [t] that satisfy [victim], and carry out the
    [ondelete] action of every foreign key that refers to [t]: cascade the
    deletion, set the referring columns to [NULL], or refuse while a
    referring row is left.  [depth] bounds the length of a cascade. *)
Fixpoint delete_rows (depth : nat) (sch : Schema) (db : Database)
         (t : string) (victim : Row -> bool) : outcome Database :=
  match depth with
  | O => Raised (OtherError "cascade too deep")
  | S depth' =>
      let dead := filter victim (db t) in
      let db1 := set_rows db t (filter (fun r => negb (victim r)) (db t)) in
      fold_left
        (fun acc rf =>
           match acc with
           | Raised e => Raised e
           | Ok d =>
               match ref_ondelete rf with
               | CASCADE =>
                   delete_rows depth' sch d (ref_table rf) (orphaned rf dead)
               | SET_NULL =>
                   checked_write sch d (ref_table rf)
                     (map (fun r => if orphaned rf dead r
                                    then set_null (ref_cols rf) r else r)
                          (d (ref_table rf)))
               | RESTRICT | NO_ACTION =>
                   if existsb (orphaned rf dead) (d (ref_table rf))
                   then Raised IntegrityError else Ok d
               end
           end)
        (references_to sch t) (Ok db1)
  end.

Definition delete (sch : Schema) (db : Database) (t : string)
           (victim : Row -> bool) : outcome Database :=
  delete_rows (S (List.length sch)) sch db t victim.

(** No row that refers to [t] is left without its parent. *)
Definition children_ok (sch : Schema) (db : Database) (t : string) : bool :=
  forallb (fun rf =>
    forallb (fun child =>
      existsb (fun c => is_null (get child c)) (ref_cols rf)
      || existsb (refers (ref_cols rf) (ref_refcols rf) child) (db t))
      (db (ref_table rf)))
    (references_to sch t).

(** UPDATE the rows of [t] that satisfy [target] to [change] of them. *)
Definition update (sch : Schema) (db : Database) (t : string)
           (target : Row -> bool) (change : Row -> Row) : outcome Database :=
  match table_of sch t with
  | None => Raised (OtherError "no such table")
  | Some tb =>
      let rows := map (fun r => if target r then change r else r) (db t) in
      match checked_write sch db t rows with
      | Raised e => Raised e
      | Ok db' =>
          if forallb (parents_ok db' tb) rows && children_ok sch db' t
          then Ok db' else Raised IntegrityError
      end
  end.

(** A statement, and a session that issues statements one after another; a
    statement that is refused changes nothing. *)
Inductive Statement : Type :=
| INSERT (t : string) (r : Row)
| DELETE (t : string) (victim : Row -> bool)
| UPDATE (t : string) (target : Row -> bool) (change : Row -> Row).

Definition execute (sch : Schema) (db : Database) (st : Statement)
  : outcome Database :=
  match st with
  | INSERT t r => insert sch db t r
  | DELETE t victim => delete sch db t victim
  | UPDATE t target change => update sch db t target change
  end.

Definition execute_all (sch : Schema) (db : Database) (sts : list Statement)
  : Database :=
  fold_left (fun d st => match execute sch d st with
                         | Ok d' => d'
                         | Raised _ => d
                         end) sts db.

(** Setting the columns [cols] of rows of the table to [NULL] is allowed
    by the table: the columns are nullable, and no key is made of them. *)
Definition set_null_ok (tb : Table) (cols : list string) : bool :=
  forallb (fun col => negb (mentions (column_name col) cols) || nullable col)
          (columns tb)
  && forallb (fun k =>
       match k with
       | PrimaryKeyConstraint kcols _ | UniqueConstraint kcols _ =>
           forallb (fun c => negb (mentions c cols)) kcols
       | ForeignKeyConstraint _ _ _ _ _ => true
       end) (constraints tb).

(** Every table of the schema holds rows that meet its [NOT NULL], primary
    key and unique constraints. *)
Definition db_ok (sch : Schema) (db : Database) : Prop :=
  forall t tb, table_of sch t = Some tb -> table_ok tb (db t) = true.

(** No two rows of table [t] agree on all of the columns [cols]. *)
Definition distinct_on (db : Database) (t : string) (cols : list string)
  : Prop :=
  forall i j r1 r2,
    nth_error (db t) i = Some r1 ->
    nth_error (db t) j = Some r2 ->
    (forall c, In c cols -> get r1 c = get r2 c) ->
    i = j.

End database.


(** ** The worker pool / queue model *)

Module workers.
Import sa database.

Definition schema : Schema := add_worker_tables.schema.

(** The [concurrency_limit] of a pool or queue row; [NULL] is no limit. *)
Definition concurrency_limit (r : Row) : option Z :=
  match get r "concurrency_limit" with
  | VInt n => Some n
  | _ => None
  end.

(** A ceiling on concurrent work: a number, or none at all. *)
Inductive ceiling : Type :=
| Bounded (n : Z)
| Unbounded.

Definition or_infinity (limit : option Z) : ceiling :=
  match limit with
  | Some n => Bounded n
  | None => Unbounded
  end.

Definition ceiling_min (a b : ceiling) : ceiling :=
  match a, b with
  | Unbounded, c => c
  | c, Unbounded => c
  | Bounded x, Bounded y => Bounded (Z.min x y)
  end.

Definition ceiling_le (a b : ceiling) : Prop :=
  match a, b with
  | _, Unbounded => True
  | Unbounded, Bounded _ => False
  | Bounded x, Bounded y => (x <= y)%Z
  end.

Definition as_limit (c : ceiling) : option Z :=
  match c with
  | Bounded n => Some n
  | Unbounded => None
  end.

(** Modelled from the spec: [effective_concurrency_limit(queue)], the
    read-only query of the model, whose source is not among the source
    files embedded here: the minimum of the pool's and the queue's
    [concurrency_limit], each replaced by infinity when it is not set, and
    where an unbounded result is no limit. *)
Definition effective_concurrency_limit (pool queue : Row) : option Z :=
  as_limit (ceiling_min (or_infinity (concurrency_limit pool))
                        (or_infinity (concurrency_limit queue))).

(** The rows of a pool: the pool itself by its [id], its workers and queues
    by their [worker_pool_id]. *)
Definition is_pool (p : nat) (r : Row) : bool :=
  value_eqb (get r "id") (VUuid p).

Definition belongs_to (p : nat) (r : Row) : bool :=
  value_eqb (get r "worker_pool_id") (VUuid p).

(** [DELETE FROM worker_pool WHERE id = p] *)
Definition delete_worker_pool (db : Database) (p : nat) : outcome Database :=
  delete schema db "worker_pool" (is_pool p).

(** The foreign keys of the schema that refer to the worker tables. *)
Definition to_queues : Reference :=
  mkReference "worker_pool_queue" ["worker_pool_id"] ["id"] CASCADE.
Definition to_workers : Reference :=
  mkReference "worker" ["worker_pool_id"] ["id"] CASCADE.
Definition as_default : Reference :=
  mkReference "worker_pool" ["default_queue_id"] ["id"] RESTRICT.
Definition from_deployment : Reference :=
  mkReference "deployment" ["worker_pool_queue_id"] ["id"] SET_NULL.
Definition from_flow_run : Reference :=
  mkReference "flow_run" ["worker_pool_queue_id"] ["id"] SET_NULL.

(** Some pool other than [p] has a queue of pool [p] as its default queue. *)
Definition default_elsewhere (db : Database) (p : nat) : bool :=
  existsb (fun pool =>
    negb (is_pool p pool)
    && existsb (fun q =>
         belongs_to p q && refers ["default_queue_id"] ["id"] pool q)
         (db "worker_pool_queue"))
    (db "worker_pool").

(** Rows as the application writes them. *)
Definition limit_value (limit : option Z) : value :=
  match limit with
  | Some n => VInt n
  | None => NULL
  end.

Definition pool_row (i : nat) (name : string) (limit : option Z) : Row :=
  [("id", VUuid i); ("created", VTime 0); ("updated", VTime 0);
   ("name", VStr name); ("base_job_template", VJson "{}");
   ("is_paused", VBool false); ("concurrency_limit", limit_value limit)].

Definition worker_row (i : nat) (name : string) (pool : nat) : Row :=
  [("id", VUuid i); ("created", VTime 0); ("updated", VTime 0);
   ("name", VStr name); ("last_heartbeat_time", VTime 0);
   ("worker_pool_id", VUuid pool)].

Definition queue_row (i : nat) (name : string) (pool : nat) (priority : Z)
           (limit : option Z) : Row :=
  [("id", VUuid i); ("created", VTime 0); ("updated", VTime 0);
   ("name", VStr name); ("is_paused", VBool false);
   ("concurrency_limit", limit_value limit); ("priority", VInt priority);
   ("worker_pool_id", VUuid pool)].

(** Two pools, each with a queue, and three workers. *)
Definition two_pools : Database :=
  set_rows
    (set_rows
       (set_rows empty "worker_pool"
          [pool_row 1 "docker" (Some 5%Z); pool_row 2 "k8s" None])
       "worker_pool_queue"
       [queue_row 10 "default" 1 1 None; queue_row 20 "default" 2 1 (Some 3%Z)])
    "worker"
    [worker_row 100 "w1" 1; worker_row 101 "w2" 1; worker_row 200 "w1" 2].

(** The column is declared, and declared nullable. *)
Definition nullable_column (sch : Schema) (t c : string) : bool :=
  match table_of sch t with
  | None => false
  | Some tb =>
      existsb (fun col => String.eqb (column_name col) c && nullable col)
              (columns tb)
  end.

(** The table declares a foreign key from [cols] to [reftable].[refcols]
    with the given [ondelete] action. *)
Definition foreign_key_declared (sch : Schema) (t : string)
           (cols : list string) (reftable : string) (refcols : list string)
           (od : OnDelete) : Prop :=
  exists tb name,
    table_of sch t = Some tb /\
    In (ForeignKeyConstraint cols reftable refcols name od) (constraints tb).

(** The column is declared [NOT NULL]. *)
Definition not_null_column (tb : Table) (c : string) : bool :=
  existsb (fun col => String.eqb (column_name col) c && negb (nullable col))
          (columns tb).

(** The table declares [cols] unique. *)
Definition unique_declared (sch : Schema) (t : string) (cols : list string)
  : Prop :=
  exists tb name,
    table_of sch t = Some tb /\
    In (UniqueConstraint cols name) (constraints tb).

End workers.


(** ** Reading the events of a pass *)

Module events.
Import pause_expirations.

Definition is_set_state (ev : Event) : bool :=
  match ev with EvSetState _ _ _ => true | _ => false end.

(** The events of a pass without the calls of [set_flow_run_state]: the
    transactions, what each query returned, and the log. *)
Definition outline (t : list Event) : list Event :=
  filter (fun ev => negb (is_set_state ev)) t.

(** The ids each query returned, batch by batch. *)
Fixpoint selections (t : list Event) : list (list nat) :=
  match t with
  | [] => []
  | EvSelect l :: rest => l :: selections rest
  | _ :: rest => selections rest
  end.

Definition batch_sizes (t : list Event) : list nat :=
  map (@List.length nat) (selections t).

(** The ids [set_flow_run_state] was called on, in order. *)
Fixpoint set_state_calls (t : list Event) : list nat :=
  match t with
  | [] => []
  | EvSetState i _ _ :: rest => i :: set_state_calls rest
  | _ :: rest => set_state_calls rest
  end.

(** The call the service makes on run [i]. *)
Definition fail_call (i : nat) : Event :=
  EvSetState i (Failed never_resumed) true.

(** An event is no call of [set_flow_run_state], or it is the call the
    service makes: a Failed state with the fixed message, forced. *)
Definition failing_call (ev : Event) : Prop :=
  match ev with
  | EvSetState _ st force => st = Failed never_resumed /\ force = true
  | _ => True
  end.

(** The events of one batch that selected [selected] and made [calls]. *)
Definition committed (selected : list nat) (calls : list Event) : list Event :=
  EvBegin :: EvSelect selected :: calls ++ [EvCommit].

(** A Paused run with the given deadline. *)
Definition paused_run (i : nat) (timeout : option Z) : FlowRun :=
  {| id := i; state := Paused timeout; state_timestamp := 0 |}.

(** [n] Paused runs with ids [first], [first + 1], ... and one deadline. *)
Definition paused_runs (first n : nat) (timeout : Z) : Store :=
  map (fun i => paused_run i (Some timeout)) (seq first n).

(** The deadline of a run has passed at every reading of the clock, or at
    none. *)
Definition expired (clock : nat -> Z) (r : FlowRun) : Prop :=
  exists t, pause_timeout (state_details (state r)) = Some t
            /\ forall k, (t < clock k)%Z.

Definition waiting (clock : nat -> Z) (r : FlowRun) : Prop :=
  exists t, pause_timeout (state_details (state r)) = Some t
            /\ forall k, (clock k <= t)%Z.

(** The row of a run after the service has failed it at time [ts]. *)
Definition failed_row (ts : Z) (r : FlowRun) : FlowRun :=
  {| id := id r; state := Failed never_resumed; state_timestamp := ts |}.

(** The table with its first [n] Paused rows failed. *)
Fixpoint fail_first (ts : Z) (n : nat) (s : Store) {struct s} : Store :=
  match n with
  | O => s
  | S n' =>
      match s with
      | [] => []
      | r :: rest =>
          if is_paused r then failed_row ts r :: fail_first ts n' rest
          else r :: fail_first ts n rest
      end
  end.

(** The comparison of [_mark_flow_run_as_failed] at the time [now], for a
    run that has a deadline. *)
Definition is_due (now : Z) (r : FlowRun) : bool :=
  match pause_timeout (state_details (state r)) with
  | Some t => Z.ltb t now
  | None => false
  end.

(** The run is due at every reading of the clock or at none: the pass does
    not see its deadline go by. *)
Definition settled (clock : nat -> Z) (r : FlowRun) : Prop :=
  expired clock r \/ waiting clock r.

(** The table with those of its first [n] Paused rows failed that are
    [due]. *)
Fixpoint fail_due (ts : Z) (due : FlowRun -> bool) (n : nat) (s : Store)
         {struct s} : Store :=
  match n with
  | O => s
  | S n' =>
      match s with
      | [] => []
      | r :: rest =>
          if is_paused r
          then (if due r then failed_row ts r else r)
               :: fail_due ts due n' rest
          else r :: fail_due ts due n rest
      end
  end.

(** The table with every Paused row failed that is [due]. *)
Definition fail_all_due (ts : Z) (due : FlowRun -> bool) (s : Store) : Store :=
  map (fun r => if is_paused r && due r then failed_row ts r else r) s.

(** A clock that stands at [t] for the whole pass. *)
Definition standing_at (t : Z) : nat -> Z := fun _ => t.

(** The world a pass starts in. *)
Definition at_start (s : Store) : Env := {| store := s; ticks := 0 |}.

(** A state machine on which the call on run [victim] raises [e], and every
    other call is as on [base]. *)
Definition raising_on (victim : nat) (e : exn)
           (base : Store -> nat -> State -> bool -> outcome unit * Store)
  : Store -> nat -> State -> bool -> outcome unit * Store :=
  fun s i st force =>
    if Nat.eqb i victim then (Raised e, s) else base s i st force.

(** The events of a loop that fails the runs [l], all due, in [q] full
    batches and a last, shorter one. *)
Fixpoint drain_events (batch_size q : nat) (l : list nat) : list Event :=
  match q with
  | O => committed l (map fail_call l)
  | S q' =>
      committed (firstn batch_size l) (map fail_call (firstn batch_size l))
      ++ drain_events batch_size q' (skipn batch_size l)
  end.

(** ** What the service asks of the state machine *)

(** The one kind of call the service makes, answered as it expects: a forced
    call that proposes the Failed state for a Paused run of the table
    returns, and writes that state, stamped with some time, to that run and
    to no other. *)
Definition fails_paused_runs
           (set_flow_run_state :
              Store -> nat -> State -> bool -> outcome unit * Store) : Prop :=
  forall (s : Store) (r : FlowRun),
    read_run s (id r) = Some r ->
    is_paused r = true ->
    exists ts,
      set_flow_run_state s (id r) (Failed never_resumed) true
      = (Ok tt, write_run_state s (id r) (Failed never_resumed) ts).

(** Two rows are the same, or both are what the service made of one run,
    stamped with different times. *)
Definition same_but_stamps (x y : FlowRun) : Prop :=
  x = y
  \/ (id x = id y /\ state x = Failed never_resumed
      /\ state y = Failed never_resumed).

(** Row [y] is row [x] as it was, or [x] was Paused and [y] is that run,
    Failed with the message of the service. *)
Definition kept_or_failed (x y : FlowRun) : Prop :=
  y = x
  \/ (is_paused x = true /\ id y = id x /\ state y = Failed never_resumed).

(** [l] is [l'] with some elements left out. *)
Inductive subsequence {A : Type} : list A -> list A -> Prop :=
| subsequence_nil : subsequence [] []
| subsequence_take (x : A) (l l' : list A) :
    subsequence l l' -> subsequence (x :: l) (x :: l')
| subsequence_skip (x : A) (l l' : list A) :
    subsequence l l' -> subsequence l (x :: l').

(** The calls of a batch are calls of the service on selected runs, in the
    order of the selection. *)
Definition calls_within (selected : list nat) (calls : list Event) : Prop :=
  exists called, calls = map fail_call called /\ subsequence called selected.

(** The shape of the events of a pass that stands at [st] after some turns
    of its loop: full batches, each committed in a transaction of its own;
    then nothing more (the loop is still running), or a batch that is
    rolled back (the pass raised), or a committed batch shorter than the
    batch size and the one log record (the pass returned). *)
Inductive orderly (batch_size : nat) : status -> list Event -> Prop :=
| orderly_running : orderly batch_size Running []
| orderly_raised (selected : list nat) (calls : list Event) (e : exn) :
    List.length selected <= batch_size ->
    calls_within selected calls ->
    orderly batch_size (Raises e)
            (EvBegin :: EvSelect selected :: calls ++ [EvRollback])
| orderly_returned (selected : list nat) (calls : list Event) :
    List.length selected < batch_size ->
    calls_within selected calls ->
    orderly batch_size Returned
            (committed selected calls ++ [EvLog INFO finished_monitoring])
| orderly_full (selected : list nat) (calls : list Event) (st : status)
               (rest : list Event) :
    List.length selected = batch_size ->
    calls_within selected calls ->
    orderly batch_size st rest ->
    orderly batch_size st (committed selected calls ++ rest).

End events.


(** ** Reading a migration *)

Module revisions.
Import sa.

(** The table an operation acts on. *)
Definition target (o : op.Op) : string :=
  match o with
  | op.create_table n _ _ => n
  | op.create_index _ t _ _ => t
  | op.create_foreign_key _ t _ _ _ _ => t
  | op.add_column t _ => t
  | op.drop_column t _ => t
  | op.drop_constraint t _ => t
  | op.drop_table n => n
  end.

(** The table has no column [c], and no constraint or index over a column
    of that name. *)
Definition without_column (c : string) (tb : Table) : bool :=
  forallb (fun col => negb (String.eqb (column_name col) c)) (columns tb)
  && forallb (fun k => negb (mentions c (constraint_columns k)))
             (constraints tb)
  && forallb (fun ix => negb (mentions c (index_columns ix))) (indexes tb).

(** The tables the migration [add_worker_tables] creates or alters. *)
Definition worker_tables : list string :=
  ["worker_pool"; "worker"; "worker_pool_queue"; "deployment"; "flow_run"].

End revisions.


(** ** Rows and the rows they refer to *)

Module integrity.
Import sa database workers.

(** Every row of every table finds the parents its foreign keys name. *)
Definition fk_ok (sch : Schema) (db : Database) : Prop :=
  forall t tb r,
    table_of sch t = Some tb -> In r (db t) -> parents_ok db tb r = true.

(** The column [col] of the row is [NULL], or is the [id] of a row of
    [parent]. *)
Definition finds (db : Database) (parent col : string) (r : Row) : bool :=
  is_null (get r col) || existsb (refers [col] ["id"] r) (db parent).

(** The five foreign keys of the worker tables, row by row. *)
Definition referential (db : Database) : Prop :=
  (forall r, In r (db "worker") ->
             finds db "worker_pool" "worker_pool_id" r = true)
  /\ (forall r, In r (db "worker_pool_queue") ->
                finds db "worker_pool" "worker_pool_id" r = true)
  /\ (forall r, In r (db "worker_pool") ->
                finds db "worker_pool_queue" "default_queue_id" r = true)
  /\ (forall r, In r (db "deployment") ->
                finds db "worker_pool_queue" "worker_pool_queue_id" r = true)
  /\ (forall r, In r (db "flow_run") ->
                finds db "worker_pool_queue" "worker_pool_queue_id" r = true).

(** The column [col] of the row is set, and is the [id] of a row of
    [parent]. *)
Definition has_parent (db : Database) (parent col : string) (r : Row) : Prop :=
  exists p, In p (db parent) /\ get r col <> NULL /\ get p "id" = get r col.

(** The queue [q] by its [id], and the rows that name it. *)
Definition is_queue (q : nat) (r : Row) : bool :=
  value_eqb (get r "id") (VUuid q).

Definition uses_queue (q : nat) (r : Row) : bool :=
  value_eqb (get r "worker_pool_queue_id") (VUuid q).

Definition has_default (q : nat) (pool : Row) : bool :=
  value_eqb (get pool "default_queue_id") (VUuid q).

(** [DELETE FROM worker_pool_queue WHERE id = q] *)
Definition delete_worker_pool_queue (db : Database) (q : nat)
  : outcome Database :=
  delete schema db "worker_pool_queue" (is_queue q).

(** A deployment or flow run without its queue [q]. *)
Definition release (q : nat) (r : Row) : Row :=
  if uses_queue q r then set_null ["worker_pool_queue_id"] r else r.

End integrity.


(** ** Operations the database accepts *)

Module ddl.
Import sa op revisions.

(** What a table, a schema has. *)
Definition has_table (sch : Schema) (t : string) : bool :=
  match table_of sch t with Some _ => true | None => false end.

Definition has_column (cols : list Column) (c : string) : bool :=
  existsb (fun col => String.eqb (column_name col) c) cols.

Definition has_constraint (tb : Table) (n : string) : bool :=
  existsb (fun k => String.eqb (constraint_name k) n) (constraints tb).

Definition has_index (sch : Schema) (n : string) : bool :=
  existsb (fun e => existsb (fun ix => String.eqb (index_name ix) n)
                            (indexes (snd e))) sch.

Fixpoint same_columns (a b : list string) : bool :=
  match a, b with
  | [], [] => true
  | x :: a', y :: b' => String.eqb x y && same_columns a' b'
  | _, _ => false
  end.

(** The columns are the primary key of the table, or declared unique. *)
Definition is_key (tb : Table) (cols : list string) : bool :=
  existsb (fun k =>
             match k with
             | PrimaryKeyConstraint kc _ | UniqueConstraint kc _ =>
                 same_columns kc cols
             | ForeignKeyConstraint _ _ _ _ _ => false
             end) (constraints tb).

(** A constraint can be declared on a table with the columns [cols]: it is
    over columns of the table, and a foreign key refers to a key of a table
    that exists. *)
Definition declarable (sch : Schema) (cols : list Column) (k : Constraint)
  : bool :=
  forallb (has_column cols) (constraint_columns k)
  && match k with
     | ForeignKeyConstraint _ reftable refcols _ _ =>
         match table_of sch reftable with
         | Some rt => is_key rt refcols
         | None => false
         end
     | _ => true
     end.

(** The table has a foreign key to table [n]; some other table of the
    schema has one. *)
Definition refers_to (n : string) (tb : Table) : bool :=
  existsb (fun k =>
             match k with
             | ForeignKeyConstraint _ reftable _ _ _ => String.eqb reftable n
             | _ => false
             end) (constraints tb).

Definition referred_to (sch : Schema) (n : string) : bool :=
  existsb (fun e => negb (String.eqb (fst e) n) && refers_to n (snd e)) sch.

(** What the database demands of an operation: the tables, columns and
    keys it names are there; the table, column, constraint or index it
    creates is not there yet; and no table is dropped while another table
    refers to it. *)
Definition permitted (sch : Schema) (o : Op) : bool :=
  match o with
  | create_table n cols cs =>
      negb (has_table sch n) && forallb (declarable sch cols) cs
  | create_index n t cols _ =>
      negb (has_index sch n)
      && match table_of sch t with
         | Some tb => forallb (has_column (columns tb)) cols
         | None => false
         end
  | create_foreign_key n t ref lc rc od =>
      match table_of sch t with
      | Some tb =>
          negb (has_constraint tb n)
          && declarable sch (columns tb) (ForeignKeyConstraint lc ref rc n od)
      | None => false
      end
  | add_column t col =>
      match table_of sch t with
      | Some tb => negb (has_column (columns tb) (column_name col))
      | None => false
      end
  | drop_column t c =>
      match table_of sch t with
      | Some tb => has_column (columns tb) c
      | None => false
      end
  | drop_constraint t n =>
      match table_of sch t with
      | Some tb => has_constraint tb n
      | None => false
      end
  | drop_table n => has_table sch n && negb (referred_to sch n)
  end.

(** Run the operations one after another while each is permitted; [None]
    at the first that is not. *)
Fixpoint run_checked (ops : list Op) (sch : Schema) : option Schema :=
  match ops with
  | [] => Some sch
  | o :: rest =>
      if permitted sch o then run_checked rest (apply sch o) else None
  end.

(** The names of the indexes the operations create. *)
Definition created_indexes (ops : list Op) : list string :=
  flat_map (fun o => match o with
                     | create_index n _ _ _ => [n]
                     | _ => []
                     end) ops.

(** Table [t] is there, has no column [worker_pool_queue_id], no
    constraint or index over a column of that name, and no constraint named
    [fk]. *)
Definition takes_queue_column (base : Schema) (t fk : string) : bool :=
  match table_of base t with
  | Some tb => without_column "worker_pool_queue_id" tb
               && negb (has_constraint tb fk)
  | None => false
  end.

(** A schema on which the migration has not run: none of the three worker
    tables is there or referred to, none of the names of the indexes of
    [upgrade()] is taken, and [deployment] and [flow_run] are there without
    the queue column. *)
Definition at_down_revision (base : Schema) : bool :=
  forallb (fun n => negb (has_table base n) && negb (referred_to base n))
          ["worker_pool"; "worker"; "worker_pool_queue"]
  && forallb (fun n => negb (has_index base n))
             (created_indexes add_worker_tables.upgrade)
  && takes_queue_column base "deployment"
       "fk_deployment__worker_pool_queue_id__worker_pool_queue"
  && takes_queue_column base "flow_run"
       "fk_flow_run__worker_pool_queue_id__worker_pool_queue".

End ddl.


(** ** Calls and deadlines *)

Module deadlines.
Import pause_expirations.

(** Run [i] is a Paused run of [rows] whose deadline had passed at a reading
    of the clock from the [lo]-th on and before the [hi]-th. *)
Definition overdue (clock : nat -> Z) (rows : Store) (lo hi : nat) (i : nat)
  : Prop :=
  exists r d k,
    In r rows /\ id r = i /\ is_paused r = true
    /\ pause_timeout (state_details (state r)) = Some d
    /\ lo <= k < hi /\ (d < clock k)%Z.

(** The clock does not go back from one reading to a later one. *)
Definition goes_forward (clock : nat -> Z) : Prop :=
  forall j k, j <= k -> (clock j <= clock k)%Z.

End deadlines.


(** * Properties *)

Import sa database workers.
Import pause_expirations events.

(** ** Lists *)

Lemma in_firstn {A} (n : nat) (l : list A) (x : A) :
  In x (firstn n l) -> In x l.
Proof.
  intros H. rewrite <- (firstn_skipn n l). apply in_or_app. left. exact H.
Qed.

Lemma in_skipn {A} (n : nat) (l : list A) (x : A) :
  In x (skipn n l) -> In x l.
Proof.
  intros H. rewrite <- (firstn_skipn n l). apply in_or_app. right. exact H.
Qed.

Lemma nth_error_firstn_some {A} (n j : nat) (l : list A) (x : A) :
  nth_error (firstn n l) j = Some x -> nth_error l j = Some x.
Proof.
  revert n l. induction j as [| j IH]; intros [| n] [| y l]; cbn;
    try discriminate; auto.
  apply IH.
Qed.

Lemma set_state_calls_app (a b : list Event) :
  set_state_calls (a ++ b) = set_state_calls a ++ set_state_calls b.
Proof.
  induction a as [| [] a IH]; cbn; try exact IH.
  - reflexivity.
  - f_equal. exact IH.
Qed.

(** The events of a batch that was rolled back, without its calls and as
    calls alone. *)
Lemma outline_rolled_back (l : list nat) (t : list Event) :
  outline t = [] ->
  outline (EvBegin :: EvSelect l :: t ++ [EvRollback])
  = [EvBegin; EvSelect l; EvRollback].
Proof.
  intros H. unfold outline in *. cbn [filter is_set_state negb].
  rewrite filter_app, H. reflexivity.
Qed.

Lemma calls_rolled_back (l : list nat) (t : list Event) :
  set_state_calls (EvBegin :: EvSelect l :: t ++ [EvRollback])
  = set_state_calls t.
Proof.
  cbn [set_state_calls]. rewrite set_state_calls_app. cbn.
  apply app_nil_r.
Qed.

(** ** One run, one batch *)

Section MarkFacts.

Variable clock : nat -> Z.
Variable set_flow_run_state :
  Store -> nat -> State -> bool -> outcome unit * Store.
Variable batch_size : nat.

Local Notation "'mark'" := (_mark_flow_run_as_failed clock set_flow_run_state).
Local Notation "'mark_all'" := (mark_each clock set_flow_run_state).

Lemma mark_no_deadline (run : FlowRun) (w : Env) :
  pause_timeout (state_details (state run)) = None ->
  mark run w = (Raised TypeError, tick w, []).
Proof.
  intros H. unfold _mark_flow_run_as_failed, bind, now, lt_datetime.
  rewrite H. reflexivity.
Qed.

Lemma mark_not_due (run : FlowRun) (w : Env) (t : Z) :
  pause_timeout (state_details (state run)) = Some t ->
  (clock (ticks w) <= t)%Z ->
  mark run w = (Ok tt, tick w, []).
Proof.
  intros H Hle. unfold _mark_flow_run_as_failed, bind, now, lt_datetime.
  rewrite H. cbn.
  destruct (Z.ltb_spec t (clock (ticks w))); [lia | reflexivity].
Qed.

Lemma mark_due (run : FlowRun) (w : Env) (t : Z) :
  pause_timeout (state_details (state run)) = Some t ->
  (t < clock (ticks w))%Z ->
  mark run w =
  match set_flow_run_state (store w) (id run) (Failed never_resumed) true with
  | (Ok _, s') =>
      (Ok tt, {| store := s'; ticks := S (ticks w) |}, [fail_call (id run)])
  | (Raised e, s') =>
      (Raised e, {| store := s'; ticks := S (ticks w) |}, [fail_call (id run)])
  end.
Proof.
  intros H Hlt.
  unfold _mark_flow_run_as_failed, bind, now, lt_datetime.
  rewrite H. cbn.
  destruct (Z.ltb_spec t (clock (ticks w))); [| lia].
  unfold call_set_flow_run_state, bind, emit, get_store, put_store, raise. cbn.
  destruct (set_flow_run_state (store w) (id run) (Failed never_resumed) true)
    as [[u | e] s']; reflexivity.
Qed.

Lemma mark_each_app (l1 l2 : list FlowRun) (w : Env) :
  mark_all (l1 ++ l2) w =
  match mark_all l1 w with
  | (Ok _, w1, t1) =>
      match mark_all l2 w1 with
      | (r, w2, t2) => (r, w2, t1 ++ t2)
      end
  | (Raised e, w1, t1) => (Raised e, w1, t1)
  end.
Proof.
  revert w. induction l1 as [| r l1 IH]; intros w; cbn.
  - destruct (mark_all l2 w) as [[r w2] t2]. reflexivity.
  - unfold bind.
    destruct (mark r w) as [[[u | e] w1] t1]; [| reflexivity].
    rewrite IH.
    destruct (mark_all l1 w1) as [[[u1 | e1] w2] t2]; [| reflexivity].
    destruct (mark_all l2 w2) as [[r3 w3] t3].
    rewrite app_assoc. reflexivity.
Qed.

(** Marking emits nothing but calls on the runs it is given. *)
Lemma mark_each_calls (l : list FlowRun) (w w' : Env) (r : outcome unit)
      (t : list Event) :
  mark_all l w = (r, w', t) ->
  outline t = [] /\ incl (set_state_calls t) (ids l).
Proof.
  revert w w' r t. induction l as [| run l IH]; intros w w' r t; cbn.
  - unfold ret. intros [= <- <- <-]. split; [reflexivity | apply incl_nil_l].
  - unfold bind.
    assert (Hm : exists r1 w1, mark run w = (r1, w1, [])
                 \/ mark run w = (r1, w1, [fail_call (id run)])).
    { destruct (pause_timeout (state_details (state run))) as [d |] eqn:Hd.
      - destruct (Z.ltb_spec d (clock (ticks w))) as [Hlt | Hge].
        + rewrite (mark_due run w d Hd Hlt).
          destruct (set_flow_run_state _ _ _ _) as [[u | e] s'];
            eexists; eexists; right; reflexivity.
        + rewrite (mark_not_due run w d Hd Hge).
          eexists; eexists; left; reflexivity.
      - rewrite (mark_no_deadline run w Hd).
        eexists; eexists; left; reflexivity. }
    destruct Hm as (r1 & w1 & [Hm | Hm]); rewrite Hm.
    + destruct r1 as [u | e].
      * destruct (mark_all l w1) as [[r2 w2] t2] eqn:Hl.
        intros [= <- <- <-]. destruct (IH _ _ _ _ Hl) as [Ho Hi].
        split; [exact Ho | ]. cbn. apply incl_tl. exact Hi.
      * intros [= <- <- <-]. split; [reflexivity | apply incl_nil_l].
    + destruct r1 as [u | e].
      * destruct (mark_all l w1) as [[r2 w2] t2] eqn:Hl.
        intros [= <- <- <-]. destruct (IH _ _ _ _ Hl) as [Ho Hi].
        split; [exact Ho | ]. cbn.
        apply incl_cons; [left; reflexivity | apply incl_tl; exact Hi].
      * intros [= <- <- <-]. split; [reflexivity | ].
        cbn. apply incl_cons; [left; reflexivity | apply incl_nil_l].
Qed.

(** Runs whose deadline lies ahead are passed over: nothing is called,
    nothing is written, only the clock is read. *)
Lemma mark_each_waiting (l : list FlowRun) (w : Env) :
  Forall (waiting clock) l ->
  mark_all l w =
  (Ok tt, {| store := store w; ticks := List.length l + ticks w |}, []).
Proof.
  intros H. revert w. induction H as [| run l (d & Hd & Hle) _ IH]; intros w.
  - destruct w; reflexivity.
  - cbn. unfold bind. rewrite (mark_not_due run w d Hd (Hle _)).
    rewrite IH. cbn. rewrite Nat.add_succ_r. reflexivity.
Qed.

Local Notation "'one_batch'" := (batch clock set_flow_run_state batch_size).
Local Notation "'loop'" := (batch_loop clock set_flow_run_state batch_size).
Local Notation "'pass'" := (run_once clock set_flow_run_state batch_size).
Local Notation "'selected'" := (select_paused batch_size).

(** One turn of the loop, in terms of what marking the selected runs does. *)
Lemma batch_eq (w : Env) :
  one_batch w =
  match mark_all (selected (store w)) w with
  | (Ok _, w1, t) =>
      (Ok (Nat.ltb (List.length (selected (store w))) batch_size), w1,
       committed (ids (selected (store w))) t)
  | (Raised e, w1, t) =>
      (Raised e, {| store := store w; ticks := ticks w1 |},
       EvBegin :: EvSelect (ids (selected (store w))) :: t ++ [EvRollback])
  end.
Proof.
  unfold batch, session_context, execute_query, bind, get_store, emit, ret.
  cbn.
  destruct (mark_all (selected (store w)) w) as [[[u | e] w1] t]; cbn.
  - rewrite !app_nil_r. reflexivity.
  - reflexivity.
Qed.

(** A pass raises as soon as a batch does. *)
Lemma run_once_raises (fuel : nat) (w w1 : Env) (e : exn) (t : list Event) :
  one_batch w = (Raised e, w1, t) ->
  pass (S fuel) w = (Raises e, w1, t).
Proof.
  intros H. unfold run_once. cbn. rewrite H. reflexivity.
Qed.

(** More turns do not change a pass that has returned or raised. *)
Lemma batch_loop_more (fuel extra : nat) (w w' : Env) (st : status)
      (t : list Event) :
  loop fuel w = (st, w', t) -> st <> Running ->
  loop (fuel + extra) w = (st, w', t).
Proof.
  revert w w' st t. induction fuel as [| fuel IH]; intros w w' st t; cbn.
  - intros [= <- <- <-] H. congruence.
  - destruct (one_batch w) as [[[[|] | e] w1] t1]; try (intros; assumption).
    destruct (loop fuel w1) as [[r w2] t2] eqn:Hl.
    intros [= <- <- <-] Hr. rewrite (IH _ _ _ _ Hl Hr). reflexivity.
Qed.

(** *** A full batch of runs that are not due *)

(** When the query returns a full batch of runs whose deadlines all lie
    ahead, the turn changes nothing and the loop goes round again. *)
Lemma batch_of_waiting (w : Env) :
  List.length (selected (store w)) = batch_size ->
  Forall (waiting clock) (selected (store w)) ->
  one_batch w =
  (Ok false, {| store := store w; ticks := batch_size + ticks w |},
   committed (ids (selected (store w))) []).
Proof.
  intros Hlen Hw. rewrite batch_eq, (mark_each_waiting _ w Hw), Hlen.
  rewrite Nat.ltb_irrefl. reflexivity.
Qed.

Lemma batch_loop_of_waiting (fuel : nat) (w : Env) :
  List.length (selected (store w)) = batch_size ->
  Forall (waiting clock) (selected (store w)) ->
  loop fuel w =
  (Running, {| store := store w; ticks := fuel * batch_size + ticks w |},
   List.concat (repeat (committed (ids (selected (store w))) []) fuel)).
Proof.
  intros Hlen Hw. revert w Hlen Hw.
  induction fuel as [| fuel IH]; intros w Hlen Hw.
  - destruct w; reflexivity.
  - cbn [batch_loop]. rewrite (batch_of_waiting w Hlen Hw).
    rewrite IH; cbn [store]; [| assumption | assumption].
    cbn [ticks repeat List.concat]. do 2 f_equal. f_equal. lia.
Qed.

(** *** A candidate that raises *)

Lemma batch_raises (w w1 w2 : Env) (pre post : list FlowRun) (run : FlowRun)
      (t1 t2 : list Event) (e : exn) :
  selected (store w) = pre ++ run :: post ->
  mark_all pre w = (Ok tt, w1, t1) ->
  mark run w1 = (Raised e, w2, t2) ->
  one_batch w =
  (Raised e, {| store := store w; ticks := ticks w2 |},
   EvBegin :: EvSelect (ids (pre ++ run :: post)) :: (t1 ++ t2) ++ [EvRollback]).
Proof.
  intros Hsel Hpre Hrun. rewrite batch_eq, Hsel, mark_each_app, Hpre.
  cbn [mark_each]. unfold bind. rewrite Hrun. reflexivity.
Qed.

(** Marking a list with a run that has no deadline raises, whatever comes
    before that run. *)
Lemma mark_each_no_deadline (pre post : list FlowRun) (run : FlowRun) (w : Env) :
  pause_timeout (state_details (state run)) = None ->
  exists e w' t, mark_all (pre ++ run :: post) w = (Raised e, w', t).
Proof.
  intros Hd. rewrite mark_each_app.
  destruct (mark_all pre w) as [[[u | e] w1] t1].
  - cbn [mark_each]. unfold bind. rewrite (mark_no_deadline run w1 Hd).
    eauto.
  - eauto.
Qed.

(** *** A pass from one of its later batches *)

(** A loop that is still going round after [n] turns goes on from where it
    stands: the turns that follow are those of a loop started there, and
    their events come after the events so far. *)
Lemma batch_loop_resumes (n m : nat) (w wk : Env) (t : list Event) :
  loop n w = (Running, wk, t) ->
  loop (n + m) w
  = match loop m wk with
    | (st, w', t') => (st, w', t ++ t')
    end.
Proof.
  revert w wk t. induction n as [| n IH]; intros w wk t; cbn [batch_loop].
  - intros [= <- <-]. cbn. destruct (loop m w) as [[st w'] t']. reflexivity.
  - cbn [Nat.add batch_loop].
    destruct (one_batch w) as [[[[|] | e] w1] t1]; try discriminate.
    destruct (loop n w1) as [[st2 w2] t2] eqn:Hl.
    intros [= -> -> <-]. rewrite (IH _ _ _ Hl).
    destruct (loop m wk) as [[st w'] t']. rewrite app_assoc. reflexivity.
Qed.

(** The loop writes no log record: the one record of a pass is written
    after the loop is left. *)
Lemma calls_are_no_log (t : list Event) (l : Level) (m : string) :
  outline t = [] -> ~ In (EvLog l m) t.
Proof.
  unfold outline. intros H Hin.
  assert (Hf : In (EvLog l m) (filter (fun ev => negb (is_set_state ev)) t))
    by (apply filter_In; split; [exact Hin | reflexivity]).
  rewrite H in Hf. exact Hf.
Qed.

Lemma batch_logs_nothing (w : Env) (l : Level) (m : string) :
  ~ In (EvLog l m) (snd (one_batch w)).
Proof.
  rewrite batch_eq.
  destruct (mark_all (selected (store w)) w) as [[[u | e] w1] t] eqn:Hm;
    destruct (mark_each_calls _ _ _ _ _ Hm) as [Ho _];
    pose proof (calls_are_no_log t l m Ho) as Hno;
    cbn [snd committed]; intros [H | [H | H]]; try discriminate H;
    apply in_app_or in H; destruct H as [H | [H | []]];
    try discriminate H; contradiction.
Qed.

Lemma batch_loop_logs_nothing (fuel : nat) (w : Env) (l : Level)
      (m : string) :
  ~ In (EvLog l m) (snd (loop fuel w)).
Proof.
  revert w. induction fuel as [| fuel IH]; intros w; cbn [batch_loop].
  - intros [].
  - pose proof (batch_logs_nothing w l m) as Hb.
    destruct (one_batch w) as [[[[|] | e] w1] t1]; cbn [snd] in Hb |- *;
      try exact Hb.
    specialize (IH w1). destruct (loop fuel w1) as [[st w2] t2].
    cbn [snd] in IH |- *. intros H. apply in_app_or in H.
    destruct H as [H | H]; contradiction.
Qed.

End MarkFacts.

(** ** The state machine under the service *)

Section StateMachineFacts.

Variable rule : StateType -> StateType -> bool.
Variable ts : Z.

Local Notation "'set_flow_run_state'" := (state_machine.set_state rule ts).

Lemma ids_write_run_state (s : Store) (i : nat) (st : State) :
  ids (write_run_state s i st ts) = ids s.
Proof.
  unfold ids, write_run_state. rewrite map_map. apply map_ext.
  intros r. destruct (Nat.eqb (id r) i); reflexivity.
Qed.

Lemma write_run_state_absent (s : Store) (i : nat) (st : State) :
  ~ In i (ids s) -> write_run_state s i st ts = s.
Proof.
  induction s as [| r s IH]; cbn; intros H; [reflexivity |].
  destruct (Nat.eqb_spec (id r) i) as [E | _].
  - exfalso. apply H. left. exact E.
  - f_equal. apply IH. intros Hin. apply H. right. exact Hin.
Qed.

Lemma read_run_absent (s : Store) (i : nat) :
  ~ In i (ids s) -> read_run s i = None.
Proof.
  induction s as [| r s IH]; cbn; intros H; [reflexivity |].
  destruct (Nat.eqb_spec (id r) i) as [E | _].
  - exfalso. apply H. left. exact E.
  - apply IH. intros Hin. apply H. right. exact Hin.
Qed.

(** A call never adds or removes a row and only touches the row it names. *)
Lemma set_state_frame (s s' : Store) (i : nat) (st : State) (force : bool)
      (res : outcome unit) :
  set_flow_run_state s i st force = (res, s') ->
  ids s' = ids s /\ forall r, In r s -> id r <> i -> In r s'.
Proof.
  unfold state_machine.set_state.
  assert (Hw : forall r, In r s -> id r <> i ->
                         In r (write_run_state s i st ts)).
  { intros r Hin Hne. unfold write_run_state. apply in_map_iff.
    exists r. split; [| exact Hin].
    destruct (Nat.eqb_spec (id r) i); [contradiction | reflexivity]. }
  destruct (read_run s i) as [r0 |].
  - destruct (StateType_eqb (state_type r0) (type st)).
    + intros [= <- <-]. auto.
    + destruct (is_terminal (state_type r0)).
      * intros [= <- <-]. auto.
      * destruct (force || rule (state_type r0) (type st)).
        -- intros [= <- <-]. split; [apply ids_write_run_state | exact Hw].
        -- intros [= <- <-]. auto.
  - intros [= <- <-]. auto.
Qed.

(** A forced call on a Paused run writes the proposed state, whatever the
    rule table says. *)
Lemma set_state_forced_on_paused (s : Store) (r : FlowRun) (st : State) :
  read_run s (id r) = Some r ->
  is_paused r = true ->
  type st = FAILED ->
  set_flow_run_state s (id r) st true
  = (Ok tt, write_run_state s (id r) st ts).
Proof.
  intros Hread Hp Ht. unfold state_machine.set_state. rewrite Hread.
  unfold is_paused in Hp. rewrite Ht.
  destruct (state_type r); try discriminate Hp. reflexivity.
Qed.

(** *** Failing the first Paused rows of the table *)

Local Notation "'fail'" := (fail_first ts).

Lemma fail_first_nil (n : nat) : fail n [] = [].
Proof. destruct n; reflexivity. Qed.

Lemma fail_first_0 (s : Store) : fail 0 s = s.
Proof. destruct s; reflexivity. Qed.

Lemma ids_fail_first (n : nat) (s : Store) : ids (fail n s) = ids s.
Proof.
  revert n. induction s as [| r s IH]; intros n.
  - rewrite fail_first_nil. reflexivity.
  - destruct n as [| n]; [reflexivity |]. cbn.
    destruct (is_paused r); cbn; f_equal; apply IH.
Qed.

Lemma paused_fail_first (n : nat) (s : Store) :
  filter is_paused (fail n s) = skipn n (filter is_paused s).
Proof.
  revert n. induction s as [| r s IH]; intros n.
  - rewrite fail_first_nil. cbn. rewrite skipn_nil. reflexivity.
  - destruct n as [| n]; [reflexivity |]. cbn.
    destruct (is_paused r) eqn:Hp; cbn.
    + apply IH.
    + rewrite Hp. apply IH.
Qed.

Lemma fail_first_add (a b : nat) (s : Store) :
  fail a (fail b s) = fail (a + b) s.
Proof.
  revert a b. induction s as [| r s IH]; intros a b.
  - rewrite !fail_first_nil. reflexivity.
  - destruct b as [| b]; [rewrite Nat.add_0_r; reflexivity |].
    destruct a as [| a]; [apply fail_first_0 |].
    replace (S a + S b) with (S (S a + b)) by lia.
    cbn [fail_first]. destruct (is_paused r) eqn:Hp.
    + cbn [fail_first is_paused failed_row state_type state type Failed
           StateType_eqb].
      f_equal. apply (IH (S a) b).
    + cbn [fail_first]. rewrite Hp. f_equal.
      rewrite (IH (S a) (S b)). f_equal. lia.
Qed.

(** With every Paused row failed, none is left, and the other rows are as
    they were. *)
Lemma fail_first_all (n : nat) (s : Store) :
  List.length (filter is_paused s) <= n ->
  fail n s = map (fun r => if is_paused r then failed_row ts r else r) s.
Proof.
  revert n. induction s as [| r s IH]; intros n H.
  - rewrite fail_first_nil. reflexivity.
  - cbn in H. destruct (is_paused r) eqn:Hp.
    + destruct n as [| n]; [cbn in H; lia |]. cbn. rewrite Hp. f_equal.
      apply IH. cbn in H. lia.
    + destruct n as [| n].
      * cbn. rewrite Hp. f_equal.
        assert (Hn : filter is_paused s = []) by
          (destruct (filter is_paused s); [reflexivity | cbn in H; lia]).
        clear IH H. induction s as [| x s IHs]; [reflexivity |].
        cbn in Hn. destruct (is_paused x) eqn:Hx; [discriminate |].
        cbn. rewrite Hx. f_equal. apply IHs. exact Hn.
      * cbn. rewrite Hp. f_equal. apply IH. exact H.
Qed.

Lemma in_paused (s : Store) (k : nat) (r : FlowRun) :
  nth_error (filter is_paused s) k = Some r ->
  In r s /\ is_paused r = true.
Proof.
  intros H. apply nth_error_In in H. apply filter_In in H. exact H.
Qed.

Lemma id_apart (x r : FlowRun) (s : Store) :
  ~ In (id x) (ids s) -> In r s -> Nat.eqb (id x) (id r) = false.
Proof.
  intros Hx Hr. apply Nat.eqb_neq. intros E. apply Hx. rewrite E.
  apply in_map. exact Hr.
Qed.

(** The [k]-th Paused row is still as it was when the [k] before it have
    been failed ... *)
Lemma read_run_fail_first (s : Store) (k : nat) (r : FlowRun) :
  NoDup (ids s) ->
  nth_error (filter is_paused s) k = Some r ->
  read_run (fail k s) (id r) = Some r.
Proof.
  revert k. induction s as [| x s IH]; intros k Hnd Hk.
  - destruct k; discriminate Hk.
  - cbn in Hnd. apply NoDup_cons_iff in Hnd. destruct Hnd as [Hx Hnd].
    cbn [filter] in Hk. destruct (is_paused x) eqn:Hp.
    + destruct k as [| k]; cbn in Hk.
      * injection Hk as <-. cbn. rewrite Nat.eqb_refl. reflexivity.
      * cbn [fail_first]. rewrite Hp. unfold read_run. cbn [find failed_row id].
        rewrite (id_apart x r s Hx (proj1 (in_paused s k r Hk))).
        apply IH; assumption.
    + assert (E : fail k (x :: s) = x :: fail k s).
      { destruct k; [rewrite !fail_first_0; reflexivity |].
        cbn [fail_first]. rewrite Hp. reflexivity. }
      rewrite E. unfold read_run. cbn [find].
      rewrite (id_apart x r s Hx (proj1 (in_paused s k r Hk))).
      apply IH; assumption.
Qed.

(** ... and writing the Failed state to it fails one row more. *)
Lemma write_run_state_fail_first (s : Store) (k : nat) (r : FlowRun) :
  NoDup (ids s) ->
  nth_error (filter is_paused s) k = Some r ->
  write_run_state (fail k s) (id r) (Failed never_resumed) ts
  = fail (S k) s.
Proof.
  revert k. induction s as [| x s IH]; intros k Hnd Hk.
  - destruct k; discriminate Hk.
  - cbn in Hnd. apply NoDup_cons_iff in Hnd. destruct Hnd as [Hx Hnd].
    cbn [filter] in Hk. destruct (is_paused x) eqn:Hp.
    + destruct k as [| k]; cbn in Hk.
      * injection Hk as <-. cbn [fail_first]. rewrite Hp, fail_first_0.
        cbn [write_run_state map]. rewrite Nat.eqb_refl.
        unfold failed_row. f_equal.
        apply (write_run_state_absent s (id x) _ Hx).
      * cbn [fail_first]. rewrite Hp.
        cbn [write_run_state map failed_row id].
        rewrite (id_apart x r s Hx (proj1 (in_paused s k r Hk))).
        f_equal. apply IH; assumption.
    + assert (E : fail k (x :: s) = x :: fail k s).
      { destruct k; [rewrite !fail_first_0; reflexivity |].
        cbn [fail_first]. rewrite Hp. reflexivity. }
      rewrite E. cbn [fail_first]. rewrite Hp.
      cbn [write_run_state map].
      rewrite (id_apart x r s Hx (proj1 (in_paused s k r Hk))).
      f_equal. apply IH; assumption.
Qed.

Lemma set_state_fail_first (s : Store) (k : nat) (r : FlowRun) :
  NoDup (ids s) ->
  nth_error (filter is_paused s) k = Some r ->
  set_flow_run_state (fail k s) (id r) (Failed never_resumed) true
  = (Ok tt, fail (S k) s).
Proof.
  intros Hnd Hk.
  rewrite (set_state_forced_on_paused (fail k s) r (Failed never_resumed)
             (read_run_fail_first s k r Hnd Hk)
             (proj2 (in_paused s k r Hk)) eq_refl).
  rewrite (write_run_state_fail_first s k r Hnd Hk). reflexivity.
Qed.

End StateMachineFacts.

(** ** Draining a table of runs that are all due *)

Section DrainFacts.

Variable rule : StateType -> StateType -> bool.
Variable ts : Z.
Variable clock : nat -> Z.
Variable batch_size : nat.

Local Notation "'set_flow_run_state'" := (state_machine.set_state rule ts).
Local Notation "'mark_all'" := (mark_each clock set_flow_run_state).
Local Notation "'one_batch'" := (batch clock set_flow_run_state batch_size).
Local Notation "'loop'" := (batch_loop clock set_flow_run_state batch_size).
Local Notation "'fail'" := (fail_first ts).
Local Notation "'paused'" := (filter is_paused).

Lemma mark_each_expired (s : Store) (l : list FlowRun) (k tk : nat) :
  NoDup (ids s) ->
  (forall j r, nth_error l j = Some r -> nth_error (paused s) (k + j) = Some r) ->
  Forall (expired clock) l ->
  mark_all l {| store := fail k s; ticks := tk |}
  = (Ok tt, {| store := fail (List.length l + k) s;
               ticks := List.length l + tk |},
     map fail_call (ids l)).
Proof.
  intros Hnd. revert k tk.
  induction l as [| r l IH]; intros k tk Hnth Hex; [reflexivity |].
  apply Forall_cons_iff in Hex. destruct Hex as [(d & Hd & Hlt) Hex].
  assert (Hr : nth_error (paused s) k = Some r).
  { specialize (Hnth 0 r eq_refl). rewrite Nat.add_0_r in Hnth. exact Hnth. }
  cbn [mark_each]. unfold bind.
  rewrite (mark_due clock set_flow_run_state r _ d Hd (Hlt _)).
  cbn [store ticks]. rewrite (set_state_fail_first rule ts s k r Hnd Hr).
  rewrite (IH (S k) (S tk)); [| | exact Hex].
  - cbn [List.length ids map app]. rewrite !Nat.add_succ_r. reflexivity.
  - intros j r' Hj. rewrite <- (Hnth (S j) r' Hj). f_equal. lia.
Qed.

(** One turn on a table whose Paused rows are all due: the selected rows
    are failed, each by one forced call, and the turn commits. *)
Lemma batch_of_expired (s : Store) (tk : nat) :
  NoDup (ids s) ->
  Forall (expired clock) (paused s) ->
  let sel := firstn batch_size (paused s) in
  one_batch {| store := s; ticks := tk |}
  = (Ok (Nat.ltb (List.length sel) batch_size),
     {| store := fail (List.length sel) s; ticks := List.length sel + tk |},
     committed (ids sel) (map fail_call (ids sel))).
Proof.
  intros Hnd Hex sel. rewrite batch_eq. cbn [store].
  unfold select_paused. fold sel.
  assert (H : mark_all sel {| store := s; ticks := tk |}
              = (Ok tt, {| store := fail (List.length sel) s;
                           ticks := List.length sel + tk |},
                 map fail_call (ids sel))).
  { rewrite <- (fail_first_0 ts s) at 1.
    rewrite (mark_each_expired s sel 0 tk Hnd).
    - rewrite Nat.add_0_r. reflexivity.
    - intros j r Hj. apply (nth_error_firstn_some batch_size). exact Hj.
    - apply Forall_forall. intros r Hr. rewrite Forall_forall in Hex.
      apply Hex. apply (in_firstn _ _ _ Hr). }
  rewrite H. reflexivity.
Qed.

Lemma batch_loop_continues (fuel : nat) (w w1 : Env) (t1 : list Event) :
  one_batch w = (Ok false, w1, t1) ->
  loop (S fuel) w =
  match loop fuel w1 with (r, w2, t2) => (r, w2, t1 ++ t2) end.
Proof. intros H. cbn [batch_loop]. rewrite H. reflexivity. Qed.

(** [q] full batches and a shorter one drain the table. *)
Lemma batch_loop_drains (q m : nat) (s : Store) (tk : nat) :
  NoDup (ids s) ->
  Forall (expired clock) (paused s) ->
  List.length (paused s) = q * batch_size + m ->
  m < batch_size ->
  loop (S q) {| store := s; ticks := tk |}
  = (Returned,
     {| store := fail (List.length (paused s)) s;
        ticks := List.length (paused s) + tk |},
     drain_events batch_size q (ids (paused s)))
  /\ fst (fst (loop q {| store := s; ticks := tk |})) = Running.
Proof.
  revert s tk. induction q as [| q IH]; intros s tk Hnd Hex Hlen Hm.
  - split; [| reflexivity]. cbn [batch_loop].
    rewrite (batch_of_expired s tk Hnd Hex). cbn zeta.
    cbn in Hlen. rewrite firstn_all2 by lia.
    replace (Nat.ltb _ _) with true by (symmetry; apply Nat.ltb_lt; lia).
    reflexivity.
  - assert (Hsel : List.length (firstn batch_size (paused s)) = batch_size).
    { rewrite length_firstn. cbn in Hlen. lia. }
    assert (Hstep : one_batch {| store := s; ticks := tk |}
              = (Ok false,
                 {| store := fail batch_size s; ticks := batch_size + tk |},
                 committed (ids (firstn batch_size (paused s)))
                   (map fail_call (ids (firstn batch_size (paused s)))))).
    { rewrite (batch_of_expired s tk Hnd Hex). cbn zeta. rewrite Hsel.
      rewrite Nat.ltb_irrefl. reflexivity. }
    destruct (IH (fail batch_size s) (batch_size + tk)) as [IH1 IH2].
    + rewrite ids_fail_first. exact Hnd.
    + rewrite paused_fail_first. apply Forall_forall. intros r Hr.
      rewrite Forall_forall in Hex. apply Hex.
      apply (in_skipn _ _ _ Hr).
    + rewrite paused_fail_first, length_skipn. cbn in Hlen. lia.
    + exact Hm.
    + split.
      * rewrite (batch_loop_continues _ _ _ _ Hstep), IH1.
        rewrite paused_fail_first, length_skipn, fail_first_add.
        cbn [drain_events]. unfold ids.
        rewrite !firstn_map, !skipn_map.
        cbn in Hlen.
        replace (List.length (paused s) - batch_size + batch_size)
          with (List.length (paused s)) by lia.
        replace (List.length (paused s) - batch_size + (batch_size + tk))
          with (List.length (paused s) + tk) by lia.
        reflexivity.
      * rewrite (batch_loop_continues _ _ _ _ Hstep).
        destruct (loop q _) as [[r w2] t2]. exact IH2.
Qed.

End DrainFacts.

(** ** Tables of Paused runs *)

Lemma ids_paused_runs (first n : nat) (t : Z) :
  ids (paused_runs first n t) = seq first n.
Proof.
  unfold ids, paused_runs. rewrite map_map. cbn. apply map_id.
Qed.

Lemma paused_paused_runs (first n : nat) (t : Z) :
  filter is_paused (paused_runs first n t) = paused_runs first n t.
Proof.
  unfold paused_runs. induction (seq first n) as [| i l IH]; cbn;
    [reflexivity | f_equal; exact IH].
Qed.

Lemma paused_runs_waiting (clock : nat -> Z) (first n : nat) (t : Z) :
  (forall k, (clock k <= t)%Z) ->
  Forall (waiting clock) (paused_runs first n t).
Proof.
  intros H. apply Forall_forall. intros r Hr. unfold paused_runs in Hr.
  apply in_map_iff in Hr. destruct Hr as (i & <- & _).
  exists t. split; [reflexivity | exact H].
Qed.

Lemma paused_runs_expired (clock : nat -> Z) (first n : nat) (t : Z) :
  (forall k, (t < clock k)%Z) ->
  Forall (expired clock) (paused_runs first n t).
Proof.
  intros H. apply Forall_forall. intros r Hr. unfold paused_runs in Hr.
  apply in_map_iff in Hr. destruct Hr as (i & <- & _).
  exists t. split; [reflexivity | exact H].
Qed.

Lemma no_calls_in_idle_batches (l : list nat) (n : nat) :
  set_state_calls (List.concat (repeat (committed l []) n)) = [].
Proof.
  induction n as [| n IH]; [reflexivity | exact IH].
Qed.

Lemma selections_of_idle_batches (l : list nat) (n : nat) :
  selections (List.concat (repeat (committed l []) n)) = repeat l n.
Proof.
  induction n as [| n IH]; [reflexivity | cbn; f_equal; exact IH].
Qed.

(** A pass whose query returns a full batch of runs that are not due goes
    round for ever: every turn selects the same runs and changes nothing. *)
Lemma run_once_spins (clock : nat -> Z)
      (set_flow_run_state : Store -> nat -> State -> bool -> outcome unit * Store)
      (batch_size fuel : nat) (w : Env) :
  List.length (select_paused batch_size (store w)) = batch_size ->
  Forall (waiting clock) (select_paused batch_size (store w)) ->
  run_once clock set_flow_run_state batch_size fuel w =
  (Running, {| store := store w; ticks := fuel * batch_size + ticks w |},
   List.concat
     (repeat (committed (ids (select_paused batch_size (store w))) []) fuel)).
Proof.
  intros Hlen Hw. unfold run_once.
  rewrite (batch_loop_of_waiting clock set_flow_run_state batch_size fuel w
             Hlen Hw).
  reflexivity.
Qed.

(** ** The pass on tables it does not drain *)

(** C3.  A pass does not always terminate.  On a table of 200 Paused runs
    whose deadlines all lie ahead, with the batch size of 200 that the
    service sets, every turn of the loop fetches a full batch, fails
    nothing, and fetches the same 200 runs again: however many turns are
    followed, the pass is still running, the table is as it was, and each
    query has returned the very same runs. *)
Theorem run_once_spins_on_a_full_batch_of_waiting_runs :
  forall fuel : nat,
    run_once (standing_at 0) (state_machine.set_state (fun _ _ => true) 0)
             default_batch_size fuel (at_start (paused_runs 0 200 3600))
    = (Running,
       {| store := paused_runs 0 200 3600; ticks := fuel * 200 + 0 |},
       List.concat (repeat (committed (seq 0 200) []) fuel))
    /\ selections (List.concat (repeat (committed (seq 0 200) []) fuel))
       = repeat (seq 0 200) fuel.
Proof.
  intros fuel. split; [| apply selections_of_idle_batches].
  assert (Hsel : select_paused default_batch_size (paused_runs 0 200 3600)
                 = paused_runs 0 200 3600).
  { unfold select_paused. rewrite paused_paused_runs.
    apply firstn_all2. unfold paused_runs.
    rewrite length_map, length_seq. apply Nat.le_refl. }
  rewrite run_once_spins; unfold at_start; cbn [store ticks]; rewrite Hsel.
  - rewrite ids_paused_runs. reflexivity.
  - unfold paused_runs. rewrite length_map, length_seq. reflexivity.
  - apply paused_runs_waiting. intros k. unfold standing_at. lia.
Qed.

(** ** Draining 450 runs *)

(** C2.  Given 450 Paused runs whose deadlines have all passed (among any
    other runs) and the batch size of 200, one pass returns, with every
    one of the 450 runs failed by one forced call.  It fetches exactly three
    batches, of 200, 200 and 50 runs, each between the opening and the
    commit of a transaction of its own, and these batches are the 450 runs
    in table order.  After the two full batches the loop is still running;
    it is left after the third, the first that is shorter than the batch
    size.  The state machine is the one the specification describes, with
    any rule table. *)
Theorem run_once_drains_450_in_three_batches :
  forall (rule : StateType -> StateType -> bool) (ts : Z) (clock : nat -> Z)
         (s : Store) (tk fuel : nat),
    NoDup (ids s) ->
    List.length (filter is_paused s) = 450 ->
    Forall (expired clock) (filter is_paused s) ->
    3 <= fuel ->
    exists b1 b2 b3 : list nat,
      run_once clock (state_machine.set_state rule ts) default_batch_size fuel
               {| store := s; ticks := tk |}
      = (Returned,
         {| store := map (fun r => if is_paused r then failed_row ts r else r) s;
            ticks := 450 + tk |},
         committed b1 (map fail_call b1)
         ++ committed b2 (map fail_call b2)
         ++ committed b3 (map fail_call b3)
         ++ [EvLog INFO finished_monitoring])
      /\ List.length b1 = 200 /\ List.length b2 = 200 /\ List.length b3 = 50
      /\ Nat.ltb (List.length b3) default_batch_size = true
      /\ b1 ++ b2 ++ b3 = ids (filter is_paused s)
      /\ fst (fst (batch_loop clock (state_machine.set_state rule ts)
                              default_batch_size 2
                              {| store := s; ticks := tk |})) = Running.
Proof.
  intros rule ts clock s tk fuel Hnd Hlen Hex Hfuel.
  destruct (batch_loop_drains rule ts clock default_batch_size 2 50 s tk
              Hnd Hex) as [Hloop Hrun].
  { rewrite Hlen. reflexivity. }
  { unfold default_batch_size. lia. }
  set (I := ids (filter is_paused s)) in *.
  assert (HI : List.length I = 450).
  { unfold I, ids. rewrite length_map. exact Hlen. }
  exists (firstn 200 I), (firstn 200 (skipn 200 I)), (skipn 200 (skipn 200 I)).
  split; [| repeat split].
  - replace fuel with (3 + (fuel - 3)) by lia.
    unfold run_once.
    rewrite (batch_loop_more _ _ _ 3 (fuel - 3) _ _ _ _ Hloop)
      by discriminate.
    rewrite Hlen, (fail_first_all ts 450 s) by lia.
    cbn [drain_events]. fold (default_batch_size).
    unfold default_batch_size. rewrite <- !app_assoc. reflexivity.
  - rewrite length_firstn, HI. reflexivity.
  - rewrite length_firstn, length_skipn, HI. reflexivity.
  - rewrite !length_skipn, HI. reflexivity.
  - rewrite !length_skipn, HI. reflexivity.
  - rewrite (firstn_skipn 200 (skipn 200 I)). apply firstn_skipn.
  - exact Hrun.
Qed.

(** The theorem at 450 runs with ids 0 to 449 whose deadline passed a
    second ago. *)
Lemma run_once_drains_450_in_three_batches_witness :
  let s := paused_runs 0 450 (-1) in
  NoDup (ids s)
  /\ List.length (filter is_paused s) = 450
  /\ Forall (expired (standing_at 0)) (filter is_paused s)
  /\ 3 <= 3
  /\ exists b1 b2 b3 : list nat,
      run_once (standing_at 0) (state_machine.set_state (fun _ _ => false) 7)
               default_batch_size 3 {| store := s; ticks := 0 |}
      = (Returned,
         {| store := map (fun r => if is_paused r then failed_row 7 r else r) s;
            ticks := 450 + 0 |},
         committed b1 (map fail_call b1)
         ++ committed b2 (map fail_call b2)
         ++ committed b3 (map fail_call b3)
         ++ [EvLog INFO finished_monitoring])
      /\ List.length b1 = 200 /\ List.length b2 = 200 /\ List.length b3 = 50
      /\ Nat.ltb (List.length b3) default_batch_size = true
      /\ b1 ++ b2 ++ b3 = ids (filter is_paused s)
      /\ fst (fst (batch_loop (standing_at 0)
                              (state_machine.set_state (fun _ _ => false) 7)
                              default_batch_size 2
                              {| store := s; ticks := 0 |})) = Running.
Proof.
  intros s.
  assert (H1 : NoDup (ids s)).
  { unfold s. rewrite ids_paused_runs. apply seq_NoDup. }
  assert (H2 : List.length (filter is_paused s) = 450).
  { unfold s. rewrite paused_paused_runs. unfold paused_runs.
    rewrite length_map, length_seq. reflexivity. }
  assert (H3 : Forall (expired (standing_at 0)) (filter is_paused s)).
  { unfold s. rewrite paused_paused_runs. apply paused_runs_expired.
    intros k. unfold standing_at. lia. }
  assert (H4 : 3 <= 3) by lia.
  split; [exact H1 |]. split; [exact H2 |]. split; [exact H3 |].
  split; [exact H4 |].
  exact (run_once_drains_450_in_three_batches
           (fun _ _ => false) 7 (standing_at 0) s 0 3 H1 H2 H3 H4).
Defined.

(** ** A candidate that raises *)

(** C4, as it is stated, fails.  Five Paused runs, ids 1 to 5, are
    all due, and the call of [set_flow_run_state] on run 2 raises
    [InvalidTransition].  The pass raises that error: runs 1 and 2 are the
    only ones the state machine is called on, the transaction is rolled back
    (so that run 1 is Paused again), nothing is logged, and no number of
    turns makes the pass return. *)
Lemma a_raising_candidate_is_not_isolated :
  run_once (standing_at 0)
           (raising_on 2 InvalidTransition
              (state_machine.set_state (fun _ _ => false) 0))
           default_batch_size 1 (at_start (paused_runs 1 5 (-1)))
  = (Raises InvalidTransition,
     {| store := paused_runs 1 5 (-1); ticks := 2 |},
     [EvBegin; EvSelect [1; 2; 3; 4; 5]; fail_call 1; fail_call 2; EvRollback])
  /\ ~ (exists fuel w' ev,
          run_once (standing_at 0)
                   (raising_on 2 InvalidTransition
                      (state_machine.set_state (fun _ _ => false) 0))
                   default_batch_size fuel (at_start (paused_runs 1 5 (-1)))
          = (Returned, w', ev)).
Proof.
  split; [vm_compute; reflexivity |].
  intros (fuel & w' & ev & H). destruct fuel as [| fuel].
  - discriminate H.
  - rewrite (run_once_raises _ _ _ fuel _
               {| store := paused_runs 1 5 (-1); ticks := 2 |}
               InvalidTransition
               [EvBegin; EvSelect [1; 2; 3; 4; 5]; fail_call 1; fail_call 2;
                EvRollback]) in H.
    + discriminate H.
    + vm_compute. reflexivity.
Qed.

(** C4, amended.  When the call for one candidate of a batch raises, after
    the candidates before it went through, [run_once] does not catch the
    error: the pass raises it.  The batch may be any batch of the pass: the
    first, or the one the loop stands at after [n] full batches that were
    committed.  The events of the pass are those of the batches before and
    then those of this batch, which end with the roll-back of its
    transaction; these hold the calls for the candidates up to the one that
    raised and for no other run, and no commit; no batch is fetched after
    it; no log record is written in the whole pass; and the table is the
    one this batch started from.  This holds for any state machine, clock
    and batch size. *)
Theorem a_raising_candidate_aborts_the_pass :
  forall (clock : nat -> Z)
         (set_flow_run_state :
            Store -> nat -> State -> bool -> outcome unit * Store)
         (batch_size n fuel : nat) (w0 w w1 w2 : Env) (ev0 : list Event)
         (pre post : list FlowRun) (run : FlowRun)
         (t1 t2 : list Event) (e : exn),
    batch_loop clock set_flow_run_state batch_size n w0 = (Running, w, ev0) ->
    select_paused batch_size (store w) = pre ++ run :: post ->
    mark_each clock set_flow_run_state pre w = (Ok tt, w1, t1) ->
    _mark_flow_run_as_failed clock set_flow_run_state run w1
    = (Raised e, w2, t2) ->
    let ev := EvBegin :: EvSelect (ids (pre ++ run :: post))
                      :: (t1 ++ t2) ++ [EvRollback] in
    run_once clock set_flow_run_state batch_size (n + S fuel) w0
    = (Raises e, {| store := store w; ticks := ticks w2 |}, ev0 ++ ev)
    /\ outline ev = [EvBegin; EvSelect (ids (pre ++ run :: post)); EvRollback]
    /\ incl (set_state_calls ev) (ids (pre ++ [run]))
    /\ (forall l m, ~ In (EvLog l m) (ev0 ++ ev)).
Proof.
  intros clock sfrs bs n fuel w0 w w1 w2 ev0 pre post run t1 t2 e
         Hloop Hsel Hpre Hrun ev.
  assert (Hall : mark_each clock sfrs (pre ++ [run]) w
                 = (Raised e, w2, t1 ++ t2)).
  { rewrite mark_each_app, Hpre. cbn [mark_each]. unfold bind.
    rewrite Hrun. reflexivity. }
  destruct (mark_each_calls clock sfrs _ _ _ _ _ Hall) as [Ho Hi].
  assert (Hlater : batch_loop clock sfrs bs (n + S fuel) w0
                   = (Raises e, {| store := store w; ticks := ticks w2 |},
                      ev0 ++ ev)).
  { rewrite (batch_loop_resumes clock sfrs bs n (S fuel) w0 w ev0 Hloop).
    cbn [batch_loop].
    rewrite (batch_raises clock sfrs bs w w1 w2 pre post run t1 t2 e
               Hsel Hpre Hrun).
    reflexivity. }
  split; [| split; [| split]].
  - unfold run_once. rewrite Hlater. reflexivity.
  - apply outline_rolled_back. exact Ho.
  - unfold ev. rewrite calls_rolled_back. exact Hi.
  - intros l m.
    pose proof (batch_loop_logs_nothing clock sfrs bs (n + S fuel) w0 l m)
      as Hno.
    rewrite Hlater in Hno. exact Hno.
Qed.

(** The theorem at six due runs and batches of three, where the call on
    run 5 raises: the first batch (runs 1 to 3) is committed, and in the
    second run 4 is called on, the call on run 5 raises, run 6 is not
    looked at, and the roll-back undoes run 4. *)
Lemma a_raising_candidate_aborts_the_pass_witness :
  let clock := standing_at 0 in
  let sfrs := raising_on 5 InvalidTransition
                (state_machine.set_state (fun _ _ => false) 0) in
  let w0 := at_start (paused_runs 1 6 (-1)) in
  let w := snd (fst (batch_loop clock sfrs 3 1 w0)) in
  let ev0 := snd (batch_loop clock sfrs 3 1 w0) in
  let pre := [paused_run 4 (Some (-1)%Z)] in
  let run := paused_run 5 (Some (-1)%Z) in
  let post := [paused_run 6 (Some (-1)%Z)] in
  let w1 := snd (fst (mark_each clock sfrs pre w)) in
  let t1 := snd (mark_each clock sfrs pre w) in
  let w2 := snd (fst (_mark_flow_run_as_failed clock sfrs run w1)) in
  let t2 := snd (_mark_flow_run_as_failed clock sfrs run w1) in
  let ev := EvBegin :: EvSelect (ids (pre ++ run :: post))
                    :: (t1 ++ t2) ++ [EvRollback] in
  batch_loop clock sfrs 3 1 w0 = (Running, w, ev0)
  /\ select_paused 3 (store w) = pre ++ run :: post
  /\ mark_each clock sfrs pre w = (Ok tt, w1, t1)
  /\ _mark_flow_run_as_failed clock sfrs run w1
     = (Raised InvalidTransition, w2, t2)
  /\ run_once clock sfrs 3 (1 + 1) w0
     = (Raises InvalidTransition,
        {| store := store w; ticks := ticks w2 |}, ev0 ++ ev)
  /\ outline ev = [EvBegin; EvSelect (ids (pre ++ run :: post)); EvRollback]
  /\ incl (set_state_calls ev) (ids (pre ++ [run]))
  /\ (forall l m, ~ In (EvLog l m) (ev0 ++ ev)).
Proof.
  intros clock sfrs w0 w ev0 pre run post w1 t1 w2 t2 ev.
  assert (H0 : batch_loop clock sfrs 3 1 w0 = (Running, w, ev0))
    by (vm_compute; reflexivity).
  assert (H1 : select_paused 3 (store w) = pre ++ run :: post)
    by (vm_compute; reflexivity).
  assert (H2 : mark_each clock sfrs pre w = (Ok tt, w1, t1))
    by (vm_compute; reflexivity).
  assert (H3 : _mark_flow_run_as_failed clock sfrs run w1
               = (Raised InvalidTransition, w2, t2))
    by (vm_compute; reflexivity).
  split; [exact H0 |]. split; [exact H1 |]. split; [exact H2 |].
  split; [exact H3 |].
  exact (a_raising_candidate_aborts_the_pass
           clock sfrs 3 1 0 w0 w w1 w2 ev0 pre post run t1 t2
           InvalidTransition H0 H1 H2 H3).
Defined.

(** What the pass of the witness does. *)
Example a_raising_candidate_in_the_second_batch :
  run_once (standing_at 0)
           (raising_on 5 InvalidTransition
              (state_machine.set_state (fun _ _ => false) 0))
           3 2 (at_start (paused_runs 1 6 (-1)))
  = (Raises InvalidTransition,
     {| store := map (failed_row 0) (paused_runs 1 3 (-1))
                 ++ paused_runs 4 3 (-1);
        ticks := 5 |},
     [EvBegin; EvSelect [1; 2; 3]; fail_call 1; fail_call 2; fail_call 3;
      EvCommit;
      EvBegin; EvSelect [4; 5; 6]; fail_call 4; fail_call 5; EvRollback]).
Proof. vm_compute. reflexivity. Qed.

(** ** A Paused run without a deadline *)

(** C6.  When a query of the pass returns a Paused run whose
    [pause_timeout] is not set, that turn raises and so does [run_once]:
    nothing in it catches the error, the transaction is rolled back, nothing
    is committed or logged, and the candidates after that run are not
    looked at.  The query may be any query of the pass: the first, or the
    one the loop makes after [n] full batches that were committed; what
    these batches wrote stays written.  When the candidates before the run
    went through, the error is the [TypeError] of the comparison and the
    clock was read once for that run.  This holds for any state machine,
    clock and batch size. *)
Theorem a_run_without_deadline_aborts_the_pass :
  forall (clock : nat -> Z)
         (set_flow_run_state :
            Store -> nat -> State -> bool -> outcome unit * Store)
         (batch_size n fuel : nat) (w0 w : Env) (ev0 : list Event)
         (pre post : list FlowRun) (run : FlowRun),
    batch_loop clock set_flow_run_state batch_size n w0 = (Running, w, ev0) ->
    select_paused batch_size (store w) = pre ++ run :: post ->
    pause_timeout (state_details (state run)) = None ->
    (exists e w' ev,
        run_once clock set_flow_run_state batch_size (n + S fuel) w0
        = (Raises e, w', ev0 ++ ev)
        /\ store w' = store w
        /\ outline ev
           = [EvBegin; EvSelect (ids (pre ++ run :: post)); EvRollback]
        /\ incl (set_state_calls ev) (ids pre)
        /\ (forall l m, ~ In (EvLog l m) (ev0 ++ ev)))
    /\ (forall w1 t1,
          mark_each clock set_flow_run_state pre w = (Ok tt, w1, t1) ->
          run_once clock set_flow_run_state batch_size (n + S fuel) w0
          = (Raises TypeError,
             {| store := store w; ticks := S (ticks w1) |},
             ev0 ++ EvBegin :: EvSelect (ids (pre ++ run :: post))
                            :: t1 ++ [EvRollback])).
Proof.
  intros clock sfrs bs n fuel w0 w ev0 pre post run Hloop Hsel Hnone.
  assert (Hfrom : forall e w' ev,
             batch clock sfrs bs w = (Raised e, w', ev) ->
             run_once clock sfrs bs (n + S fuel) w0
             = (Raises e, w', ev0 ++ ev)).
  { intros e w' ev Hb. unfold run_once.
    rewrite (batch_loop_resumes clock sfrs bs n (S fuel) w0 w ev0 Hloop).
    cbn [batch_loop]. rewrite Hb. reflexivity. }
  assert (Hlog : forall e w' ev,
             run_once clock sfrs bs (n + S fuel) w0
             = (Raises e, w', ev0 ++ ev) ->
             forall l m, ~ In (EvLog l m) (ev0 ++ ev)).
  { intros e w' ev Hr l m.
    pose proof (batch_loop_logs_nothing clock sfrs bs (n + S fuel) w0 l m)
      as Hno.
    unfold run_once in Hr.
    destruct (batch_loop clock sfrs bs (n + S fuel) w0) as [[[| e0 |] w3] t3];
      try discriminate Hr.
    injection Hr as _ _ <-. exact Hno. }
  assert (Htype : forall w1 t1,
             mark_each clock sfrs pre w = (Ok tt, w1, t1) ->
             run_once clock sfrs bs (n + S fuel) w0
             = (Raises TypeError,
                {| store := store w; ticks := S (ticks w1) |},
                ev0 ++ EvBegin :: EvSelect (ids (pre ++ run :: post))
                               :: t1 ++ [EvRollback])).
  { intros w1 t1 Hpre. apply Hfrom.
    rewrite (batch_raises clock sfrs bs w w1 (tick w1) pre post run t1 []
               TypeError Hsel Hpre (mark_no_deadline clock sfrs run w1 Hnone)).
    rewrite app_nil_r. reflexivity. }
  split; [| exact Htype].
  destruct (mark_each clock sfrs pre w) as [[[[] | e] w1] t1] eqn:Hpre.
  - destruct (mark_each_calls clock sfrs _ _ _ _ _ Hpre) as [Ho Hi].
    exists TypeError. eexists. eexists.
    split; [apply (Htype w1 t1 eq_refl) |].
    split; [reflexivity |].
    split; [apply outline_rolled_back; exact Ho |].
    split; [rewrite calls_rolled_back; exact Hi |].
    apply (Hlog _ _ _ (Htype w1 t1 eq_refl)).
  - destruct (mark_each_calls clock sfrs _ _ _ _ _ Hpre) as [Ho Hi].
    assert (Hb : batch clock sfrs bs w
                 = (Raised e, {| store := store w; ticks := ticks w1 |},
                    EvBegin :: EvSelect (ids (pre ++ run :: post))
                            :: t1 ++ [EvRollback])).
    { rewrite batch_eq, Hsel, mark_each_app, Hpre. reflexivity. }
    exists e. eexists. eexists.
    split; [apply (Hfrom _ _ _ Hb) |].
    cbn [store]. split; [reflexivity |].
    split; [apply outline_rolled_back; exact Ho |].
    split; [rewrite calls_rolled_back; exact Hi |].
    apply (Hlog _ _ _ (Hfrom _ _ _ Hb)).
Qed.

(** The theorem at three Paused runs and batches of two, where runs 1 and 2
    are due and run 3 has no deadline: the first batch fails runs 1 and 2
    and is committed, the second holds run 3, and the comparison raises. *)
Lemma a_run_without_deadline_aborts_the_pass_witness :
  let clock := standing_at 0 in
  let sfrs := state_machine.set_state (fun _ _ => false) 0 in
  let w0 := at_start [paused_run 1 (Some (-1)%Z); paused_run 2 (Some (-1)%Z);
                      paused_run 3 None] in
  let w := snd (fst (batch_loop clock sfrs 2 1 w0)) in
  let ev0 := snd (batch_loop clock sfrs 2 1 w0) in
  let pre := @nil FlowRun in
  let run := paused_run 3 None in
  let post := @nil FlowRun in
  batch_loop clock sfrs 2 1 w0 = (Running, w, ev0)
  /\ select_paused 2 (store w) = pre ++ run :: post
  /\ pause_timeout (state_details (state run)) = None
  /\ (exists e w' ev,
        run_once clock sfrs 2 (1 + 1) w0 = (Raises e, w', ev0 ++ ev)
        /\ store w' = store w
        /\ outline ev
           = [EvBegin; EvSelect (ids (pre ++ run :: post)); EvRollback]
        /\ incl (set_state_calls ev) (ids pre)
        /\ (forall l m, ~ In (EvLog l m) (ev0 ++ ev)))
  /\ (forall w1 t1,
        mark_each clock sfrs pre w = (Ok tt, w1, t1) ->
        run_once clock sfrs 2 (1 + 1) w0
        = (Raises TypeError,
           {| store := store w; ticks := S (ticks w1) |},
           ev0 ++ EvBegin :: EvSelect (ids (pre ++ run :: post))
                          :: t1 ++ [EvRollback])).
Proof.
  intros clock sfrs w0 w ev0 pre run post.
  assert (H0 : batch_loop clock sfrs 2 1 w0 = (Running, w, ev0))
    by (vm_compute; reflexivity).
  assert (H1 : select_paused 2 (store w) = pre ++ run :: post)
    by (vm_compute; reflexivity).
  assert (H2 : pause_timeout (state_details (state run)) = None)
    by reflexivity.
  split; [exact H0 |]. split; [exact H1 |]. split; [exact H2 |].
  exact (a_run_without_deadline_aborts_the_pass
           clock sfrs 2 1 0 w0 w ev0 pre post run H0 H1 H2).
Defined.

(** What the pass of the witness does, and a pass where the run without a
    deadline is in the first batch, between two runs that are due: run 1 is
    failed, the comparison for run 2 raises, run 3 is not looked at, and the
    roll-back undoes run 1. *)
Example a_run_without_deadline_in_a_batch_of_three :
  run_once (standing_at 0) (state_machine.set_state (fun _ _ => false) 0)
           2 2
           (at_start [paused_run 1 (Some (-1)%Z); paused_run 2 (Some (-1)%Z);
                      paused_run 3 None])
  = (Raises TypeError,
     {| store := [failed_row 0 (paused_run 1 (Some (-1)%Z));
                  failed_row 0 (paused_run 2 (Some (-1)%Z));
                  paused_run 3 None];
        ticks := 3 |},
     [EvBegin; EvSelect [1; 2]; fail_call 1; fail_call 2; EvCommit;
      EvBegin; EvSelect [3]; EvRollback])
  /\ run_once (standing_at 0) (state_machine.set_state (fun _ _ => false) 0)
              default_batch_size 1
              (at_start [paused_run 1 (Some (-1)%Z); paused_run 2 None;
                         paused_run 3 (Some (-1)%Z)])
     = (Raises TypeError,
        {| store := [paused_run 1 (Some (-1)%Z); paused_run 2 None;
                     paused_run 3 (Some (-1)%Z)];
           ticks := 2 |},
        [EvBegin; EvSelect [1; 2; 3]; fail_call 1; EvRollback]).
Proof. vm_compute. split; reflexivity. Qed.

(** ** Terminal states *)

Lemma StateType_eqb_eq (a b : StateType) :
  StateType_eqb a b = true <-> a = b.
Proof.
  split.
  - destruct a, b; cbn; intros H; try reflexivity; discriminate H.
  - intros <-. destruct a; reflexivity.
Qed.

Lemma StateType_eqb_neq (a b : StateType) :
  a <> b -> StateType_eqb a b = false.
Proof.
  intros H. destruct (StateType_eqb a b) eqn:E; [| reflexivity].
  apply StateType_eqb_eq in E. contradiction.
Qed.

(** C5.  For a run in a terminal state (Completed, Failed, Crashed or
    Cancelled) and a proposed state of another type, [set_state] fails with
    [TerminalStateViolation] and leaves the table, and so the run, as it
    was, whether the call is forced or not and whatever the rule table says.
    For a run that is not in a terminal state a forced call writes the
    proposed state whatever the rule table says: the rule table is all that
    [force] passes by. *)
Theorem terminal_states_are_absolute :
  forall (rule : StateType -> StateType -> bool) (ts : Z) (s : Store)
         (run_id : nat) (r : FlowRun) (proposed : State),
    read_run s run_id = Some r ->
    type proposed <> state_type r ->
    (is_terminal (state_type r) = true ->
     forall force : bool,
       state_machine.set_state rule ts s run_id proposed force
       = (Raised TerminalStateViolation, s))
    /\ (is_terminal (state_type r) = false ->
        state_machine.set_state rule ts s run_id proposed true
        = (Ok tt, write_run_state s run_id proposed ts)).
Proof.
  intros rule ts s run_id r proposed Hread Hneq.
  assert (E : StateType_eqb (state_type r) (type proposed) = false)
    by (apply StateType_eqb_neq; congruence).
  split; intros Ht; [intros force |];
    unfold state_machine.set_state; rewrite Hread, E, Ht; reflexivity.
Qed.

(** The theorem at a Failed run that a forced call proposes to resume, and
    at a Paused run that a forced call fails against a rule table that
    permits nothing. *)
Lemma terminal_states_are_absolute_witness :
  let failed := {| id := 1; state := Failed never_resumed; state_timestamp := 5 |} in
  let s := [paused_run 0 (Some 9%Z); failed] in
  let resume := {| type := RUNNING; message := None; state_details := no_details |} in
  read_run s 1 = Some failed
  /\ type resume <> state_type failed
  /\ (is_terminal (state_type failed) = true ->
      forall force : bool,
        state_machine.set_state (fun _ _ => true) 6 s 1 resume force
        = (Raised TerminalStateViolation, s))
  /\ (is_terminal (state_type failed) = false ->
      state_machine.set_state (fun _ _ => true) 6 s 1 resume true
      = (Ok tt, write_run_state s 1 resume 6)).
Proof.
  intros failed s resume.
  assert (H1 : read_run s 1 = Some failed) by reflexivity.
  assert (H2 : type resume <> state_type failed) by discriminate.
  split; [exact H1 |]. split; [exact H2 |].
  exact (terminal_states_are_absolute (fun _ _ => true) 6 s 1 failed resume
           H1 H2).
Defined.

(** ** The run loop of a service *)

Section DriverFacts.

Import loop_service.

Variable W : Type.
Variable run_once : W -> outcome unit * W.
Variable loop_seconds : Z.
Variable elapsed : nat -> Z.

Local Notation "'drive'" := (run_loop W run_once loop_seconds elapsed).

Lemma filter_run_once_app (a b : list DriverEvent) :
  invocations (a ++ b) = invocations a + invocations b.
Proof.
  unfold invocations. rewrite filter_app, length_app. reflexivity.
Qed.

(** The loop up to the pass that raises: [k] passes with their sleeps, then
    the failing pass and its one error record. *)
Lemma run_loop_fatal (k n i : nat) (w wk wk' : W) (e : exn) :
  k < n ->
  after_passes W run_once k w = Some wk ->
  run_once wk = (Raised e, wk') ->
  exists before,
    drive n i w
    = (ServiceFatal e, wk',
       before ++ [RunOnce (k + i); Log ERROR (unexpected_error e)])
    /\ invocations before = k
    /\ error_records before = [].
Proof.
  revert n i w. induction k as [| k IH]; intros n i w Hlt Hk Hraise.
  - destruct n as [| n]; [lia |]. cbn in Hk. injection Hk as <-.
    exists []. cbn. rewrite Hraise. auto.
  - destruct n as [| n]; [lia |]. cbn in Hk. cbn [run_loop].
    destruct (run_once w) as [[[] | e0] w1]; [| discriminate Hk].
    destruct (IH n (S i) w1) as (before & Heq & Hinv & Herr);
      [lia | exact Hk | exact Hraise |].
    rewrite Heq.
    exists (RunOnce i :: Sleep (Z.max 0 (loop_seconds - elapsed i)) :: before).
    split; [| split].
    + cbn. rewrite Nat.add_succ_r. reflexivity.
    + unfold invocations in *. cbn. rewrite Hinv. reflexivity.
    + unfold error_records in *. cbn. exact Herr.
Qed.

End DriverFacts.

(** C7.  For any loop service, when the pass of iteration [k] (after [k]
    passes that returned) raises an error that [run_once] does not handle,
    [start] ends there with [ServiceFatal], however many iterations were
    requested ([loops=n] with [k < n], or no bound): [run_once] has been
    invoked [k + 1] times and never again, the passes before it each went to
    sleep, and exactly one record at error severity has been logged, the
    last thing the service did, whose text holds the short description of
    the exception. *)
Theorem an_error_in_run_once_stops_the_service :
  forall (W : Type) (run_once : W -> outcome unit * W)
         (loop_seconds : Z) (elapsed : nat -> Z)
         (loops : option nat) (fuel k : nat) (w wk wk' : W) (e : exn),
    k < match loops with Some n => n | None => fuel end ->
    loop_service.after_passes W run_once k w = Some wk ->
    run_once wk = (Raised e, wk') ->
    exists before,
      loop_service.start W run_once loop_seconds elapsed loops fuel w
      = (loop_service.ServiceFatal e, wk',
         before ++ [loop_service.RunOnce k;
                    loop_service.Log ERROR (loop_service.unexpected_error e)])
      /\ loop_service.invocations
           (before ++ [loop_service.RunOnce k;
                       loop_service.Log ERROR (loop_service.unexpected_error e)])
         = S k
      /\ loop_service.error_records
           (before ++ [loop_service.RunOnce k;
                       loop_service.Log ERROR (loop_service.unexpected_error e)])
         = [loop_service.Log ERROR (loop_service.unexpected_error e)]
      /\ loop_service.contains (loop_service.unexpected_error e)
                               (short_description e).
Proof.
  intros W run_once loop_seconds elapsed loops fuel k w wk wk' e Hlt Hk Hraise.
  destruct (run_loop_fatal W run_once loop_seconds elapsed k
              (match loops with Some n => n | None => fuel end) 0 w wk wk' e
              Hlt Hk Hraise) as (before & Heq & Hinv & Herr).
  rewrite Nat.add_0_r in Heq.
  exists before. split; [| split; [| split]].
  - unfold loop_service.start. destruct loops as [n |]; rewrite Heq; reflexivity.
  - rewrite filter_run_once_app, Hinv. cbn. lia.
  - unfold loop_service.error_records in *. rewrite filter_app, Herr.
    reflexivity.
  - exists "Unexpected error in run_once: ", "".
    unfold loop_service.unexpected_error.
    assert (Hnil : forall x : string, (x ++ "")%string = x).
    { intros x. induction x as [| c x IH]; cbn; [reflexivity |].
      rewrite IH. reflexivity. }
    rewrite Hnil. reflexivity.
Qed.

(** The theorem at a service whose every pass raises, started for five
    iterations: the first pass is the only one. *)
Lemma an_error_in_run_once_stops_the_service_witness :
  let failing := fun n : nat =>
    (@Raised unit (OtherError "Server error '500 Internal Server Error' for url"),
     S n) in
  0 < 5
  /\ loop_service.after_passes nat failing 0 0 = Some 0
  /\ failing 0
     = (Raised (OtherError "Server error '500 Internal Server Error' for url"), 1)
  /\ exists before,
      loop_service.start nat failing 30 (fun _ => 1%Z) (Some 5) 0 0
      = (loop_service.ServiceFatal
           (OtherError "Server error '500 Internal Server Error' for url"), 1,
         before ++ [loop_service.RunOnce 0;
                    loop_service.Log ERROR
                      (loop_service.unexpected_error
                         (OtherError "Server error '500 Internal Server Error' for url"))])
      /\ loop_service.invocations
           (before ++ [loop_service.RunOnce 0;
                       loop_service.Log ERROR
                         (loop_service.unexpected_error
                            (OtherError "Server error '500 Internal Server Error' for url"))])
         = 1
      /\ loop_service.error_records
           (before ++ [loop_service.RunOnce 0;
                       loop_service.Log ERROR
                         (loop_service.unexpected_error
                            (OtherError "Server error '500 Internal Server Error' for url"))])
         = [loop_service.Log ERROR
              (loop_service.unexpected_error
                 (OtherError "Server error '500 Internal Server Error' for url"))]
      /\ loop_service.contains
           (loop_service.unexpected_error
              (OtherError "Server error '500 Internal Server Error' for url"))
           (short_description
              (OtherError "Server error '500 Internal Server Error' for url")).
Proof.
  intros failing.
  assert (H1 : 0 < 5) by lia.
  assert (H2 : loop_service.after_passes nat failing 0 0 = Some 0)
    by reflexivity.
  assert (H3 : failing 0
               = (Raised (OtherError
                    "Server error '500 Internal Server Error' for url"), 1))
    by reflexivity.
  split; [exact H1 |]. split; [exact H2 |]. split; [exact H3 |].
  exact (an_error_in_run_once_stops_the_service
           nat failing 30 (fun _ => 1%Z) (Some 5) 0 0 0 0 1
           (OtherError "Server error '500 Internal Server Error' for url")
           H1 H2 H3).
Defined.

(** ** The constraints of the worker tables *)

Section ConstraintFacts.

Lemma value_eqb_eq (a b : value) : value_eqb a b = true <-> a = b.
Proof.
  split.
  - destruct a, b; cbn; intros H; try discriminate H; try reflexivity; f_equal.
    + apply Nat.eqb_eq. exact H.
    + apply String.eqb_eq. exact H.
    + apply Z.eqb_eq. exact H.
    + apply Bool.eqb_prop. exact H.
    + apply Z.eqb_eq. exact H.
    + apply String.eqb_eq. exact H.
  - intros <-. destruct a; cbn.
    + reflexivity.
    + apply Nat.eqb_refl.
    + apply String.eqb_refl.
    + apply Z.eqb_refl.
    + destruct b; reflexivity.
    + apply Z.eqb_refl.
    + apply String.eqb_refl.
Qed.

Lemma set_rows_same (db : Database) (t : string) (rows : list Row) :
  set_rows db t rows t = rows.
Proof. unfold set_rows. rewrite String.eqb_refl. reflexivity. Qed.

Lemma set_rows_other (db : Database) (t t' : string) (rows : list Row) :
  t <> t' -> set_rows db t rows t' = db t'.
Proof.
  intros H. unfold set_rows. destruct (String.eqb_spec t t');
    [contradiction | reflexivity].
Qed.

Lemma forallb_filter {A} (p f : A -> bool) (l : list A) :
  forallb p l = true -> forallb p (filter f l) = true.
Proof.
  induction l as [| x l IH]; cbn; [reflexivity |].
  intros H. apply andb_prop in H. destruct H as [Hx Hl].
  destruct (f x); cbn; [rewrite Hx |]; apply IH; exact Hl.
Qed.

Lemma existsb_filter {A} (p f : A -> bool) (l : list A) :
  existsb p (filter f l) = true -> existsb p l = true.
Proof.
  induction l as [| x l IH]; cbn; [intros H; exact H |].
  destruct (f x); cbn.
  - intros H. apply orb_prop in H. destruct H as [H | H].
    + rewrite H. reflexivity.
    + rewrite (IH H). apply orb_true_r.
  - intros H. rewrite (IH H). apply orb_true_r.
Qed.

(** Deleting rows breaks no key ... *)
Lemma unique_ok_filter (cols : list string) (f : Row -> bool)
      (rows : list Row) :
  unique_ok cols rows = true -> unique_ok cols (filter f rows) = true.
Proof.
  induction rows as [| r rows IH]; cbn; [reflexivity |].
  intros H. apply andb_prop in H. destruct H as [Hr Hrows].
  destruct (f r); cbn; [| apply IH; exact Hrows].
  rewrite (IH Hrows), andb_true_r.
  destruct (existsb (collide cols r) (filter f rows)) eqn:E; [| reflexivity].
  apply existsb_filter in E. rewrite E in Hr. discriminate Hr.
Qed.

(** ... and no other constraint of the table. *)
Lemma table_ok_filter (tb : Table) (f : Row -> bool) (rows : list Row) :
  table_ok tb rows = true -> table_ok tb (filter f rows) = true.
Proof.
  unfold table_ok. intros H. apply andb_prop in H. destruct H as [Hn Hk].
  rewrite (forallb_filter _ f rows Hn). cbn.
  rewrite forallb_forall in Hk |- *. intros k Hin. specialize (Hk k Hin).
  destruct k; cbn in *; try reflexivity; apply unique_ok_filter; exact Hk.
Qed.

Lemma checked_write_ok (sch : Schema) (db db' : Database) (t : string)
      (rows : list Row) :
  db_ok sch db -> checked_write sch db t rows = Ok db' -> db_ok sch db'.
Proof.
  intros Hok. unfold checked_write.
  destruct (table_of sch t) as [tb |] eqn:Ht; [| discriminate].
  destruct (table_ok tb rows) eqn:Hrows; [| discriminate].
  intros [= <-]. intros t' tb' Ht'.
  destruct (String.eqb_spec t t') as [<- | Hne].
  - rewrite set_rows_same. congruence.
  - rewrite set_rows_other by exact Hne. apply Hok. exact Ht'.
Qed.

Lemma delete_rows_ok (sch : Schema) (depth : nat) :
  forall (db db' : Database) (t : string) (victim : Row -> bool),
    db_ok sch db -> delete_rows depth sch db t victim = Ok db' ->
    db_ok sch db'.
Proof.
  induction depth as [| depth IH]; intros db db' t victim Hok; cbn [delete_rows].
  - discriminate.
  - set (dead := filter victim (db t)).
    set (db1 := set_rows db t (filter (fun r => negb (victim r)) (db t))).
    assert (H1 : db_ok sch db1).
    { intros t' tb' Ht'. unfold db1.
      destruct (String.eqb_spec t t') as [<- | Hne].
      - rewrite set_rows_same. apply table_ok_filter. apply Hok. exact Ht'.
      - rewrite set_rows_other by exact Hne. apply Hok. exact Ht'. }
    clearbody db1 dead. revert db1 H1.
    induction (references_to sch t) as [| rf rfs IHr]; intros db1 H1; cbn.
    + intros [= <-]. exact H1.
    + destruct (ref_ondelete rf).
      * destruct (delete_rows depth sch db1 (ref_table rf) (orphaned rf dead))
          as [d |] eqn:Hd.
        -- apply IHr. apply (IH _ _ _ _ H1 Hd).
        -- clear. induction rfs; cbn; [discriminate | assumption].
      * destruct (existsb (orphaned rf dead) (db1 (ref_table rf))).
        -- clear. induction rfs; cbn; [discriminate | assumption].
        -- apply IHr. exact H1.
      * destruct (checked_write sch db1 (ref_table rf) _) as [d |] eqn:Hd.
        -- apply IHr. apply (checked_write_ok _ _ _ _ _ H1 Hd).
        -- clear. induction rfs; cbn; [discriminate | assumption].
      * destruct (existsb (orphaned rf dead) (db1 (ref_table rf))).
        -- clear. induction rfs; cbn; [discriminate | assumption].
        -- apply IHr. exact H1.
Qed.

(** Every statement leaves a database that meets the constraints. *)
Lemma execute_ok (sch : Schema) (db db' : Database) (st : Statement) :
  db_ok sch db -> execute sch db st = Ok db' -> db_ok sch db'.
Proof.
  intros Hok. destruct st as [t r | t victim | t target change];
    cbn [execute].
  - unfold insert. destruct (table_of sch t) as [tb |]; [| discriminate].
    destruct (parents_ok db tb r); [| discriminate].
    apply checked_write_ok. exact Hok.
  - unfold delete. apply delete_rows_ok. exact Hok.
  - unfold update. destruct (table_of sch t) as [tb |]; [| discriminate].
    destruct (checked_write sch db t _) as [d |] eqn:Hd; [| discriminate].
    destruct (_ && _); [| discriminate].
    intros [= <-]. apply (checked_write_ok _ _ _ _ _ Hok Hd).
Qed.

Lemma execute_all_ok (sch : Schema) (sts : list Statement) (db : Database) :
  db_ok sch db -> db_ok sch (execute_all sch db sts).
Proof.
  revert db. induction sts as [| st sts IH]; intros db Hok; [exact Hok |].
  cbn. apply IH. destruct (execute sch db st) as [d |] eqn:Hd.
  - apply (execute_ok _ _ _ _ Hok Hd).
  - exact Hok.
Qed.

Lemma unique_ok_nth (cols : list string) (rows : list Row) :
  unique_ok cols rows = true ->
  forall i j r1 r2,
    i < j -> nth_error rows i = Some r1 -> nth_error rows j = Some r2 ->
    collide cols r1 r2 = false.
Proof.
  induction rows as [| r rows IH]; intros H i j r1 r2 Hlt H1 H2.
  - destruct i; discriminate H1.
  - cbn in H. apply andb_prop in H. destruct H as [Hr Hrows].
    destruct j as [| j]; [lia |]. cbn in H2. destruct i as [| i].
    + cbn in H1. injection H1 as <-.
      destruct (collide cols r r2) eqn:E; [| reflexivity].
      apply nth_error_In in H2.
      assert (Hex : existsb (collide cols r) rows = true)
        by (apply existsb_exists; exists r2; auto).
      rewrite Hex in Hr. discriminate Hr.
    + cbn in H1. apply (IH Hrows i j); [lia | assumption | assumption].
Qed.

Lemma collide_of_agree (cols : list string) (r1 r2 : Row) :
  (forall c, In c cols -> get r1 c = get r2 c) ->
  (forall c, In c cols -> is_null (get r1 c) = false) ->
  collide cols r1 r2 = true.
Proof.
  intros Hag Hnn. unfold collide. apply forallb_forall. intros c Hc.
  rewrite (Hnn c Hc), <- (Hag c Hc). cbn. apply value_eqb_eq. reflexivity.
Qed.

Lemma not_null_of_table_ok (tb : Table) (rows : list Row) (r : Row)
      (c : string) :
  table_ok tb rows = true -> In r rows -> not_null_column tb c = true ->
  is_null (get r c) = false.
Proof.
  unfold table_ok, not_null_column. intros H Hr Hc.
  apply andb_prop in H. destruct H as [Hn _].
  rewrite forallb_forall in Hn. specialize (Hn r Hr).
  unfold not_null_ok in Hn. rewrite forallb_forall in Hn.
  apply existsb_exists in Hc. destruct Hc as (col & Hcol & Hc).
  apply andb_prop in Hc. destruct Hc as [Hname Hnull].
  apply String.eqb_eq in Hname. subst c.
  specialize (Hn col Hcol). destruct (nullable col); [discriminate Hnull |].
  cbn in Hn. destruct (is_null (get r (column_name col)));
    [discriminate Hn | reflexivity].
Qed.

(** A unique constraint over columns that are [NOT NULL] keeps the rows of
    the table apart on these columns. *)
Lemma distinct_of_db_ok (sch : Schema) (db : Database) (t : string)
      (tb : Table) (cols : list string) (name : string) :
  db_ok sch db ->
  table_of sch t = Some tb ->
  In (UniqueConstraint cols name) (constraints tb) ->
  forallb (not_null_column tb) cols = true ->
  distinct_on db t cols.
Proof.
  intros Hok Ht Hk Hnn i j r1 r2 H1 H2 Hag.
  specialize (Hok t tb Ht). rewrite forallb_forall in Hnn.
  assert (Hu : unique_ok cols (db t) = true).
  { unfold table_ok in Hok. apply andb_prop in Hok. destruct Hok as [_ Hks].
    rewrite forallb_forall in Hks. apply (Hks _ Hk). }
  assert (Hc12 : collide cols r1 r2 = true).
  { apply collide_of_agree; [exact Hag |]. intros c Hc.
    apply (not_null_of_table_ok tb (db t) r1 c Hok
             (nth_error_In _ _ H1) (Hnn c Hc)). }
  assert (Hc21 : collide cols r2 r1 = true).
  { apply collide_of_agree; [intros c Hc; symmetry; apply Hag; exact Hc |].
    intros c Hc.
    apply (not_null_of_table_ok tb (db t) r2 c Hok
             (nth_error_In _ _ H2) (Hnn c Hc)). }
  destruct (Nat.lt_trichotomy i j) as [Hlt | [Heq | Hgt]].
  - rewrite (unique_ok_nth cols (db t) Hu i j r1 r2 Hlt H1 H2) in Hc12.
    discriminate Hc12.
  - exact Heq.
  - rewrite (unique_ok_nth cols (db t) Hu j i r2 r1 Hgt H2 H1) in Hc21.
    discriminate Hc21.
Qed.

End ConstraintFacts.

(** C10.  The schema declares a worker pool's name unique, a worker's
    (pool, name) pair unique and a queue's (pool, name) pair unique, over
    columns that are all [NOT NULL]; and whatever statements (inserts,
    updates, deletes with their cascades) are issued one after another on a
    database that meets the constraints of the schema, refused statements
    changing nothing, no two rows of [worker_pool] have the same name, no
    two rows of [worker] the same pool and name, and no two rows of
    [worker_pool_queue] the same pool and name. *)
Theorem worker_identities_are_unique :
  forall (db : Database) (sts : list Statement),
    db_ok schema db ->
    (unique_declared schema "worker_pool" ["name"]
     /\ unique_declared schema "worker" ["worker_pool_id"; "name"]
     /\ unique_declared schema "worker_pool_queue" ["worker_pool_id"; "name"])
    /\ distinct_on (execute_all schema db sts) "worker_pool" ["name"]
    /\ distinct_on (execute_all schema db sts) "worker"
                   ["worker_pool_id"; "name"]
    /\ distinct_on (execute_all schema db sts) "worker_pool_queue"
                   ["worker_pool_id"; "name"].
Proof.
  intros db sts Hok.
  pose proof (execute_all_ok schema sts db Hok) as Hfin.
  assert (Hp : exists tb name,
             table_of schema "worker_pool" = Some tb
             /\ In (UniqueConstraint ["name"] name) (constraints tb)
             /\ forallb (not_null_column tb) ["name"] = true).
  { eexists. eexists. split; [reflexivity |].
    split; [cbn; right; left; reflexivity | reflexivity]. }
  assert (Hw : exists tb name,
             table_of schema "worker" = Some tb
             /\ In (UniqueConstraint ["worker_pool_id"; "name"] name)
                   (constraints tb)
             /\ forallb (not_null_column tb) ["worker_pool_id"; "name"] = true).
  { eexists. eexists. split; [reflexivity |].
    split; [cbn; right; right; left; reflexivity | reflexivity]. }
  assert (Hq : exists tb name,
             table_of schema "worker_pool_queue" = Some tb
             /\ In (UniqueConstraint ["worker_pool_id"; "name"] name)
                   (constraints tb)
             /\ forallb (not_null_column tb) ["worker_pool_id"; "name"] = true).
  { eexists. eexists. split; [reflexivity |].
    split; [cbn; right; right; left; reflexivity | reflexivity]. }
  destruct Hp as (tbp & np & Htp & Hkp & Hnp).
  destruct Hw as (tbw & nw & Htw & Hkw & Hnw).
  destruct Hq as (tbq & nq & Htq & Hkq & Hnq).
  split; [split; [| split] |].
  - exists tbp, np. auto.
  - exists tbw, nw. auto.
  - exists tbq, nq. auto.
  - split; [| split].
    + apply (distinct_of_db_ok schema _ _ tbp _ np Hfin Htp Hkp Hnp).
    + apply (distinct_of_db_ok schema _ _ tbw _ nw Hfin Htw Hkw Hnw).
    + apply (distinct_of_db_ok schema _ _ tbq _ nq Hfin Htq Hkq Hnq).
Qed.

(** ** Deleting a worker pool *)

Section CascadeFacts.

Lemma references_to_worker_pool :
  references_to schema "worker_pool" = [to_queues; to_workers].
Proof. vm_compute. reflexivity. Qed.

Lemma references_to_worker_pool_queue :
  references_to schema "worker_pool_queue"
  = [as_default; from_deployment; from_flow_run].
Proof. vm_compute. reflexivity. Qed.

Lemma references_to_worker : references_to schema "worker" = [].
Proof. vm_compute. reflexivity. Qed.

Lemma delete_rows_step (depth : nat) (sch : Schema) (db : Database)
      (t : string) (victim : Row -> bool) :
  delete_rows (S depth) sch db t victim =
  fold_left
    (fun acc rf =>
       match acc with
       | Raised e => Raised e
       | Ok d =>
           match ref_ondelete rf with
           | CASCADE =>
               delete_rows depth sch d (ref_table rf)
                           (orphaned rf (filter victim (db t)))
           | SET_NULL =>
               checked_write sch d (ref_table rf)
                 (map (fun r => if orphaned rf (filter victim (db t)) r
                                then set_null (ref_cols rf) r else r)
                      (d (ref_table rf)))
           | RESTRICT | NO_ACTION =>
               if existsb (orphaned rf (filter victim (db t)))
                          (d (ref_table rf))
               then Raised IntegrityError else Ok d
           end
       end)
    (references_to sch t)
    (Ok (set_rows db t (filter (fun r => negb (victim r)) (db t)))).
Proof. reflexivity. Qed.

Lemma checked_write_rows (sch : Schema) (db db' : Database) (t : string)
      (rows : list Row) :
  checked_write sch db t rows = Ok db' -> db' = set_rows db t rows.
Proof.
  unfold checked_write. destruct (table_of sch t); [| discriminate].
  destruct (table_ok _ rows); [| discriminate]. intros [= <-]. reflexivity.
Qed.

Lemma existsb_const {A} (f : A -> bool) (b : bool) (l : list A) :
  (forall x, In x l -> f x = b) -> l <> [] -> existsb f l = b.
Proof.
  induction l as [| x l IH]; intros Hf Hne; [contradiction |].
  cbn. rewrite (Hf x (or_introl eq_refl)). destruct b; [reflexivity |].
  destruct l as [| y l]; [reflexivity |].
  apply IH; [| discriminate]. intros z Hz. apply Hf. right. exact Hz.
Qed.

(** The rows that the deletion of pool [p] orphans are the rows that
    belong to [p]. *)
Lemma orphaned_by_pool (db : Database) (p : nat) (rf : Reference) (r : Row) :
  existsb (is_pool p) (db "worker_pool") = true ->
  ref_cols rf = ["worker_pool_id"] -> ref_refcols rf = ["id"] ->
  orphaned rf (filter (is_pool p) (db "worker_pool")) r = belongs_to p r.
Proof.
  intros Hex Hc Hr. unfold orphaned. rewrite Hc, Hr. apply existsb_const.
  - intros pool Hpool. apply filter_In in Hpool. destruct Hpool as [_ Hp].
    unfold is_pool in Hp. apply value_eqb_eq in Hp.
    cbn [refers]. rewrite Hp. unfold belongs_to.
    destruct (get r "worker_pool_id"); cbn; try reflexivity.
    rewrite andb_true_r. reflexivity.
  - apply existsb_exists in Hex. destruct Hex as (pool & Hin & Hp).
    intros Hnil.
    assert (Hf : In pool (filter (is_pool p) (db "worker_pool")))
      by (apply filter_In; auto).
    rewrite Hnil in Hf. exact Hf.
Qed.

(** What the deletion of a pool comes to: the pool's row goes, its queues
    go unless another pool still has one of them as its default queue, the
    deployments and flow runs of these queues lose their queue, and the
    pool's workers go. *)
Lemma delete_worker_pool_eq (db : Database) (p : nat) :
  delete_worker_pool db p =
  let dead := filter (is_pool p) (db "worker_pool") in
  let pools := filter (fun r => negb (is_pool p r)) (db "worker_pool") in
  let dead_queues := filter (orphaned to_queues dead) (db "worker_pool_queue") in
  let queues := filter (fun r => negb (orphaned to_queues dead r))
                       (db "worker_pool_queue") in
  let db2 := set_rows (set_rows db "worker_pool" pools)
                      "worker_pool_queue" queues in
  if existsb (orphaned as_default dead_queues) pools
  then Raised IntegrityError
  else
    match checked_write schema db2 "deployment"
            (map (fun r => if orphaned from_deployment dead_queues r
                           then set_null ["worker_pool_queue_id"] r else r)
                 (db "deployment")) with
    | Raised e => Raised e
    | Ok d3 =>
        match checked_write schema d3 "flow_run"
                (map (fun r => if orphaned from_flow_run dead_queues r
                               then set_null ["worker_pool_queue_id"] r else r)
                     (d3 "flow_run")) with
        | Raised e => Raised e
        | Ok d4 =>
            Ok (set_rows d4 "worker"
                  (filter (fun r => negb (orphaned to_workers dead r))
                          (d4 "worker")))
        end
    end.
Proof.
  unfold delete_worker_pool, delete.
  replace (S (List.length schema)) with 6 by reflexivity.
  rewrite delete_rows_step, references_to_worker_pool.
  cbn [fold_left to_queues to_workers ref_ondelete ref_table].
  rewrite delete_rows_step, references_to_worker_pool_queue.
  cbn [fold_left as_default from_deployment from_flow_run ref_ondelete
       ref_table ref_cols].
  rewrite (set_rows_other db "worker_pool" "worker_pool_queue")
    by discriminate.
  rewrite (set_rows_other _ "worker_pool_queue" "worker_pool")
    by discriminate.
  rewrite set_rows_same.
  cbv zeta.
  destruct (existsb _ (filter (fun r => negb (is_pool p r)) _));
    [reflexivity |].
  rewrite (set_rows_other _ "worker_pool_queue" "deployment") by discriminate.
  rewrite (set_rows_other _ "worker_pool" "deployment") by discriminate.
  destruct (checked_write schema _ "deployment" _) as [d3 |]; [| reflexivity].
  destruct (checked_write schema d3 "flow_run" _) as [d4 |]; [| reflexivity].
  rewrite delete_rows_step, references_to_worker. reflexivity.
Qed.

Lemma get_set_null (cols : list string) (r : Row) (c : string) :
  get (set_null cols r) c = if mentions c cols then NULL else get r c.
Proof.
  unfold set_null, mentions. induction cols as [| c0 cols IH]; cbn;
    [reflexivity |].
  rewrite (String.eqb_sym c c0). destruct (String.eqb c0 c); cbn;
    [reflexivity | exact IH].
Qed.

Lemma unique_ok_map (kcols : list string) (g : Row -> Row)
      (rows : list Row) :
  (forall r c, In c kcols -> get (g r) c = get r c) ->
  unique_ok kcols (map g rows) = unique_ok kcols rows.
Proof.
  intros Hg.
  assert (Hc : forall r1 r2, collide kcols (g r1) (g r2) = collide kcols r1 r2).
  { intros r1 r2. unfold collide.
    assert (Hsub : forall l, incl l kcols ->
              forallb (fun c => negb (is_null (get (g r1) c))
                                && value_eqb (get (g r1) c) (get (g r2) c)) l
              = forallb (fun c => negb (is_null (get r1 c))
                                  && value_eqb (get r1 c) (get r2 c)) l).
    { induction l as [| c l IHl]; intros Hl; cbn; [reflexivity |].
      rewrite !(Hg _ c (Hl c (or_introl eq_refl))).
      rewrite IHl; [reflexivity |].
      intros x Hx. apply Hl. right. exact Hx. }
    apply Hsub. apply incl_refl. }
  induction rows as [| r rows IH]; cbn; [reflexivity |].
  rewrite IH. f_equal. f_equal.
  clear IH. induction rows as [| x rows IHr]; cbn; [reflexivity |].
  rewrite Hc, IHr. reflexivity.
Qed.

(** Setting nullable columns that are in no key to [NULL] breaks no
    constraint of the table. *)
Lemma table_ok_set_null (tb : Table) (cols : list string) (f : Row -> bool)
      (rows : list Row) :
  set_null_ok tb cols = true ->
  table_ok tb rows = true ->
  table_ok tb (map (fun r => if f r then set_null cols r else r) rows) = true.
Proof.
  unfold set_null_ok, table_ok. intros Hs H.
  apply andb_prop in Hs. destruct Hs as [Hcols Hkeys].
  apply andb_prop in H. destruct H as [Hn Hk].
  rewrite forallb_forall in Hcols, Hkeys, Hn, Hk.
  apply andb_true_intro. split.
  - apply forallb_forall. intros r' Hr'. apply in_map_iff in Hr'.
    destruct Hr' as (r & <- & Hr). specialize (Hn r Hr).
    destruct (f r); [| exact Hn].
    unfold not_null_ok in *. rewrite forallb_forall in Hn |- *.
    intros col Hcol. specialize (Hn col Hcol). specialize (Hcols col Hcol).
    rewrite get_set_null.
    destruct (mentions (column_name col) cols); cbn in Hcols |- *.
    + rewrite Hcols. reflexivity.
    + exact Hn.
  - apply forallb_forall. intros k Hin. specialize (Hk k Hin).
    specialize (Hkeys k Hin).
    destruct k as [kcols n | kcols n | ]; cbn in *; try reflexivity;
      (rewrite unique_ok_map; [exact Hk |]);
      intros r c Hc; rewrite forallb_forall in Hkeys;
      specialize (Hkeys c Hc);
      (destruct (f r); [| reflexivity]);
      rewrite get_set_null;
      (destruct (mentions c cols); [discriminate Hkeys | reflexivity]).
Qed.

End CascadeFacts.

(** C8.  The schema declares the foreign keys of [worker] and of
    [worker_pool_queue] to [worker_pool] with [ondelete] cascade, and the
    deletion of a pool that exists is one statement that, when it goes
    through, leaves the pool table without that pool, the worker table
    without the workers of that pool and the queue table without the queues
    of that pool, every other row of the three tables being kept.  It goes
    through on every database that meets the constraints, unless some other
    pool has a queue of the deleted pool as its default queue (the foreign
    key of [default_queue_id] restricts). *)
Theorem deleting_a_pool_deletes_its_workers_and_queues :
  forall (db : Database) (p : nat),
    existsb (is_pool p) (db "worker_pool") = true ->
    (foreign_key_declared schema "worker" ["worker_pool_id"]
                          "worker_pool" ["id"] CASCADE
     /\ foreign_key_declared schema "worker_pool_queue" ["worker_pool_id"]
                             "worker_pool" ["id"] CASCADE)
    /\ (forall db',
          delete_worker_pool db p = Ok db' ->
          db' "worker_pool"
          = filter (fun r => negb (is_pool p r)) (db "worker_pool")
          /\ db' "worker"
             = filter (fun r => negb (belongs_to p r)) (db "worker")
          /\ db' "worker_pool_queue"
             = filter (fun r => negb (belongs_to p r)) (db "worker_pool_queue"))
    /\ (db_ok schema db -> default_elsewhere db p = false ->
        exists db', delete_worker_pool db p = Ok db').
Proof.
  intros db p Hex.
  assert (Hq : forall r, orphaned to_queues
                           (filter (is_pool p) (db "worker_pool")) r
                         = belongs_to p r)
    by (intros r; apply (orphaned_by_pool db p to_queues r Hex);
        reflexivity).
  assert (Hw : forall r, orphaned to_workers
                           (filter (is_pool p) (db "worker_pool")) r
                         = belongs_to p r)
    by (intros r; apply (orphaned_by_pool db p to_workers r Hex);
        reflexivity).
  split; [split | split].
  - eexists. eexists. split; [reflexivity | cbn; left; reflexivity].
  - eexists. eexists. split; [reflexivity | cbn; left; reflexivity].
  - intros db'. rewrite delete_worker_pool_eq. cbv zeta.
    destruct (existsb _ (filter (fun r => negb (is_pool p r)) _));
      [discriminate |].
    destruct (checked_write schema _ "deployment" _) as [d3 |] eqn:H3;
      [| discriminate].
    destruct (checked_write schema d3 "flow_run" _) as [d4 |] eqn:H4;
      [| discriminate].
    intros [= <-].
    apply checked_write_rows in H3, H4. subst d4 d3.
    rewrite set_rows_same.
    repeat (rewrite set_rows_other by discriminate).
    rewrite !set_rows_same.
    repeat (rewrite set_rows_other by discriminate).
    rewrite !set_rows_same.
    split; [reflexivity |]. split.
    + apply filter_ext. intros r. rewrite Hw. reflexivity.
    + apply filter_ext. intros r. rewrite Hq. reflexivity.
  - intros Hok Hdef. rewrite delete_worker_pool_eq. cbv zeta.
    assert (Hno : existsb
                    (orphaned as_default
                       (filter (orphaned to_queues
                                  (filter (is_pool p) (db "worker_pool")))
                               (db "worker_pool_queue")))
                    (filter (fun r => negb (is_pool p r)) (db "worker_pool"))
                  = false).
    { destruct (existsb _ (filter (fun r => negb (is_pool p r)) _)) eqn:E;
        [| reflexivity].
      apply existsb_exists in E. destruct E as (pool & Hpool & Horph).
      apply filter_In in Hpool. destruct Hpool as [Hin Hnot].
      unfold orphaned at 1 in Horph. apply existsb_exists in Horph.
      destruct Horph as (q & Hqin & Href).
      apply filter_In in Hqin. destruct Hqin as [Hqin Hqp].
      rewrite Hq in Hqp.
      assert (Ht : default_elsewhere db p = true).
      { unfold default_elsewhere. apply existsb_exists. exists pool.
        split; [exact Hin |]. rewrite Hnot. cbn.
        apply existsb_exists. exists q. split; [exact Hqin |].
        rewrite Hqp. exact Href. }
      rewrite Ht in Hdef. discriminate Hdef. }
    rewrite Hno.
    assert (Hd : exists tb, table_of schema "deployment" = Some tb
                            /\ set_null_ok tb ["worker_pool_queue_id"] = true)
      by (eexists; split; reflexivity).
    assert (Hf : exists tb, table_of schema "flow_run" = Some tb
                            /\ set_null_ok tb ["worker_pool_queue_id"] = true)
      by (eexists; split; reflexivity).
    destruct Hd as (tbd & Htd & Hsd). destruct Hf as (tbf & Htf & Hsf).
    unfold checked_write at 1. rewrite Htd.
    rewrite (table_ok_set_null tbd _ _ _ Hsd (Hok _ _ Htd)).
    unfold checked_write. rewrite Htf.
    rewrite set_rows_other by discriminate.
    rewrite set_rows_other by discriminate.
    rewrite set_rows_other by discriminate.
    rewrite (table_ok_set_null tbf _ _ _ Hsf (Hok _ _ Htf)).
    eexists. reflexivity.
Qed.

(** The theorem at two pools: pool 1 goes with its two workers and its
    queue, pool 2 stays with its own. *)
Lemma deleting_a_pool_deletes_its_workers_and_queues_witness :
  existsb (is_pool 1) (two_pools "worker_pool") = true
  /\ (foreign_key_declared schema "worker" ["worker_pool_id"]
                           "worker_pool" ["id"] CASCADE
      /\ foreign_key_declared schema "worker_pool_queue" ["worker_pool_id"]
                              "worker_pool" ["id"] CASCADE)
  /\ (forall db',
        delete_worker_pool two_pools 1 = Ok db' ->
        db' "worker_pool"
        = filter (fun r => negb (is_pool 1 r)) (two_pools "worker_pool")
        /\ db' "worker"
           = filter (fun r => negb (belongs_to 1 r)) (two_pools "worker")
        /\ db' "worker_pool_queue"
           = filter (fun r => negb (belongs_to 1 r))
                    (two_pools "worker_pool_queue"))
  /\ (db_ok schema two_pools -> default_elsewhere two_pools 1 = false ->
      exists db', delete_worker_pool two_pools 1 = Ok db').
Proof.
  assert (H : existsb (is_pool 1) (two_pools "worker_pool") = true)
    by reflexivity.
  split; [exact H |].
  exact (deleting_a_pool_deletes_its_workers_and_queues two_pools 1 H).
Defined.

Lemma empty_ok (sch : Schema) : db_ok sch empty.
Proof.
  intros t tb _. unfold table_ok, empty. cbn.
  apply forallb_forall. intros k _. destruct k; reflexivity.
Qed.

(** The theorem at the empty tables the migration creates, on which a pool
    is inserted, then a second pool of the same name (refused), then two
    workers of the same name in that pool (the second refused). *)
Lemma worker_identities_are_unique_witness :
  let sts := [INSERT "worker_pool" (pool_row 1 "docker" None);
              INSERT "worker_pool" (pool_row 2 "docker" None);
              INSERT "worker" (worker_row 100 "w1" 1);
              INSERT "worker" (worker_row 101 "w1" 1)] in
  db_ok schema empty
  /\ (unique_declared schema "worker_pool" ["name"]
      /\ unique_declared schema "worker" ["worker_pool_id"; "name"]
      /\ unique_declared schema "worker_pool_queue" ["worker_pool_id"; "name"])
  /\ distinct_on (execute_all schema empty sts) "worker_pool" ["name"]
  /\ distinct_on (execute_all schema empty sts) "worker"
                 ["worker_pool_id"; "name"]
  /\ distinct_on (execute_all schema empty sts) "worker_pool_queue"
                 ["worker_pool_id"; "name"].
Proof.
  intros sts. split; [apply empty_ok |].
  exact (worker_identities_are_unique empty sts (empty_ok schema)).
Defined.

(** The statements of the witness do what is said of them. *)
Example duplicate_names_are_refused :
  let db := execute_all schema empty
              [INSERT "worker_pool" (pool_row 1 "docker" None);
               INSERT "worker_pool" (pool_row 2 "docker" None);
               INSERT "worker" (worker_row 100 "w1" 1);
               INSERT "worker" (worker_row 101 "w1" 1)] in
  db "worker_pool" = [pool_row 1 "docker" None]
  /\ db "worker" = [worker_row 100 "w1" 1].
Proof. vm_compute. split; reflexivity. Qed.

Example deleting_pool_1_of_two_pools :
  match delete_worker_pool two_pools 1 with
  | Ok db =>
      db "worker_pool" = [pool_row 2 "k8s" None]
      /\ db "worker" = [worker_row 200 "w1" 2]
      /\ db "worker_pool_queue" = [queue_row 20 "default" 2 1 (Some 3%Z)]
  | Raised _ => False
  end.
Proof. vm_compute. repeat split; reflexivity. Qed.

(** ** The effective concurrency limit *)

Lemma ceiling_min_is_min (a b : ceiling) :
  ceiling_le (ceiling_min a b) a
  /\ ceiling_le (ceiling_min a b) b
  /\ (ceiling_min a b = a \/ ceiling_min a b = b).
Proof.
  destruct a as [x |], b as [y |]; cbn; repeat split; auto; try lia.
  destruct (Z.min_spec x y) as [[_ ->] | [_ ->]]; auto.
Qed.

(** C9.  The column [concurrency_limit] of [worker_pool] and of
    [worker_pool_queue] is declared nullable, and a row whose column is
    [NULL] has no limit.  The effective limit of a queue is the minimum of
    the pool's and the queue's limits with a limit that is not set counted as
    infinity: it is below both, it is one of the two, it is no limit exactly
    when neither is set, and a limit it gives is the pool's or the queue's
    own number, never a number made up for "unbounded".  Pool 5 and queue
    unset give 5; pool unset and queue 3 give 3; both unset give no limit. *)
Theorem effective_concurrency_limit_is_the_min :
  (nullable_column schema "worker_pool" "concurrency_limit" = true
   /\ nullable_column schema "worker_pool_queue" "concurrency_limit" = true)
  /\ (forall r : Row,
        get r "concurrency_limit" = NULL ->
        or_infinity (concurrency_limit r) = Unbounded)
  /\ (forall pool queue : Row,
        let e := or_infinity (effective_concurrency_limit pool queue) in
        let a := or_infinity (concurrency_limit pool) in
        let b := or_infinity (concurrency_limit queue) in
        e = ceiling_min a b
        /\ ceiling_le e a /\ ceiling_le e b /\ (e = a \/ e = b))
  /\ (forall pool queue : Row,
        effective_concurrency_limit pool queue = None
        <-> concurrency_limit pool = None /\ concurrency_limit queue = None)
  /\ (forall (pool queue : Row) (n : Z),
        effective_concurrency_limit pool queue = Some n ->
        concurrency_limit pool = Some n \/ concurrency_limit queue = Some n)
  /\ effective_concurrency_limit (pool_row 1 "docker" (Some 5%Z))
                                 (queue_row 10 "default" 1 1 None)
     = Some 5%Z
  /\ effective_concurrency_limit (pool_row 1 "docker" None)
                                 (queue_row 10 "default" 1 1 (Some 3%Z))
     = Some 3%Z
  /\ effective_concurrency_limit (pool_row 1 "docker" None)
                                 (queue_row 10 "default" 1 1 None)
     = None.
Proof.
  split; [split; reflexivity |].
  split; [intros r H; unfold concurrency_limit; rewrite H; reflexivity |].
  split.
  { intros pool queue e a b.
    assert (He : e = ceiling_min a b).
    { unfold e, a, b, effective_concurrency_limit.
      destruct (ceiling_min _ _); reflexivity. }
    rewrite He. split; [reflexivity |]. apply ceiling_min_is_min. }
  split.
  { intros pool queue. unfold effective_concurrency_limit.
    destruct (concurrency_limit pool), (concurrency_limit queue); cbn;
      split; try discriminate; try tauto; intros [H1 H2]; discriminate. }
  split.
  { intros pool queue n. unfold effective_concurrency_limit.
    destruct (concurrency_limit pool) as [x |],
             (concurrency_limit queue) as [y |]; cbn;
      intros [= <-]; auto.
    destruct (Z.min_spec x y) as [[_ ->] | [_ ->]]; auto. }
  repeat split; reflexivity.
Qed.

(** ** A pass on runs that are due and runs that are not *)

Section MixedFacts.

Variable rule : StateType -> StateType -> bool.
Variable ts : Z.
Variable clock : nat -> Z.
Variable batch_size : nat.

Local Notation "'set_flow_run_state'" := (state_machine.set_state rule ts).
Local Notation "'mark_all'" := (mark_each clock set_flow_run_state).
Local Notation "'one_batch'" := (batch clock set_flow_run_state batch_size).
Local Notation "'loop'" := (batch_loop clock set_flow_run_state batch_size).
Local Notation "'due'" := (is_due (clock 0)).
Local Notation "'not_due'" := (fun r => negb (is_due (clock 0) r)).
Local Notation "'fail'" := (fail_due ts (is_due (clock 0))).
Local Notation "'paused'" := (filter is_paused).

Lemma due_of_expired (r : FlowRun) : expired clock r -> due r = true.
Proof.
  intros (d & Hd & Hlt). unfold is_due. rewrite Hd. apply Z.ltb_lt. apply Hlt.
Qed.

Lemma due_of_waiting (r : FlowRun) : waiting clock r -> due r = false.
Proof.
  intros (d & Hd & Hle). unfold is_due. rewrite Hd. apply Z.ltb_ge. apply Hle.
Qed.

Lemma fail_due_nil (n : nat) : fail n [] = [].
Proof. destruct n; reflexivity. Qed.

Lemma fail_due_0 (s : Store) : fail 0 s = s.
Proof. destruct s; reflexivity. Qed.

Lemma fail_due_not_paused (n : nat) (x : FlowRun) (s : Store) :
  is_paused x = false -> fail n (x :: s) = x :: fail n s.
Proof.
  intros Hp. destruct n; [rewrite !fail_due_0; reflexivity |].
  cbn [fail_due]. rewrite Hp. reflexivity.
Qed.

Lemma fail_due_paused (n : nat) (x : FlowRun) (s : Store) :
  is_paused x = true ->
  fail (S n) (x :: s) = (if due x then failed_row ts x else x) :: fail n s.
Proof. intros Hp. cbn [fail_due]. rewrite Hp. reflexivity. Qed.

Lemma ids_fail_due (n : nat) (s : Store) : ids (fail n s) = ids s.
Proof.
  revert n. induction s as [| r s IH]; intros n.
  - rewrite fail_due_nil. reflexivity.
  - destruct n as [| n]; [reflexivity |]. cbn.
    destruct (is_paused r); [destruct (due r) |]; cbn; f_equal; apply IH.
Qed.

Lemma paused_fail_due (n : nat) (s : Store) :
  paused (fail n s)
  = filter not_due (firstn n (paused s)) ++ skipn n (paused s).
Proof.
  revert n. induction s as [| x s IH]; intros n.
  - rewrite fail_due_nil. cbn. rewrite firstn_nil, skipn_nil. reflexivity.
  - destruct n as [| n]; [reflexivity |].
    destruct (is_paused x) eqn:Hp.
    + rewrite (fail_due_paused n x s Hp). cbn [filter]. rewrite Hp.
      cbn [firstn skipn filter]. destruct (due x) eqn:Hd; cbn [negb].
      * cbn [filter is_paused failed_row state_type state type Failed
             StateType_eqb]. apply IH.
      * cbn [filter]. rewrite Hp. cbn [app]. f_equal. apply IH.
    + rewrite (fail_due_not_paused (S n) x s Hp). cbn [filter]. rewrite Hp.
      apply IH.
Qed.

Lemma fail_all_due_fail_due (n : nat) (s : Store) :
  fail_all_due ts due (fail n s) = fail_all_due ts due s.
Proof.
  unfold fail_all_due. revert n. induction s as [| x s IH]; intros n.
  - rewrite fail_due_nil. reflexivity.
  - destruct n as [| n]; [reflexivity |].
    destruct (is_paused x) eqn:Hp.
    + rewrite (fail_due_paused n x s Hp). cbn [map]. rewrite Hp, IH.
      destruct (due x) eqn:Hd; cbn [andb]; [| rewrite Hp, Hd; reflexivity].
      reflexivity.
    + rewrite (fail_due_not_paused (S n) x s Hp). cbn [map].
      rewrite Hp, IH. reflexivity.
Qed.

Lemma fail_due_all (n : nat) (s : Store) :
  List.length (paused s) <= n -> fail n s = fail_all_due ts due s.
Proof.
  unfold fail_all_due. revert n. induction s as [| x s IH]; intros n H.
  - rewrite fail_due_nil. reflexivity.
  - cbn [filter] in H. destruct (is_paused x) eqn:Hp.
    + destruct n as [| n]; [cbn in H; lia |].
      rewrite (fail_due_paused n x s Hp). cbn [map]. rewrite Hp. cbn [andb].
      f_equal. apply IH. cbn in H. lia.
    + rewrite (fail_due_not_paused n x s Hp). cbn [map]. rewrite Hp.
      cbn [andb]. f_equal. apply IH. exact H.
Qed.

(** Passing over the [k]-th Paused row, which is not due, changes nothing. *)
Lemma fail_due_skips (s : Store) (k : nat) (r : FlowRun) :
  nth_error (paused s) k = Some r -> due r = false ->
  fail (S k) s = fail k s.
Proof.
  revert k. induction s as [| x s IH]; intros k Hk Hd.
  - destruct k; discriminate Hk.
  - cbn [filter] in Hk. destruct (is_paused x) eqn:Hp.
    + rewrite (fail_due_paused k x s Hp). destruct k as [| k]; cbn in Hk.
      * injection Hk as <-. rewrite Hd, !fail_due_0. reflexivity.
      * rewrite (fail_due_paused k x s Hp). f_equal. apply IH; assumption.
    + rewrite !(fail_due_not_paused _ x s Hp). f_equal. apply IH; assumption.
Qed.

Lemma read_run_fail_due (s : Store) (k : nat) (r : FlowRun) :
  NoDup (ids s) ->
  nth_error (paused s) k = Some r ->
  read_run (fail k s) (id r) = Some r.
Proof.
  revert k. induction s as [| x s IH]; intros k Hnd Hk.
  - destruct k; discriminate Hk.
  - cbn in Hnd. apply NoDup_cons_iff in Hnd. destruct Hnd as [Hx Hnd].
    cbn [filter] in Hk. destruct (is_paused x) eqn:Hp.
    + destruct k as [| k]; cbn in Hk.
      * injection Hk as <-. cbn. rewrite Nat.eqb_refl. reflexivity.
      * rewrite (fail_due_paused k x s Hp). unfold read_run. cbn [find].
        replace (id (if due x then failed_row ts x else x)) with (id x)
          by (destruct (due x); reflexivity).
        rewrite (id_apart x r s Hx (proj1 (in_paused s k r Hk))).
        apply IH; assumption.
    + rewrite (fail_due_not_paused k x s Hp). unfold read_run. cbn [find].
      rewrite (id_apart x r s Hx (proj1 (in_paused s k r Hk))).
      apply IH; assumption.
Qed.

Lemma write_run_state_fail_due (s : Store) (k : nat) (r : FlowRun) :
  NoDup (ids s) ->
  nth_error (paused s) k = Some r ->
  due r = true ->
  write_run_state (fail k s) (id r) (Failed never_resumed) ts
  = fail (S k) s.
Proof.
  revert k. induction s as [| x s IH]; intros k Hnd Hk Hd.
  - destruct k; discriminate Hk.
  - cbn in Hnd. apply NoDup_cons_iff in Hnd. destruct Hnd as [Hx Hnd].
    cbn [filter] in Hk. destruct (is_paused x) eqn:Hp.
    + rewrite (fail_due_paused k x s Hp). destruct k as [| k]; cbn in Hk.
      * injection Hk as <-. rewrite Hd, !fail_due_0.
        cbn [write_run_state map]. rewrite Nat.eqb_refl.
        unfold failed_row. f_equal.
        apply (write_run_state_absent ts s (id x) _ Hx).
      * rewrite (fail_due_paused k x s Hp). cbn [write_run_state map].
        replace (id (if due x then failed_row ts x else x)) with (id x)
          by (destruct (due x); reflexivity).
        rewrite (id_apart x r s Hx (proj1 (in_paused s k r Hk))).
        f_equal. apply IH; assumption.
    + rewrite !(fail_due_not_paused _ x s Hp). cbn [write_run_state map].
      rewrite (id_apart x r s Hx (proj1 (in_paused s k r Hk))).
      f_equal. apply IH; assumption.
Qed.

Lemma mark_each_settled (s : Store) (l : list FlowRun) (k tk : nat) :
  NoDup (ids s) ->
  (forall j r, nth_error l j = Some r -> nth_error (paused s) (k + j) = Some r) ->
  Forall (settled clock) l ->
  mark_all l {| store := fail k s; ticks := tk |}
  = (Ok tt, {| store := fail (List.length l + k) s;
               ticks := List.length l + tk |},
     map fail_call (ids (filter due l))).
Proof.
  intros Hnd. revert k tk.
  induction l as [| r l IH]; intros k tk Hnth Hset; [reflexivity |].
  apply Forall_cons_iff in Hset. destruct Hset as [Hr Hset].
  assert (Hk : nth_error (paused s) k = Some r).
  { specialize (Hnth 0 r eq_refl). rewrite Nat.add_0_r in Hnth. exact Hnth. }
  assert (Hrest : forall j r', nth_error l j = Some r' ->
                               nth_error (paused s) (S k + j) = Some r').
  { intros j r' Hj. rewrite <- (Hnth (S j) r' Hj). f_equal. lia. }
  cbn [mark_each]. unfold bind. destruct Hr as [He | Hw].
  - pose proof (due_of_expired r He) as Hd.
    destruct He as (d & Hdl & Hlt).
    rewrite (mark_due clock set_flow_run_state r _ d Hdl (Hlt _)).
    cbn [store ticks].
    rewrite (set_state_forced_on_paused rule ts (fail k s) r
               (Failed never_resumed) (read_run_fail_due s k r Hnd Hk)
               (proj2 (in_paused s k r Hk)) eq_refl).
    rewrite (write_run_state_fail_due s k r Hnd Hk Hd).
    rewrite (IH (S k) (S tk) Hrest Hset).
    cbn [filter]. rewrite Hd.
    cbn [List.length ids map app]. rewrite !Nat.add_succ_r. reflexivity.
  - pose proof (due_of_waiting r Hw) as Hd.
    destruct Hw as (d & Hdl & Hle).
    rewrite (mark_not_due clock set_flow_run_state r _ d Hdl (Hle _)).
    unfold tick. cbn [store ticks].
    rewrite <- (fail_due_skips s k r Hk Hd).
    rewrite (IH (S k) (S tk) Hrest Hset).
    cbn [filter]. rewrite Hd.
    cbn [List.length app]. rewrite !Nat.add_succ_r. reflexivity.
Qed.

(** One turn on a table whose Paused rows are settled: those of the
    selected rows that are due are failed, the others are passed over. *)
Lemma batch_of_settled (s : Store) (tk : nat) :
  NoDup (ids s) ->
  Forall (settled clock) (paused s) ->
  let sel := firstn batch_size (paused s) in
  one_batch {| store := s; ticks := tk |}
  = (Ok (Nat.ltb (List.length sel) batch_size),
     {| store := fail (List.length sel) s; ticks := List.length sel + tk |},
     committed (ids sel) (map fail_call (ids (filter due sel)))).
Proof.
  intros Hnd Hset sel. rewrite batch_eq. cbn [store].
  unfold select_paused. fold sel.
  assert (H : mark_all sel {| store := s; ticks := tk |}
              = (Ok tt, {| store := fail (List.length sel) s;
                           ticks := List.length sel + tk |},
                 map fail_call (ids (filter due sel)))).
  { rewrite <- (fail_due_0 s) at 1.
    rewrite (mark_each_settled s sel 0 tk Hnd).
    - rewrite Nat.add_0_r. reflexivity.
    - intros j r Hj. apply (nth_error_firstn_some batch_size). exact Hj.
    - apply Forall_forall. intros r Hr. rewrite Forall_forall in Hset.
      apply Hset. apply (in_firstn _ _ _ Hr). }
  rewrite H. reflexivity.
Qed.

Lemma set_state_calls_committed (sel l : list nat) :
  set_state_calls (committed sel (map fail_call l)) = l.
Proof.
  unfold committed. cbn [set_state_calls]. rewrite set_state_calls_app.
  cbn. rewrite app_nil_r. induction l as [| i l IH]; cbn;
    [reflexivity | f_equal; exact IH].
Qed.

Lemma filter_due_not_due (l : list FlowRun) : filter due (filter not_due l) = [].
Proof.
  induction l as [| r l IH]; cbn; [reflexivity |].
  destruct (due r) eqn:Hd; cbn; [exact IH | rewrite Hd; exact IH].
Qed.

(** When fewer Paused runs than a batch holds are not due, every full batch
    fails a run, and the loop is left after as many turns as there are due
    runs, and one. *)
Lemma batch_loop_settles (D : nat) :
  forall (s : Store) (tk : nat),
    NoDup (ids s) ->
    Forall (settled clock) (paused s) ->
    List.length (filter not_due (paused s)) < batch_size ->
    List.length (filter due (paused s)) <= D ->
    exists w' ev,
      loop (S D) {| store := s; ticks := tk |} = (Returned, w', ev)
      /\ store w' = fail_all_due ts due s
      /\ set_state_calls ev = ids (filter due (paused s)).
Proof.
  induction D as [| D IH]; intros s tk Hnd Hset Hwait Hdue.
  - (* no run is due: the one batch is short *)
    assert (Hlen : List.length (paused s) < batch_size).
    { rewrite <- (filter_length due (paused s)). lia. }
    cbn [batch_loop]. rewrite (batch_of_settled s tk Hnd Hset). cbv zeta.
    rewrite firstn_all2 by lia.
    replace (Nat.ltb _ _) with true by (symmetry; apply Nat.ltb_lt; lia).
    eexists. eexists. split; [reflexivity |]. cbn [store].
    split; [apply fail_due_all; lia | apply set_state_calls_committed].
  - pose proof (batch_of_settled s tk Hnd Hset) as Hb. cbv zeta in Hb.
    set (sel := firstn batch_size (paused s)) in *.
    destruct (Nat.ltb_spec (List.length sel) batch_size) as [Hshort | Hfull].
    + (* a short batch: every Paused run was selected *)
      assert (Hall : sel = paused s).
      { unfold sel in *. rewrite length_firstn in Hshort.
        apply firstn_all2. lia. }
      cbn [batch_loop]. rewrite Hb.
      eexists. eexists. split; [reflexivity |]. cbn [store].
      rewrite Hall. split; [apply fail_due_all; lia |].
      apply set_state_calls_committed.
    + (* a full batch: at least one of its runs is due *)
      assert (Hsel : List.length sel = batch_size).
      { unfold sel in *. rewrite length_firstn in *. lia. }
      assert (Hsplit : paused s = sel ++ skipn batch_size (paused s))
        by (unfold sel; symmetry; apply firstn_skipn).
      assert (Hw : List.length (filter not_due sel)
                   + List.length (filter not_due (skipn batch_size (paused s)))
                   = List.length (filter not_due (paused s))).
      { rewrite <- length_app, <- filter_app, <- Hsplit. reflexivity. }
      assert (Hd : List.length (filter due sel)
                   + List.length (filter due (skipn batch_size (paused s)))
                   = List.length (filter due (paused s))).
      { rewrite <- length_app, <- filter_app, <- Hsplit. reflexivity. }
      pose proof (filter_length due sel) as Hpart.
      rewrite Hsel in Hb.
      destruct (IH (fail batch_size s) (batch_size + tk))
        as (w' & ev & Hloop & Hstore & Hcalls).
      * rewrite ids_fail_due. exact Hnd.
      * rewrite paused_fail_due. fold sel. apply Forall_app. split.
        -- apply Forall_forall. intros r Hr. apply filter_In in Hr.
           rewrite Forall_forall in Hset. apply Hset.
           apply (in_firstn batch_size). exact (proj1 Hr).
        -- apply Forall_forall. intros r Hr.
           rewrite Forall_forall in Hset. apply Hset.
           apply (in_skipn batch_size). exact Hr.
      * rewrite paused_fail_due. fold sel. rewrite filter_app, length_app.
        pose proof (filter_length_le not_due (filter not_due sel)). lia.
      * rewrite paused_fail_due. fold sel. rewrite filter_app, length_app.
        rewrite filter_due_not_due. cbn [List.length]. lia.
      * rewrite (batch_loop_continues rule ts clock batch_size _ _ _ _ Hb).
        rewrite Hloop. eexists. eexists. split; [reflexivity |].
        split.
        -- rewrite Hstore. apply fail_all_due_fail_due.
        -- rewrite set_state_calls_app, set_state_calls_committed, Hcalls.
           rewrite paused_fail_due. fold sel.
           rewrite filter_app, filter_due_not_due. cbn [app].
           unfold ids. rewrite <- map_app, <- filter_app, <- Hsplit.
           reflexivity.
Qed.

End MixedFacts.

(** ** What the service calls *)

Section CallFacts.

Variable clock : nat -> Z.
Variable set_flow_run_state :
  Store -> nat -> State -> bool -> outcome unit * Store.
Variable batch_size : nat.

Lemma mark_calls_failing (l : list FlowRun) (w : Env) :
  Forall failing_call (snd (mark_each clock set_flow_run_state l w)).
Proof.
  revert w. induction l as [| run l IH]; intros w; cbn; [constructor |].
  unfold bind.
  assert (Hm : Forall failing_call
                 (snd (_mark_flow_run_as_failed clock set_flow_run_state run w))).
  { destruct (pause_timeout (state_details (state run))) as [d |] eqn:Hd.
    - destruct (Z.ltb_spec d (clock (ticks w))) as [Hlt | Hge].
      + rewrite (mark_due clock set_flow_run_state run w d Hd Hlt).
        destruct (set_flow_run_state _ _ _ _) as [[u | e] s']; cbn;
          repeat constructor.
      + rewrite (mark_not_due clock set_flow_run_state run w d Hd Hge).
        constructor.
    - rewrite (mark_no_deadline clock set_flow_run_state run w Hd).
      constructor. }
  destruct (_mark_flow_run_as_failed clock set_flow_run_state run w)
    as [[[u | e] w1] t1]; cbn in Hm |- *; [| exact Hm].
  specialize (IH w1).
  destruct (mark_each clock set_flow_run_state l w1) as [[r2 w2] t2].
  cbn in IH |- *. apply Forall_app. split; assumption.
Qed.

Lemma batch_calls_failing (w : Env) :
  Forall failing_call (snd (batch clock set_flow_run_state batch_size w)).
Proof.
  rewrite batch_eq.
  pose proof (mark_calls_failing (select_paused batch_size (store w)) w) as H.
  destruct (mark_each clock set_flow_run_state _ w) as [[[u | e] w1] t];
    cbn in H |- *; unfold committed;
    repeat (constructor; [exact I |]);
    (apply Forall_app; split; [exact H | repeat constructor]).
Qed.

(** Whatever the table, the clock and the state machine, and however long
    the pass is followed, every call of [set_flow_run_state] it makes
    proposes the Failed state with the fixed message, forced. *)
Lemma run_once_calls_failing (fuel : nat) (w : Env) :
  Forall failing_call
         (snd (run_once clock set_flow_run_state batch_size fuel w)).
Proof.
  assert (Hl : forall fuel w,
             Forall failing_call
               (snd (batch_loop clock set_flow_run_state batch_size fuel w))).
  { clear fuel w. induction fuel as [| fuel IH]; intros w; cbn;
      [constructor |].
    pose proof (batch_calls_failing w) as Hb.
    destruct (batch clock set_flow_run_state batch_size w)
      as [[[[|] | e] w1] t1]; cbn in Hb |- *; try exact Hb.
    specialize (IH w1).
    destruct (batch_loop clock set_flow_run_state batch_size fuel w1)
      as [[r w2] t2]. cbn in IH |- *. apply Forall_app. split; assumption. }
  unfold run_once. specialize (Hl fuel w).
  destruct (batch_loop clock set_flow_run_state batch_size fuel w)
    as [[[| e |] w1] t1]; cbn in Hl |- *; try exact Hl.
  apply Forall_app. split; [exact Hl | repeat constructor].
Qed.

Lemma in_calls_event (ev : list Event) (i : nat) :
  Forall failing_call ev -> In i (set_state_calls ev) ->
  In (fail_call i) ev.
Proof.
  induction ev as [| e ev IH]; intros Hf Hin; [contradiction |].
  apply Forall_cons_iff in Hf. destruct Hf as [He Hf].
  destruct e; cbn in Hin; try (right; apply IH; assumption).
  destruct Hin as [<- | Hin]; [| right; apply IH; assumption].
  cbn in He. destruct He as [-> ->]. left. reflexivity.
Qed.

End CallFacts.

Lemma same_id_same_row (s : Store) (x r : FlowRun) :
  NoDup (ids s) -> In x s -> In r s -> id x = id r -> x = r.
Proof.
  induction s as [| y s IH]; intros Hnd Hx Hr Hid; [contradiction |].
  cbn in Hnd. apply NoDup_cons_iff in Hnd. destruct Hnd as [Hy Hnd].
  destruct Hx as [<- | Hx], Hr as [<- | Hr].
  - reflexivity.
  - exfalso. apply Hy. rewrite Hid. apply in_map. exact Hr.
  - exfalso. apply Hy. rewrite <- Hid. apply in_map. exact Hx.
  - apply IH; assumption.
Qed.

Lemma read_run_map (g : FlowRun -> FlowRun) (s : Store) (r : FlowRun) :
  (forall x, id (g x) = id x) ->
  NoDup (ids s) -> In r s ->
  read_run (map g s) (id r) = Some (g r).
Proof.
  intros Hg. induction s as [| y s IH]; intros Hnd Hr; [contradiction |].
  cbn in Hnd. apply NoDup_cons_iff in Hnd. destruct Hnd as [Hy Hnd].
  unfold read_run. cbn [map find]. rewrite Hg. destruct Hr as [<- | Hr].
  - rewrite Nat.eqb_refl. reflexivity.
  - rewrite (id_apart y r s Hy Hr). apply IH; assumption.
Qed.

(** When fewer Paused runs than a batch holds are not due, a pass returns:
    every call it made is the forced call with the Failed state and the
    fixed message; every Paused run whose deadline has passed has had that
    call and is Failed with that message; and no Paused run whose deadline
    lies ahead has been called on or changed.  The table has unique ids and
    the deadline of no Paused run goes by during the pass; the state
    machine is the one the specification describes, with any rule table. *)
Theorem due_runs_are_failed_and_waiting_runs_kept :
  forall (rule : StateType -> StateType -> bool) (ts : Z) (clock : nat -> Z)
         (batch_size : nat) (s : Store) (tk : nat),
    NoDup (ids s) ->
    Forall (settled clock) (filter is_paused s) ->
    List.length (filter (fun r => negb (is_due (clock 0) r))
                        (filter is_paused s)) < batch_size ->
    exists fuel w' ev,
      (forall more,
          run_once clock (state_machine.set_state rule ts) batch_size
                   (fuel + more) {| store := s; ticks := tk |}
          = (Returned, w', ev))
      /\ Forall failing_call ev
      /\ (forall r, In r s -> is_paused r = true -> expired clock r ->
                    In (fail_call (id r)) ev
                    /\ read_run (store w') (id r) = Some (failed_row ts r))
      /\ (forall r, In r s -> is_paused r = true -> waiting clock r ->
                    ~ In (id r) (set_state_calls ev)
                    /\ read_run (store w') (id r) = Some r).
Proof.
  intros rule ts clock bs s tk Hnd Hset Hwait.
  destruct (batch_loop_settles rule ts clock bs
              (List.length (filter (is_due (clock 0)) (filter is_paused s)))
              s tk Hnd Hset Hwait (Nat.le_refl _))
    as (w' & ev & Hloop & Hstore & Hcalls).
  set (fuel := S (List.length (filter (is_due (clock 0)) (filter is_paused s))))
    in *.
  assert (Hrun : forall more,
             run_once clock (state_machine.set_state rule ts) bs
                      (fuel + more) {| store := s; ticks := tk |}
             = (Returned, w', ev ++ [EvLog INFO finished_monitoring])).
  { intros more. unfold run_once.
    rewrite (batch_loop_more _ _ _ fuel more _ _ _ _ Hloop) by discriminate.
    reflexivity. }
  assert (Hfail : Forall failing_call (ev ++ [EvLog INFO finished_monitoring])).
  { pose proof (run_once_calls_failing clock (state_machine.set_state rule ts)
                  bs (fuel + 0) {| store := s; ticks := tk |}) as H.
    rewrite Hrun in H. exact H. }
  assert (Hc : set_state_calls (ev ++ [EvLog INFO finished_monitoring])
               = ids (filter (is_due (clock 0)) (filter is_paused s))).
  { rewrite set_state_calls_app. cbn. rewrite app_nil_r. exact Hcalls. }
  assert (Hg : forall x, id (if is_paused x && is_due (clock 0) x
                             then failed_row ts x else x) = id x)
    by (intros x; destruct (_ && _); reflexivity).
  exists fuel, w', (ev ++ [EvLog INFO finished_monitoring]).
  split; [exact Hrun |]. split; [exact Hfail |]. split.
  - intros r Hr Hp He. pose proof (due_of_expired clock r He) as Hd. split.
    + apply in_calls_event; [exact Hfail |]. rewrite Hc.
      apply in_map. apply filter_In. split; [| exact Hd].
      apply filter_In. auto.
    + rewrite Hstore. unfold fail_all_due.
      rewrite (read_run_map _ s r Hg Hnd Hr), Hp, Hd. reflexivity.
  - intros r Hr Hp Hw. pose proof (due_of_waiting clock r Hw) as Hd. split.
    + rewrite Hc. intros Hin. apply in_map_iff in Hin.
      destruct Hin as (x & Hid & Hx). apply filter_In in Hx.
      destruct Hx as [Hx Hdx]. apply filter_In in Hx. destruct Hx as [Hx _].
      rewrite (same_id_same_row s x r Hnd Hx Hr Hid) in Hdx. congruence.
    + rewrite Hstore. unfold fail_all_due.
      rewrite (read_run_map _ s r Hg Hnd Hr), Hp, Hd. reflexivity.
Qed.

(** The theorem at five runs and batches of two: runs 1, 3 and 5 are due,
    run 2 waits, run 4 is not Paused. *)
Lemma due_runs_are_failed_and_waiting_runs_kept_witness :
  let clock := standing_at 0 in
  let s := [paused_run 1 (Some (-1)%Z); paused_run 2 (Some 3600%Z);
            paused_run 3 (Some (-5)%Z);
            {| id := 4; state := Failed never_resumed; state_timestamp := 0 |};
            paused_run 5 (Some (-1)%Z)] in
  NoDup (ids s)
  /\ Forall (settled clock) (filter is_paused s)
  /\ List.length (filter (fun r => negb (is_due (clock 0) r))
                         (filter is_paused s)) < 2
  /\ exists fuel w' ev,
      (forall more,
          run_once clock (state_machine.set_state (fun _ _ => false) 7) 2
                   (fuel + more) {| store := s; ticks := 0 |}
          = (Returned, w', ev))
      /\ Forall failing_call ev
      /\ (forall r, In r s -> is_paused r = true -> expired clock r ->
                    In (fail_call (id r)) ev
                    /\ read_run (store w') (id r) = Some (failed_row 7 r))
      /\ (forall r, In r s -> is_paused r = true -> waiting clock r ->
                    ~ In (id r) (set_state_calls ev)
                    /\ read_run (store w') (id r) = Some r).
Proof.
  intros clock s.
  assert (H1 : NoDup (ids s)).
  { cbn. repeat constructor; cbn; intuition discriminate. }
  assert (H2 : Forall (settled clock) (filter is_paused s)).
  { cbn. unfold settled, expired, waiting, clock, standing_at.
    repeat apply Forall_cons; [| | | | apply Forall_nil].
    - left. exists (-1)%Z. split; [reflexivity | intros k; lia].
    - right. exists 3600%Z. split; [reflexivity | intros k; lia].
    - left. exists (-5)%Z. split; [reflexivity | intros k; lia].
    - left. exists (-1)%Z. split; [reflexivity | intros k; lia]. }
  assert (H3 : List.length (filter (fun r => negb (is_due (clock 0) r))
                                   (filter is_paused s)) < 2)
    by (cbn; lia).
  split; [exact H1 |]. split; [exact H2 |]. split; [exact H3 |].
  exact (due_runs_are_failed_and_waiting_runs_kept
           (fun _ _ => false) 7 clock 2 s 0 H1 H2 H3).
Defined.

(** What the pass of the witness does: three full batches, in each of which
    run 2 is selected again, then a short one that finds run 2 alone. *)
Example a_pass_over_five_runs_in_batches_of_two :
  run_once (standing_at 0) (state_machine.set_state (fun _ _ => false) 7) 2 4
           (at_start
              [paused_run 1 (Some (-1)%Z); paused_run 2 (Some 3600%Z);
               paused_run 3 (Some (-5)%Z);
               {| id := 4; state := Failed never_resumed; state_timestamp := 0 |};
               paused_run 5 (Some (-1)%Z)])
  = (Returned,
     {| store :=
          [failed_row 7 (paused_run 1 (Some (-1)%Z));
           paused_run 2 (Some 3600%Z);
           failed_row 7 (paused_run 3 (Some (-5)%Z));
           {| id := 4; state := Failed never_resumed; state_timestamp := 0 |};
           failed_row 7 (paused_run 5 (Some (-1)%Z))];
        ticks := 7 |},
     committed [1; 2] [fail_call 1]
     ++ committed [2; 3] [fail_call 3]
     ++ committed [2; 5] [fail_call 5]
     ++ committed [2] []
     ++ [EvLog INFO finished_monitoring]).
Proof. vm_compute. reflexivity. Qed.

(** ** A pass returns only when every Paused run has a deadline *)

Section DeadlineFacts.

Variable rule : StateType -> StateType -> bool.
Variable ts : Z.
Variable clock : nat -> Z.
Variable batch_size : nat.

Local Notation "'set_flow_run_state'" := (state_machine.set_state rule ts).
Local Notation "'mark_all'" := (mark_each clock set_flow_run_state).
Local Notation "'loop'" := (batch_loop clock set_flow_run_state batch_size).

(** Marking that goes through keeps the ids of the table and every row it
    was not asked to mark. *)
Lemma mark_each_frame (l : list FlowRun) :
  forall (w w' : Env) (t : list Event),
    mark_all l w = (Ok tt, w', t) ->
    ids (store w') = ids (store w)
    /\ forall x, In x (store w) -> ~ In (id x) (ids l) -> In x (store w').
Proof.
  induction l as [| run l IH]; intros w w' t; cbn [mark_each].
  - unfold ret. intros [= <- <-]. auto.
  - unfold bind.
    destruct (_mark_flow_run_as_failed clock set_flow_run_state run w)
      as [[[[] | e] w1] t1] eqn:Hm; [| discriminate].
    destruct (mark_all l w1) as [[[[] | e] w2] t2] eqn:Hl; [| discriminate].
    intros [= <- <-]. destruct (IH _ _ _ Hl) as [Hids Hkeep].
    assert (H1 : ids (store w1) = ids (store w)
                 /\ forall x, In x (store w) -> id x <> id run ->
                              In x (store w1)).
    { destruct (pause_timeout (state_details (state run))) as [d |] eqn:Hd.
      - destruct (Z.ltb_spec d (clock (ticks w))) as [Hlt | Hge].
        + rewrite (mark_due clock set_flow_run_state run w d Hd Hlt) in Hm.
          destruct (set_flow_run_state (store w) (id run) _ true)
            as [[[] | e] s'] eqn:Hs; [| discriminate Hm].
          injection Hm as <- _. cbn [store].
          apply (set_state_frame rule ts _ _ _ _ _ _ Hs).
        + rewrite (mark_not_due clock set_flow_run_state run w d Hd Hge) in Hm.
          injection Hm as <- _. cbn [store tick]. auto.
      - rewrite (mark_no_deadline clock set_flow_run_state run w Hd) in Hm.
        discriminate Hm. }
    destruct H1 as [Hids1 Hkeep1]. split; [congruence |].
    intros x Hx Hnot. apply Hkeep.
    + apply Hkeep1; [exact Hx |]. intros E. apply Hnot. left. symmetry.
      exact E.
    + intros Hin. apply Hnot. right. exact Hin.
Qed.

(** While a Paused run without a deadline is in the table, the loop is
    never left by its [break]: the run is selected, and the turn raises, or
    it is not, and then the batch was full. *)
Lemma batch_loop_needs_deadlines (fuel : nat) :
  forall (s : Store) (tk : nat) (r0 : FlowRun),
    NoDup (ids s) -> In r0 s -> is_paused r0 = true ->
    pause_timeout (state_details (state r0)) = None ->
    fst (fst (loop fuel {| store := s; ticks := tk |})) <> Returned.
Proof.
  induction fuel as [| fuel IH]; intros s tk r0 Hnd Hin Hp Hnone;
    [discriminate |].
  cbn [batch_loop]. rewrite batch_eq. cbn [store].
  set (sel := select_paused batch_size s).
  destruct (mark_all sel {| store := s; ticks := tk |})
    as [[[[] | e] w1] t] eqn:Hm; [| discriminate].
  assert (Hnot : ~ In r0 sel).
  { intros Hsel. apply in_split in Hsel. destruct Hsel as (pre & post & E).
    destruct (mark_each_no_deadline clock set_flow_run_state pre post r0
                {| store := s; ticks := tk |} Hnone) as (e & w' & t' & Hr).
    rewrite <- E, Hm in Hr. discriminate Hr. }
  assert (Hpaused : In r0 (filter is_paused s)) by (apply filter_In; auto).
  destruct (Nat.ltb_spec (List.length sel) batch_size) as [Hshort | Hfull].
  - exfalso. apply Hnot. unfold sel, select_paused in *.
    rewrite length_firstn in Hshort. rewrite firstn_all2 by lia.
    exact Hpaused.
  - destruct (mark_each_frame sel _ _ _ Hm) as [Hids Hkeep].
    cbn [store] in Hids, Hkeep.
    assert (Hin1 : In r0 (store w1)).
    { apply Hkeep; [exact Hin |]. intros Hid. apply in_map_iff in Hid.
      destruct Hid as (x & Hidx & Hx). apply Hnot.
      assert (Hxs : In x s).
      { unfold sel, select_paused in Hx. apply in_firstn in Hx.
        apply filter_In in Hx. exact (proj1 Hx). }
      rewrite <- (same_id_same_row s x r0 Hnd Hxs Hin Hidx). exact Hx. }
    destruct w1 as [s1 tk1]. cbn [store] in *.
    specialize (IH s1 tk1 r0). rewrite Hids in IH.
    specialize (IH Hnd Hin1 Hp Hnone).
    destruct (loop fuel {| store := s1; ticks := tk1 |}) as [[r w2] t2].
    exact IH.
Qed.

End DeadlineFacts.

(** A pass over a table (with unique ids) that holds a Paused run without a
    deadline never returns, however long it is followed: it raises, or it
    is still going round.  The state machine is the one the specification
    describes, with any rule table. *)
Theorem run_once_returns_only_with_deadlines :
  forall (rule : StateType -> StateType -> bool) (ts : Z) (clock : nat -> Z)
         (batch_size fuel : nat) (s : Store) (tk : nat) (r0 : FlowRun),
    NoDup (ids s) -> In r0 s -> is_paused r0 = true ->
    pause_timeout (state_details (state r0)) = None ->
    fst (fst (run_once clock (state_machine.set_state rule ts) batch_size fuel
                       {| store := s; ticks := tk |})) <> Returned.
Proof.
  intros rule ts clock bs fuel s tk r0 Hnd Hin Hp Hnone.
  pose proof (batch_loop_needs_deadlines rule ts clock bs fuel s tk r0
                Hnd Hin Hp Hnone) as H.
  unfold run_once.
  destruct (batch_loop clock (state_machine.set_state rule ts) bs fuel _)
    as [[[| e |] w1] t1]; cbn in H |- *; [contradiction | |]; discriminate.
Qed.

(** The theorem at three Paused runs of which the second has no deadline. *)
Lemma run_once_returns_only_with_deadlines_witness :
  let s := [paused_run 1 (Some (-1)%Z); paused_run 2 None;
            paused_run 3 (Some (-1)%Z)] in
  NoDup (ids s)
  /\ In (paused_run 2 None) s
  /\ is_paused (paused_run 2 None) = true
  /\ pause_timeout (state_details (state (paused_run 2 None))) = None
  /\ fst (fst (run_once (standing_at 0)
                        (state_machine.set_state (fun _ _ => false) 0)
                        default_batch_size 9
                        {| store := s; ticks := 0 |})) <> Returned.
Proof.
  intros s.
  assert (H1 : NoDup (ids s)).
  { cbn. repeat constructor; cbn; intuition discriminate. }
  assert (H2 : In (paused_run 2 None) s) by (cbn; auto).
  assert (H3 : is_paused (paused_run 2 None) = true) by reflexivity.
  assert (H4 : pause_timeout (state_details (state (paused_run 2 None))) = None)
    by reflexivity.
  split; [exact H1 |]. split; [exact H2 |]. split; [exact H3 |].
  split; [exact H4 |].
  exact (run_once_returns_only_with_deadlines
           (fun _ _ => false) 0 (standing_at 0) default_batch_size 9 s 0
           (paused_run 2 None) H1 H2 H3 H4).
Defined.

(** ** The shape of a pass *)

Section ShapeFacts.

Variable clock : nat -> Z.
Variable set_flow_run_state :
  Store -> nat -> State -> bool -> outcome unit * Store.
Variable batch_size : nat.

Lemma calls_within_skip (i : nat) (selected : list nat) (calls : list Event) :
  calls_within selected calls -> calls_within (i :: selected) calls.
Proof.
  intros (called & -> & Hsub). exists called. split; [reflexivity |].
  apply subsequence_skip. exact Hsub.
Qed.

Lemma calls_within_take (i : nat) (selected : list nat) (calls : list Event) :
  calls_within selected calls ->
  calls_within (i :: selected) (fail_call i :: calls).
Proof.
  intros (called & -> & Hsub). exists (i :: called). split; [reflexivity |].
  apply subsequence_take. exact Hsub.
Qed.

Lemma calls_within_none (selected : list nat) : calls_within selected [].
Proof.
  exists []. split; [reflexivity |].
  induction selected as [| i l IH]; constructor. exact IH.
Qed.

(** Marking calls on the runs it is given, in their order, each at most
    once, and on no other run. *)
Lemma mark_each_within (l : list FlowRun) (w : Env) :
  calls_within (ids l) (snd (mark_each clock set_flow_run_state l w)).
Proof.
  revert w. induction l as [| run l IH]; intros w; cbn [mark_each ids map].
  - apply calls_within_none.
  - unfold bind.
    destruct (pause_timeout (state_details (state run))) as [d |] eqn:Hd.
    + destruct (Z.ltb_spec d (clock (ticks w))) as [Hlt | Hge].
      * rewrite (mark_due clock set_flow_run_state run w d Hd Hlt).
        destruct (set_flow_run_state _ _ _ _) as [[u | e] s'].
        -- specialize (IH {| store := s'; ticks := S (ticks w) |}).
           destruct (mark_each clock set_flow_run_state l _) as [[r2 w2] t2].
           cbn in IH |- *. apply calls_within_take. exact IH.
        -- cbn. apply calls_within_take. apply calls_within_none.
      * rewrite (mark_not_due clock set_flow_run_state run w d Hd Hge).
        specialize (IH (tick w)).
        destruct (mark_each clock set_flow_run_state l _) as [[r2 w2] t2].
        cbn in IH |- *. apply calls_within_skip. exact IH.
    + rewrite (mark_no_deadline clock set_flow_run_state run w Hd).
      cbn. apply calls_within_none.
Qed.

Lemma select_paused_length (s : Store) :
  List.length (select_paused batch_size s) <= batch_size.
Proof. unfold select_paused. rewrite length_firstn. lia. Qed.

Lemma batch_loop_orderly (fuel : nat) (w : Env) :
  match batch_loop clock set_flow_run_state batch_size fuel w with
  | (Returned, _, t) =>
      orderly batch_size Returned (t ++ [EvLog INFO finished_monitoring])
  | (st, _, t) => orderly batch_size st t
  end.
Proof.
  revert w. induction fuel as [| fuel IH]; intros w; cbn [batch_loop].
  - constructor.
  - rewrite batch_eq.
    pose proof (mark_each_within (select_paused batch_size (store w)) w) as Hc.
    pose proof (select_paused_length (store w)) as Hlen.
    destruct (mark_each clock set_flow_run_state _ w) as [[[u | e] w1] t].
    + cbn [snd] in Hc.
      assert (Hids : List.length (ids (select_paused batch_size (store w)))
                     = List.length (select_paused batch_size (store w)))
        by (unfold ids; apply length_map).
      destruct (Nat.ltb_spec (List.length (select_paused batch_size (store w)))
                             batch_size) as [Hshort | Hfull].
      * apply orderly_returned; [lia | exact Hc].
      * specialize (IH w1).
        destruct (batch_loop clock set_flow_run_state batch_size fuel w1)
          as [[st w2] t2].
        destruct st; [rewrite <- app_assoc | |];
          (apply orderly_full; [lia | exact Hc | exact IH]).
    + cbn [snd] in Hc. apply orderly_raised; [| exact Hc].
      unfold ids. rewrite length_map. exact Hlen.
Qed.

End ShapeFacts.

(** Whatever the table, the clock, the state machine and the batch size,
    and however long the pass is followed, its events are orderly: full
    batches, each selected and marked inside a transaction of its own that
    commits; then, when the pass raised, one batch that is rolled back and
    nothing after it, or, when the pass returned, one batch shorter than
    the batch size, committed, and the one log record.  No batch holds more
    runs than the batch size, and within a batch [set_flow_run_state] is
    called only on runs the batch selected, in their order, each at most
    once, always with the Failed state, the fixed message and force. *)
Theorem run_once_is_orderly :
  forall (clock : nat -> Z)
         (set_flow_run_state :
            Store -> nat -> State -> bool -> outcome unit * Store)
         (batch_size fuel : nat) (w : Env),
    orderly batch_size
            (fst (fst (run_once clock set_flow_run_state batch_size fuel w)))
            (snd (run_once clock set_flow_run_state batch_size fuel w)).
Proof.
  intros clock sfrs bs fuel w. unfold run_once.
  pose proof (batch_loop_orderly clock sfrs bs fuel w) as H.
  destruct (batch_loop clock sfrs bs fuel w) as [[[| e |] w1] t]; exact H.
Qed.

(** ** Any state machine that fails Paused runs *)

Section AgreementFacts.

Variable clock : nat -> Z.
Variable set_flow_run_state :
  Store -> nat -> State -> bool -> outcome unit * Store.
Hypothesis contract : fails_paused_runs set_flow_run_state.
Variable rule : StateType -> StateType -> bool.
Variable ts : Z.
Variable batch_size : nat.

Local Notation "'reference'" := (state_machine.set_state rule ts).
Local Notation "'alike'" := (Forall2 same_but_stamps).

Lemma same_but_stamps_refl (x : FlowRun) : same_but_stamps x x.
Proof. left. reflexivity. Qed.

Lemma alike_refl (s : Store) : alike s s.
Proof. induction s; constructor; [apply same_but_stamps_refl | assumption]. Qed.

Lemma same_but_stamps_id (x y : FlowRun) : same_but_stamps x y -> id x = id y.
Proof. intros [-> | (H & _)]; [reflexivity | exact H]. Qed.

Lemma same_but_stamps_state (x y : FlowRun) :
  same_but_stamps x y -> state x = state y.
Proof. intros [-> | (_ & -> & ->)]; reflexivity. Qed.

Lemma same_but_stamps_paused (x y : FlowRun) :
  same_but_stamps x y -> is_paused x = true -> x = y.
Proof.
  intros [H | (_ & Hx & _)] Hp; [exact H |].
  unfold is_paused, state_type in Hp. rewrite Hx in Hp. discriminate Hp.
Qed.

Lemma alike_ids (s s' : Store) : alike s s' -> ids s = ids s'.
Proof.
  induction 1 as [| x y s s' Hxy _ IH]; [reflexivity |].
  unfold ids in *. cbn. rewrite (same_but_stamps_id x y Hxy), IH.
  reflexivity.
Qed.

Lemma alike_paused (s s' : Store) :
  alike s s' -> filter is_paused s = filter is_paused s'.
Proof.
  induction 1 as [| x y s s' Hxy _ IH]; [reflexivity |].
  cbn. unfold is_paused at 1 3, state_type.
  rewrite (same_but_stamps_state x y Hxy).
  fold (state_type y). fold (is_paused y).
  destruct (is_paused y) eqn:Hp; [| exact IH].
  f_equal; [| exact IH].
  apply same_but_stamps_paused; [exact Hxy |].
  unfold is_paused, state_type. rewrite (same_but_stamps_state x y Hxy).
  exact Hp.
Qed.

Lemma alike_write (s s' : Store) (i : nat) (t1 t2 : Z) :
  alike s s' ->
  alike (write_run_state s i (Failed never_resumed) t1)
        (write_run_state s' i (Failed never_resumed) t2).
Proof.
  induction 1 as [| x y s s' Hxy _ IH]; cbn; constructor; [| exact IH].
  rewrite <- (same_but_stamps_id x y Hxy).
  destruct (Nat.eqb (id x) i); [| exact Hxy].
  right. cbn. split; [reflexivity | split; reflexivity].
Qed.

Lemma alike_in_paused (s s' : Store) (r : FlowRun) :
  alike s s' -> In r s -> is_paused r = true -> In r s'.
Proof.
  induction 1 as [| x y s s' Hxy _ IH]; intros Hin Hp; [contradiction |].
  destruct Hin as [-> | Hin].
  - left. symmetry. apply same_but_stamps_paused; assumption.
  - right. apply IH; assumption.
Qed.

Lemma read_run_in (s : Store) (r : FlowRun) :
  NoDup (ids s) -> In r s -> read_run s (id r) = Some r.
Proof.
  intros Hnd Hin.
  rewrite <- (map_id s) at 1.
  apply (read_run_map (fun x => x) s r (fun x => eq_refl) Hnd Hin).
Qed.

Lemma in_write_run_state (s : Store) (i : nat) (st : State) (t : Z)
      (r : FlowRun) :
  In r s -> id r <> i -> In r (write_run_state s i st t).
Proof.
  intros Hin Hne. unfold write_run_state. apply in_map_iff. exists r.
  split; [| exact Hin].
  destruct (Nat.eqb_spec (id r) i); [contradiction | reflexivity].
Qed.

(** On runs that are Paused rows of the table, marking with the state
    machine at hand and marking with the reference one go the same way. *)
Lemma mark_each_agrees (l : list FlowRun) :
  forall (w w' : Env),
    alike (store w) (store w') -> ticks w = ticks w' ->
    NoDup (ids (store w)) -> NoDup (ids l) ->
    (forall r, In r l -> In r (store w) /\ is_paused r = true) ->
    exists res w1 w1' t,
      mark_each clock set_flow_run_state l w = (res, w1, t)
      /\ mark_each clock reference l w' = (res, w1', t)
      /\ alike (store w1) (store w1') /\ ticks w1 = ticks w1'
      /\ ids (store w1) = ids (store w).
Proof.
  induction l as [| r l IH]; intros w w' Hal Htk Hnd Hl Hrows.
  - exists (Ok tt), w, w', []. cbn. unfold ret. auto.
  - cbn in Hl. apply NoDup_cons_iff in Hl. destruct Hl as [Hr Hl].
    destruct (Hrows r (or_introl eq_refl)) as [Hin Hp].
    assert (Hnd' : NoDup (ids (store w'))) by (rewrite <- (alike_ids _ _ Hal); exact Hnd).
    assert (Hin' : In r (store w')) by (apply (alike_in_paused _ _ r Hal Hin Hp)).
    cbn [mark_each]. unfold bind.
    destruct (pause_timeout (state_details (state r))) as [d |] eqn:Hd.
    + destruct (Z.ltb_spec d (clock (ticks w))) as [Hlt | Hge].
      * (* due: both state machines write the Failed state *)
        rewrite (mark_due clock set_flow_run_state r w d Hd Hlt).
        assert (Hlt' : (d < clock (ticks w'))%Z) by (rewrite <- Htk; exact Hlt).
        rewrite (mark_due clock reference r w' d Hd Hlt').
        destruct (contract (store w) r (read_run_in _ _ Hnd Hin) Hp)
          as (t1 & Hcall).
        rewrite Hcall.
        rewrite (set_state_forced_on_paused rule ts (store w') r
                   (Failed never_resumed) (read_run_in _ _ Hnd' Hin') Hp
                   eq_refl).
        destruct (IH {| store := write_run_state (store w) (id r)
                                   (Failed never_resumed) t1;
                        ticks := S (ticks w) |}
                     {| store := write_run_state (store w') (id r)
                                   (Failed never_resumed) ts;
                        ticks := S (ticks w') |})
          as (res & w1 & w1' & t & H1 & H2 & Hal1 & Htk1 & Hids1).
        -- cbn [store]. apply alike_write. exact Hal.
        -- cbn [ticks]. congruence.
        -- cbn [store]. rewrite ids_write_run_state. exact Hnd.
        -- exact Hl.
        -- intros x Hx. destruct (Hrows x (or_intror Hx)) as [Hxin Hxp].
           split; [| exact Hxp]. cbn [store]. apply in_write_run_state;
             [exact Hxin |].
           intros E. apply Hr. rewrite <- E. apply in_map. exact Hx.
        -- rewrite H1, H2. exists res, w1, w1', (fail_call (id r) :: t).
           cbn [app]. repeat split; try assumption.
           rewrite Hids1. cbn [store]. apply ids_write_run_state.
      * (* not due: nothing is called *)
        rewrite (mark_not_due clock set_flow_run_state r w d Hd Hge).
        assert (Hge' : (clock (ticks w') <= d)%Z) by (rewrite <- Htk; exact Hge).
        rewrite (mark_not_due clock reference r w' d Hd Hge').
        destruct (IH (tick w) (tick w'))
          as (res & w1 & w1' & t & H1 & H2 & Hal1 & Htk1 & Hids1).
        -- exact Hal.
        -- cbn. congruence.
        -- exact Hnd.
        -- exact Hl.
        -- intros x Hx. apply Hrows. right. exact Hx.
        -- rewrite H1, H2. exists res, w1, w1', t. auto.
    + (* no deadline: the comparison raises *)
      rewrite (mark_no_deadline clock set_flow_run_state r w Hd).
      rewrite (mark_no_deadline clock reference r w' Hd).
      exists (Raised TypeError), (tick w), (tick w'), [].
      cbn. repeat split; auto; congruence.
Qed.

Lemma NoDup_ids_selected (s : Store) :
  NoDup (ids s) -> NoDup (ids (select_paused batch_size s)).
Proof.
  unfold select_paused. intros Hnd.
  assert (Hf : NoDup (ids (filter is_paused s))).
  { induction s as [| x s IH]; cbn; [constructor |].
    cbn in Hnd. apply NoDup_cons_iff in Hnd. destruct Hnd as [Hx Hnd].
    destruct (is_paused x); [| apply IH; exact Hnd].
    cbn. constructor; [| apply IH; exact Hnd].
    intros Hin. apply Hx. apply in_map_iff in Hin.
    destruct Hin as (y & Hy & Hyin). apply filter_In in Hyin.
    rewrite <- Hy. apply in_map. exact (proj1 Hyin). }
  revert Hf. generalize (filter is_paused s) as l. intros l.
  revert l. induction batch_size as [| n IH]; intros l Hl; [constructor |].
  destruct l as [| x l]; [constructor |].
  cbn in Hl |- *. apply NoDup_cons_iff in Hl. destruct Hl as [Hx Hl].
  constructor; [| apply IH; exact Hl].
  intros Hin. apply Hx. unfold ids in Hin. apply in_map_iff in Hin.
  destruct Hin as (y & Hy & Hyin). rewrite <- Hy. apply in_map.
  apply (in_firstn n). exact Hyin.
Qed.

Lemma batch_agrees (w w' : Env) :
  alike (store w) (store w') -> ticks w = ticks w' ->
  NoDup (ids (store w)) ->
  exists res w1 w1' t,
    batch clock set_flow_run_state batch_size w = (res, w1, t)
    /\ batch clock reference batch_size w' = (res, w1', t)
    /\ alike (store w1) (store w1') /\ ticks w1 = ticks w1'
    /\ NoDup (ids (store w1)).
Proof.
  intros Hal Htk Hnd. rewrite !batch_eq.
  assert (Hsel : select_paused batch_size (store w')
                 = select_paused batch_size (store w)).
  { unfold select_paused. rewrite (alike_paused _ _ Hal). reflexivity. }
  rewrite Hsel.
  destruct (mark_each_agrees (select_paused batch_size (store w)) w w'
              Hal Htk Hnd (NoDup_ids_selected _ Hnd))
    as (res & w1 & w1' & t & H1 & H2 & Hal1 & Htk1 & Hids1).
  { intros r Hr. unfold select_paused in Hr. apply in_firstn in Hr.
    apply filter_In in Hr. exact Hr. }
  rewrite H1, H2. destruct res as [[] | e].
  - eexists. eexists. eexists. eexists.
    split; [reflexivity |]. split; [reflexivity |].
    split; [exact Hal1 |]. split; [exact Htk1 |]. rewrite Hids1. exact Hnd.
  - eexists. eexists. eexists. eexists.
    split; [reflexivity |]. split; [reflexivity |]. cbn [store ticks].
    auto.
Qed.

Lemma batch_loop_agrees (fuel : nat) :
  forall (w w' : Env),
    alike (store w) (store w') -> ticks w = ticks w' ->
    NoDup (ids (store w)) ->
    exists st w1 w1' t,
      batch_loop clock set_flow_run_state batch_size fuel w = (st, w1, t)
      /\ batch_loop clock reference batch_size fuel w' = (st, w1', t)
      /\ alike (store w1) (store w1') /\ ticks w1 = ticks w1'.
Proof.
  induction fuel as [| fuel IH]; intros w w' Hal Htk Hnd.
  - exists Running, w, w', []. auto.
  - cbn [batch_loop].
    destruct (batch_agrees w w' Hal Htk Hnd)
      as (res & w1 & w1' & t & H1 & H2 & Hal1 & Htk1 & Hnd1).
    rewrite H1, H2. destruct res as [[|] | e].
    + exists Returned, w1, w1', t. auto.
    + destruct (IH w1 w1' Hal1 Htk1 Hnd1)
        as (st & w2 & w2' & t2 & H3 & H4 & Hal2 & Htk2).
      rewrite H3, H4. exists st, w2, w2', (t ++ t2). auto.
    + exists (Raises e), w1, w1', t. auto.
Qed.

(** A pass with any state machine that fails Paused runs goes as the pass
    with the reference one: the same status, the same events, the same
    readings of the clock, and tables that differ in the time stamps of the
    failed runs at most. *)
Lemma run_once_agrees (fuel : nat) (s : Store) (tk : nat) :
  NoDup (ids s) ->
  exists st w1 w1' t,
    run_once clock set_flow_run_state batch_size fuel
             {| store := s; ticks := tk |} = (st, w1, t)
    /\ run_once clock reference batch_size fuel
                {| store := s; ticks := tk |} = (st, w1', t)
    /\ alike (store w1) (store w1') /\ ticks w1 = ticks w1'.
Proof.
  intros Hnd. unfold run_once.
  destruct (batch_loop_agrees fuel {| store := s; ticks := tk |}
              {| store := s; ticks := tk |} (alike_refl s) eq_refl Hnd)
    as (st & w1 & w1' & t & H1 & H2 & Hal & Htk).
  rewrite H1, H2. destruct st; eauto 10.
Qed.

Lemma alike_read_run (s s' : Store) (i : nat) (y : FlowRun) :
  alike s s' -> read_run s' i = Some y ->
  exists x, read_run s i = Some x /\ same_but_stamps x y.
Proof.
  induction 1 as [| a b s s' Hab _ IH]; [discriminate |].
  unfold read_run. cbn [find]. rewrite (same_but_stamps_id a b Hab).
  destruct (Nat.eqb (id b) i).
  - intros [= <-]. exists a. auto.
  - exact IH.
Qed.

End AgreementFacts.

(** ** Passes with any state machine that fails Paused runs *)

Lemma run_once_more (clock : nat -> Z)
      (set_flow_run_state :
         Store -> nat -> State -> bool -> outcome unit * Store)
      (batch_size fuel extra : nat) (w w' : Env) (st : status)
      (t : list Event) :
  run_once clock set_flow_run_state batch_size fuel w = (st, w', t) ->
  st <> Running ->
  run_once clock set_flow_run_state batch_size (fuel + extra) w = (st, w', t).
Proof.
  unfold run_once.
  destruct (batch_loop clock set_flow_run_state batch_size fuel w)
    as [[st0 w0] t0] eqn:Hl.
  intros H Hst.
  assert (Hst0 : st0 <> Running).
  { intros ->. injection H as <- _ _. apply Hst. reflexivity. }
  rewrite (batch_loop_more _ _ _ fuel extra _ _ _ _ Hl Hst0). exact H.
Qed.

Lemma settled_not_due (clock : nat -> Z) (r : FlowRun) :
  settled clock r -> is_due (clock 0) r = false -> waiting clock r.
Proof.
  intros [He | Hw] Hd; [| exact Hw].
  rewrite (due_of_expired clock r He) in Hd. discriminate Hd.
Qed.

Lemma paused_fail_all_due (ts : Z) (due : FlowRun -> bool) (s : Store) :
  filter is_paused (fail_all_due ts due s)
  = filter (fun r => negb (due r)) (filter is_paused s).
Proof.
  unfold fail_all_due. induction s as [| x s IH]; [reflexivity |].
  cbn [map filter]. destruct (is_paused x) eqn:Hp; cbn [andb].
  - destruct (due x) eqn:Hd; cbn [filter negb].
    + cbn [is_paused failed_row state_type state type Failed StateType_eqb].
      rewrite Hd. exact IH.
    + rewrite Hp, Hd. cbn [negb]. f_equal. exact IH.
  - rewrite Hp. exact IH.
Qed.

(** When fewer Paused runs than a batch holds are not due, a pass returns
    with every due run failed and every waiting run as it was, whatever
    state machine fails Paused runs on request. *)
Theorem a_pass_fails_due_runs_and_keeps_waiting_runs :
  forall (clock : nat -> Z)
         (set_flow_run_state :
            Store -> nat -> State -> bool -> outcome unit * Store)
         (batch_size : nat) (s : Store) (tk : nat),
    fails_paused_runs set_flow_run_state ->
    NoDup (ids s) ->
    Forall (settled clock) (filter is_paused s) ->
    List.length (filter (fun r => negb (is_due (clock 0) r))
                        (filter is_paused s)) < batch_size ->
    exists fuel w' ev,
      (forall more,
          run_once clock set_flow_run_state batch_size (fuel + more)
                   {| store := s; ticks := tk |}
          = (Returned, w', ev))
      /\ (forall r, In r s -> is_paused r = true -> expired clock r ->
                    In (fail_call (id r)) ev
                    /\ exists r', read_run (store w') (id r) = Some r'
                                  /\ state r' = Failed never_resumed)
      /\ (forall r, In r s -> is_paused r = true -> waiting clock r ->
                    ~ In (id r) (set_state_calls ev)
                    /\ read_run (store w') (id r) = Some r).
Proof.
  intros clock sfrs bs s tk Hk Hnd Hset Hwait.
  destruct (due_runs_are_failed_and_waiting_runs_kept
              (fun _ _ => false) 0 clock bs s tk Hnd Hset Hwait)
    as (fuel & w2 & ev & Hrun2 & _ & Hdue & Hkept).
  destruct (run_once_agrees clock sfrs Hk (fun _ _ => false) 0 bs
              (fuel + 0) s tk Hnd)
    as (st & w1 & w1' & t & H1 & H2 & Hal & _).
  rewrite (Hrun2 0) in H2. injection H2 as E1 E2 E3. subst st w1' t.
  exists fuel, w1, ev. split; [| split].
  - intros more.
    rewrite Nat.add_0_r in H1.
    apply (run_once_more clock sfrs bs fuel more _ _ _ _ H1). discriminate.
  - intros r Hr Hp He. destruct (Hdue r Hr Hp He) as [Hcall Hread].
    split; [exact Hcall |].
    destruct (alike_read_run _ _ _ _ Hal Hread) as (x & Hx & Hsame).
    exists x. split; [exact Hx |].
    rewrite (same_but_stamps_state x _ Hsame). reflexivity.
  - intros r Hr Hp Hw. destruct (Hkept r Hr Hp Hw) as [Hno Hread].
    split; [exact Hno |].
    destruct (alike_read_run _ _ _ _ Hal Hread) as (x & Hx & Hsame).
    rewrite Hx. f_equal.
    destruct Hsame as [E | (_ & _ & Hst)]; [exact E |].
    unfold is_paused, state_type in Hp. rewrite Hst in Hp. discriminate Hp.
Qed.

(** The state machine of the specification fails Paused runs. *)
Lemma reference_fails_paused_runs (rule : StateType -> StateType -> bool)
      (ts : Z) :
  fails_paused_runs (state_machine.set_state rule ts).
Proof.
  intros s r Hread Hp. exists ts.
  apply (set_state_forced_on_paused rule ts s r (Failed never_resumed)
           Hread Hp eq_refl).
Qed.

(** The theorem at five runs and batches of two, with the state machine of
    the specification: runs 1, 3 and 5 are due, run 2 waits, run 4 is not
    Paused. *)
Lemma a_pass_fails_due_runs_and_keeps_waiting_runs_witness :
  let clock := standing_at 0 in
  let sfrs := state_machine.set_state (fun _ _ => false) 7 in
  let s := [paused_run 1 (Some (-1)%Z); paused_run 2 (Some 3600%Z);
            paused_run 3 (Some (-5)%Z);
            {| id := 4; state := Failed never_resumed; state_timestamp := 0 |};
            paused_run 5 (Some (-1)%Z)] in
  fails_paused_runs sfrs
  /\ NoDup (ids s)
  /\ Forall (settled clock) (filter is_paused s)
  /\ List.length (filter (fun r => negb (is_due (clock 0) r))
                         (filter is_paused s)) < 2
  /\ exists fuel w' ev,
      (forall more,
          run_once clock sfrs 2 (fuel + more) {| store := s; ticks := 0 |}
          = (Returned, w', ev))
      /\ (forall r, In r s -> is_paused r = true -> expired clock r ->
                    In (fail_call (id r)) ev
                    /\ exists r', read_run (store w') (id r) = Some r'
                                  /\ state r' = Failed never_resumed)
      /\ (forall r, In r s -> is_paused r = true -> waiting clock r ->
                    ~ In (id r) (set_state_calls ev)
                    /\ read_run (store w') (id r) = Some r).
Proof.
  intros clock sfrs s.
  assert (H0 : fails_paused_runs sfrs) by apply reference_fails_paused_runs.
  assert (H1 : NoDup (ids s)).
  { cbn. repeat constructor; cbn; intuition discriminate. }
  assert (H2 : Forall (settled clock) (filter is_paused s)).
  { cbn. unfold settled, expired, waiting, clock, standing_at.
    repeat apply Forall_cons; [| | | | apply Forall_nil].
    - left. exists (-1)%Z. split; [reflexivity | intros k; lia].
    - right. exists 3600%Z. split; [reflexivity | intros k; lia].
    - left. exists (-5)%Z. split; [reflexivity | intros k; lia].
    - left. exists (-1)%Z. split; [reflexivity | intros k; lia]. }
  assert (H3 : List.length (filter (fun r => negb (is_due (clock 0) r))
                                   (filter is_paused s)) < 2)
    by (cbn; lia).
  split; [exact H0 |]. split; [exact H1 |]. split; [exact H2 |].
  split; [exact H3 |].
  exact (a_pass_fails_due_runs_and_keeps_waiting_runs
           clock sfrs 2 s 0 H0 H1 H2 H3).
Defined.

(** While the table (with unique ids) holds a Paused run without a
    deadline, a pass never returns, however long it is followed and
    whatever state machine fails Paused runs on request: it raises, or it
    is still going round. *)
Theorem a_pass_returns_only_with_deadlines :
  forall (clock : nat -> Z)
         (set_flow_run_state :
            Store -> nat -> State -> bool -> outcome unit * Store)
         (batch_size fuel : nat) (s : Store) (tk : nat) (r0 : FlowRun),
    fails_paused_runs set_flow_run_state ->
    NoDup (ids s) -> In r0 s -> is_paused r0 = true ->
    pause_timeout (state_details (state r0)) = None ->
    fst (fst (run_once clock set_flow_run_state batch_size fuel
                       {| store := s; ticks := tk |})) <> Returned.
Proof.
  intros clock sfrs bs fuel s tk r0 Hk Hnd Hin Hp Hnone.
  destruct (run_once_agrees clock sfrs Hk (fun _ _ => false) 0 bs fuel s tk
              Hnd)
    as (st & w1 & w1' & t & H1 & H2 & _).
  pose proof (run_once_returns_only_with_deadlines
                (fun _ _ => false) 0 clock bs fuel s tk r0 Hnd Hin Hp Hnone)
    as H.
  rewrite H2 in H. rewrite H1. exact H.
Qed.

(** The theorem at three Paused runs of which the second has no deadline. *)
Lemma a_pass_returns_only_with_deadlines_witness :
  let sfrs := state_machine.set_state (fun _ _ => false) 0 in
  let s := [paused_run 1 (Some (-1)%Z); paused_run 2 None;
            paused_run 3 (Some (-1)%Z)] in
  fails_paused_runs sfrs
  /\ NoDup (ids s)
  /\ In (paused_run 2 None) s
  /\ is_paused (paused_run 2 None) = true
  /\ pause_timeout (state_details (state (paused_run 2 None))) = None
  /\ fst (fst (run_once (standing_at 0) sfrs default_batch_size 9
                        {| store := s; ticks := 0 |})) <> Returned.
Proof.
  intros sfrs s.
  assert (H0 : fails_paused_runs sfrs) by apply reference_fails_paused_runs.
  assert (H1 : NoDup (ids s)).
  { cbn. repeat constructor; cbn; intuition discriminate. }
  assert (H2 : In (paused_run 2 None) s) by (cbn; auto).
  assert (H3 : is_paused (paused_run 2 None) = true) by reflexivity.
  assert (H4 : pause_timeout (state_details (state (paused_run 2 None))) = None)
    by reflexivity.
  split; [exact H0 |]. split; [exact H1 |]. split; [exact H2 |].
  split; [exact H3 |]. split; [exact H4 |].
  exact (a_pass_returns_only_with_deadlines
           (standing_at 0) sfrs default_batch_size 9 s 0
           (paused_run 2 None) H0 H1 H2 H3 H4).
Defined.

(** ** Draining any number of due runs *)

Lemma selections_app (a b : list Event) :
  selections (a ++ b) = selections a ++ selections b.
Proof.
  induction a as [| [] a IH]; cbn; try exact IH.
  - reflexivity.
  - f_equal. exact IH.
Qed.

Lemma selections_committed (sel l : list nat) :
  selections (committed sel (map fail_call l)) = [sel].
Proof.
  unfold committed. cbn [selections]. rewrite selections_app. cbn.
  rewrite app_nil_r. f_equal.
  induction l as [| i l IH]; [reflexivity | exact IH].
Qed.

Lemma batch_sizes_drain_events (batch_size q m : nat) (l : list nat) :
  List.length l = q * batch_size + m -> m < batch_size ->
  batch_sizes (drain_events batch_size q l) = repeat batch_size q ++ [m].
Proof.
  unfold batch_sizes. revert l. induction q as [| q IH]; intros l Hl Hm.
  - cbn [drain_events]. rewrite selections_committed. cbn. rewrite Hl.
    reflexivity.
  - cbn [drain_events]. rewrite selections_app, selections_committed.
    cbn [app map repeat]. rewrite length_firstn. cbn in Hl. f_equal; [lia |].
    apply IH; [| exact Hm]. rewrite length_skipn. lia.
Qed.

Lemma set_state_calls_drain_events (batch_size q : nat) (l : list nat) :
  set_state_calls (drain_events batch_size q l) = l.
Proof.
  revert l. induction q as [| q IH]; intros l; cbn [drain_events].
  - apply set_state_calls_committed.
  - rewrite set_state_calls_app, set_state_calls_committed, IH.
    apply firstn_skipn.
Qed.

(** [n] Paused runs that are all due are drained by one pass, whatever the
    batch size (not zero) and whatever state machine fails Paused runs on
    request: the pass fetches [n / batch_size] full batches and one last batch
    of [n mod batch_size] runs, which is empty when [n] is a multiple of the
    batch size; it calls the state machine once on each of the runs, in
    table order; it reads the clock [n] times; it leaves no Paused run; and
    it is not done before the last batch. *)
Theorem due_runs_are_drained_in_batches :
  forall (clock : nat -> Z)
         (set_flow_run_state :
            Store -> nat -> State -> bool -> outcome unit * Store)
         (batch_size : nat) (s : Store) (tk more : nat),
    fails_paused_runs set_flow_run_state ->
    NoDup (ids s) ->
    0 < batch_size ->
    Forall (expired clock) (filter is_paused s) ->
    let n := List.length (filter is_paused s) in
    exists w' ev,
      run_once clock set_flow_run_state batch_size
               (n / batch_size + 1 + more) {| store := s; ticks := tk |}
      = (Returned, w', ev)
      /\ batch_sizes ev = repeat batch_size (n / batch_size)
                          ++ [n mod batch_size]
      /\ set_state_calls ev = ids (filter is_paused s)
      /\ filter is_paused (store w') = []
      /\ ticks w' = n + tk
      /\ fst (fst (run_once clock set_flow_run_state batch_size
                            (n / batch_size) {| store := s; ticks := tk |}))
         = Running.
Proof.
  intros clock sfrs bs s tk more Hk Hnd Hbs Hex n.
  assert (Hm : n mod bs < bs) by (apply Nat.mod_upper_bound; lia).
  assert (Hn : n = n / bs * bs + n mod bs).
  { rewrite (Nat.div_mod_eq n bs) at 1. lia. }
  destruct (batch_loop_drains (fun _ _ => false) 0 clock bs (n / bs)
              (n mod bs) s tk Hnd Hex Hn Hm) as [Hloop Hrun].
  (* the reference pass *)
  assert (Href : run_once clock (state_machine.set_state (fun _ _ => false) 0)
                          bs (n / bs + 1 + more) {| store := s; ticks := tk |}
                 = (Returned,
                    {| store := fail_first 0 n s; ticks := n + tk |},
                    drain_events bs (n / bs) (ids (filter is_paused s))
                    ++ [EvLog INFO finished_monitoring])).
  { apply run_once_more; [| discriminate].
    unfold run_once. rewrite Nat.add_1_r, Hloop. reflexivity. }
  destruct (run_once_agrees clock sfrs Hk (fun _ _ => false) 0 bs
              (n / bs + 1 + more) s tk Hnd)
    as (st & w1 & w1' & t & H1 & H2 & Hal & Htk).
  rewrite Href in H2. injection H2 as E1 E2 E3. subst st w1' t.
  exists w1. eexists. split; [exact H1 |].
  split; [| split; [| split; [| split]]].
  - unfold batch_sizes. rewrite selections_app. cbn [selections].
    rewrite app_nil_r.
    apply (batch_sizes_drain_events bs (n / bs) (n mod bs)); [| exact Hm].
    unfold ids. rewrite length_map. exact Hn.
  - rewrite set_state_calls_app. cbn [set_state_calls]. rewrite app_nil_r.
    apply set_state_calls_drain_events.
  - rewrite (alike_paused _ _ Hal). cbn [store].
    rewrite paused_fail_first. apply skipn_all.
  - rewrite Htk. reflexivity.
  - destruct (run_once_agrees clock sfrs Hk (fun _ _ => false) 0 bs
                (n / bs) s tk Hnd)
      as (st & w2 & w2' & t2 & H3 & H4 & _).
    rewrite H3. cbn [fst].
    unfold run_once in H4.
    destruct (batch_loop clock (state_machine.set_state (fun _ _ => false) 0)
                         bs (n / bs) {| store := s; ticks := tk |})
      as [[st0 w0] t0]. cbn [fst] in Hrun. subst st0.
    injection H4 as E _ _. symmetry. exact E.
Qed.

(** The theorem at seven due runs and batches of three, with the state
    machine of the specification: two full batches and a last one of one
    run. *)
Lemma due_runs_are_drained_in_batches_witness :
  let clock := standing_at 0 in
  let sfrs := state_machine.set_state (fun _ _ => false) 7 in
  let s := paused_runs 10 7 (-1) in
  let n := List.length (filter is_paused s) in
  fails_paused_runs sfrs
  /\ NoDup (ids s)
  /\ 0 < 3
  /\ Forall (expired clock) (filter is_paused s)
  /\ exists w' ev,
      run_once clock sfrs 3 (n / 3 + 1 + 0) {| store := s; ticks := 0 |}
      = (Returned, w', ev)
      /\ batch_sizes ev = repeat 3 (n / 3) ++ [n mod 3]
      /\ set_state_calls ev = ids (filter is_paused s)
      /\ filter is_paused (store w') = []
      /\ ticks w' = n + 0
      /\ fst (fst (run_once clock sfrs 3 (n / 3)
                            {| store := s; ticks := 0 |}))
         = Running.
Proof.
  intros clock sfrs s n.
  assert (H0 : fails_paused_runs sfrs) by apply reference_fails_paused_runs.
  assert (H1 : NoDup (ids s)).
  { unfold s. rewrite ids_paused_runs. apply seq_NoDup. }
  assert (H2 : 0 < 3) by lia.
  assert (H3 : Forall (expired clock) (filter is_paused s)).
  { unfold s. rewrite paused_paused_runs. apply paused_runs_expired.
    intros k. unfold clock, standing_at. lia. }
  split; [exact H0 |]. split; [exact H1 |]. split; [exact H2 |].
  split; [exact H3 |].
  exact (due_runs_are_drained_in_batches clock sfrs 3 s 0 0 H0 H1 H2 H3).
Defined.

(** A number of due runs that is a multiple of the batch size costs one
    more, empty, batch: six due runs in batches of three. *)
Example six_due_runs_in_batches_of_three :
  batch_sizes
    (snd (run_once (standing_at 0)
                   (state_machine.set_state (fun _ _ => false) 7) 3 3
                   (at_start (paused_runs 10 6 (-1)))))
  = [3; 3; 0].
Proof. vm_compute. reflexivity. Qed.

(** ** A pass with nothing to do *)

Lemma batch_loop_of_few_waiting
      (clock : nat -> Z)
      (set_flow_run_state :
         Store -> nat -> State -> bool -> outcome unit * Store)
      (batch_size more : nat) (w : Env) :
  Forall (waiting clock) (filter is_paused (store w)) ->
  List.length (filter is_paused (store w)) < batch_size ->
  batch_loop clock set_flow_run_state batch_size (1 + more) w
  = (Returned,
     {| store := store w;
        ticks := List.length (filter is_paused (store w)) + ticks w |},
     committed (ids (filter is_paused (store w))) []).
Proof.
  intros Hw Hlen. cbn [Nat.add batch_loop]. rewrite batch_eq.
  unfold select_paused. rewrite firstn_all2 by lia.
  rewrite (mark_each_waiting clock set_flow_run_state _ w Hw).
  replace (Nat.ltb _ _) with true by (symmetry; apply Nat.ltb_lt; exact Hlen).
  reflexivity.
Qed.

(** A pass over a table whose Paused runs are fewer than a batch holds and
    all have their deadline ahead (a table without Paused runs is one)
    returns after one batch: it selects these runs, reads the clock once
    for each, calls no state machine, whichever it is given, commits, logs
    its one record and leaves the table as it was. *)
Theorem a_pass_over_waiting_runs_changes_nothing :
  forall (clock : nat -> Z)
         (set_flow_run_state :
            Store -> nat -> State -> bool -> outcome unit * Store)
         (batch_size more : nat) (s : Store) (tk : nat),
    Forall (waiting clock) (filter is_paused s) ->
    List.length (filter is_paused s) < batch_size ->
    run_once clock set_flow_run_state batch_size (1 + more)
             {| store := s; ticks := tk |}
    = (Returned,
       {| store := s; ticks := List.length (filter is_paused s) + tk |},
       [EvBegin; EvSelect (ids (filter is_paused s)); EvCommit;
        EvLog INFO finished_monitoring]).
Proof.
  intros clock sfrs bs more s tk Hw Hlen. unfold run_once.
  rewrite (batch_loop_of_few_waiting clock sfrs bs more
             {| store := s; ticks := tk |} Hw Hlen).
  reflexivity.
Qed.

(** The theorem at a table with one waiting run and one run that is not
    Paused, and a state machine that would raise on any call. *)
Lemma a_pass_over_waiting_runs_changes_nothing_witness :
  let clock := standing_at 0 in
  let sfrs := fun (s : Store) (_ : nat) (_ : State) (_ : bool) =>
                (Raised TypeError, s) in
  let s := [paused_run 1 (Some 3600%Z);
            {| id := 2; state := Failed never_resumed;
               state_timestamp := 0 |}] in
  Forall (waiting clock) (filter is_paused s)
  /\ List.length (filter is_paused s) < default_batch_size
  /\ run_once clock sfrs default_batch_size (1 + 0)
              {| store := s; ticks := 0 |}
     = (Returned,
        {| store := s; ticks := List.length (filter is_paused s) + 0 |},
        [EvBegin; EvSelect (ids (filter is_paused s)); EvCommit;
         EvLog INFO finished_monitoring]).
Proof.
  intros clock sfrs s.
  assert (H1 : Forall (waiting clock) (filter is_paused s)).
  { cbn. apply Forall_cons; [| apply Forall_nil].
    exists 3600%Z. split; [reflexivity |].
    intros k. unfold clock, standing_at. lia. }
  assert (H2 : List.length (filter is_paused s) < default_batch_size)
    by (cbn; unfold default_batch_size; lia).
  split; [exact H1 |]. split; [exact H2 |].
  exact (a_pass_over_waiting_runs_changes_nothing
           clock sfrs default_batch_size 0 s 0 H1 H2).
Defined.

(** When fewer Paused runs than a batch holds are not due, the pass that
    follows a pass has nothing to do: the first pass returns, and a second
    pass from where it ended selects the runs that wait, calls the state
    machine on none, and returns after one batch with the table as the
    first pass left it. *)
Theorem a_second_pass_changes_nothing :
  forall (clock : nat -> Z)
         (set_flow_run_state :
            Store -> nat -> State -> bool -> outcome unit * Store)
         (batch_size : nat) (s : Store) (tk : nat),
    fails_paused_runs set_flow_run_state ->
    NoDup (ids s) ->
    Forall (settled clock) (filter is_paused s) ->
    List.length (filter (fun r => negb (is_due (clock 0) r))
                        (filter is_paused s)) < batch_size ->
    exists fuel w' ev,
      run_once clock set_flow_run_state batch_size fuel
               {| store := s; ticks := tk |}
      = (Returned, w', ev)
      /\ forall more,
          run_once clock set_flow_run_state batch_size (1 + more) w'
          = (Returned,
             {| store := store w';
                ticks := List.length (filter is_paused (store w'))
                         + ticks w' |},
             [EvBegin;
              EvSelect (ids (filter (fun r => negb (is_due (clock 0) r))
                                    (filter is_paused s)));
              EvCommit; EvLog INFO finished_monitoring]).
Proof.
  intros clock sfrs bs s tk Hk Hnd Hset Hwait.
  destruct (batch_loop_settles (fun _ _ => false) 0 clock bs
              (List.length (filter (is_due (clock 0)) (filter is_paused s)))
              s tk Hnd Hset Hwait (Nat.le_refl _))
    as (w2 & ev & Hloop & Hstore & _).
  set (fuel := S (List.length (filter (is_due (clock 0))
                                      (filter is_paused s)))) in *.
  destruct (run_once_agrees clock sfrs Hk (fun _ _ => false) 0 bs fuel s tk
              Hnd)
    as (st & w1 & w1' & t & H1 & H2 & Hal & _).
  unfold run_once in H2. rewrite Hloop in H2.
  injection H2 as E1 E2 E3. subst st w1' t.
  assert (Hp : filter is_paused (store w1)
               = filter (fun r => negb (is_due (clock 0) r))
                        (filter is_paused s)).
  { rewrite (alike_paused _ _ Hal), Hstore. apply paused_fail_all_due. }
  exists fuel, w1. eexists. split; [exact H1 |].
  intros more. unfold run_once.
  rewrite (batch_loop_of_few_waiting clock sfrs bs more w1).
  - rewrite Hp. reflexivity.
  - rewrite Hp. apply Forall_forall. intros r Hr.
    apply filter_In in Hr. destruct Hr as [Hr Hd].
    apply settled_not_due.
    + rewrite Forall_forall in Hset. apply Hset. exact Hr.
    + destruct (is_due (clock 0) r); [discriminate Hd | reflexivity].
  - rewrite Hp. exact Hwait.
Qed.

(** The theorem at five runs and batches of two, with the state machine of
    the specification: runs 1, 3 and 5 are due, run 2 waits, run 4 is not
    Paused. *)
Lemma a_second_pass_changes_nothing_witness :
  let clock := standing_at 0 in
  let sfrs := state_machine.set_state (fun _ _ => false) 7 in
  let s := [paused_run 1 (Some (-1)%Z); paused_run 2 (Some 3600%Z);
            paused_run 3 (Some (-5)%Z);
            {| id := 4; state := Failed never_resumed; state_timestamp := 0 |};
            paused_run 5 (Some (-1)%Z)] in
  fails_paused_runs sfrs
  /\ NoDup (ids s)
  /\ Forall (settled clock) (filter is_paused s)
  /\ List.length (filter (fun r => negb (is_due (clock 0) r))
                         (filter is_paused s)) < 2
  /\ exists fuel w' ev,
      run_once clock sfrs 2 fuel {| store := s; ticks := 0 |}
      = (Returned, w', ev)
      /\ forall more,
          run_once clock sfrs 2 (1 + more) w'
          = (Returned,
             {| store := store w';
                ticks := List.length (filter is_paused (store w'))
                         + ticks w' |},
             [EvBegin;
              EvSelect (ids (filter (fun r => negb (is_due (clock 0) r))
                                    (filter is_paused s)));
              EvCommit; EvLog INFO finished_monitoring]).
Proof.
  intros clock sfrs s.
  assert (H0 : fails_paused_runs sfrs) by apply reference_fails_paused_runs.
  assert (H1 : NoDup (ids s)).
  { cbn. repeat constructor; cbn; intuition discriminate. }
  assert (H2 : Forall (settled clock) (filter is_paused s)).
  { cbn. unfold settled, expired, waiting, clock, standing_at.
    repeat apply Forall_cons; [| | | | apply Forall_nil].
    - left. exists (-1)%Z. split; [reflexivity | intros k; lia].
    - right. exists 3600%Z. split; [reflexivity | intros k; lia].
    - left. exists (-5)%Z. split; [reflexivity | intros k; lia].
    - left. exists (-1)%Z. split; [reflexivity | intros k; lia]. }
  assert (H3 : List.length (filter (fun r => negb (is_due (clock 0) r))
                                   (filter is_paused s)) < 2)
    by (cbn; lia).
  split; [exact H0 |]. split; [exact H1 |]. split; [exact H2 |].
  split; [exact H3 |].
  exact (a_second_pass_changes_nothing clock sfrs 2 s 0 H0 H1 H2 H3).
Defined.

(** ** What a pass may change *)

Section FrameFacts.

Variable clock : nat -> Z.
Variable set_flow_run_state :
  Store -> nat -> State -> bool -> outcome unit * Store.
Hypothesis contract : fails_paused_runs set_flow_run_state.
Variable batch_size : nat.

Local Notation "'frame'" := (Forall2 kept_or_failed).

Lemma kept_or_failed_refl (x : FlowRun) : kept_or_failed x x.
Proof. left. reflexivity. Qed.

Lemma frame_refl (s : Store) : frame s s.
Proof. induction s; constructor; [apply kept_or_failed_refl | assumption]. Qed.

Lemma kept_or_failed_trans (x y z : FlowRun) :
  kept_or_failed x y -> kept_or_failed y z -> kept_or_failed x z.
Proof.
  intros [-> | (Hp & Hid & Hst)] [-> | (Hp' & Hid' & Hst')].
  - left. reflexivity.
  - right. auto.
  - right. auto.
  - right. repeat split; [exact Hp | congruence | exact Hst'].
Qed.

Lemma frame_trans (a b c : Store) : frame a b -> frame b c -> frame a c.
Proof.
  intros Hab. revert c. induction Hab as [| x y a b Hxy _ IH]; intros c Hbc.
  - inversion Hbc. constructor.
  - inversion Hbc as [| y' z b' c' Hyz Hbc']; subst. constructor.
    + exact (kept_or_failed_trans x y z Hxy Hyz).
    + apply IH. exact Hbc'.
Qed.

Lemma frame_ids (a b : Store) : frame a b -> ids b = ids a.
Proof.
  induction 1 as [| x y a b Hxy _ IH]; [reflexivity |].
  unfold ids in *. cbn. rewrite IH. f_equal.
  destruct Hxy as [-> | (_ & Hid & _)]; [reflexivity | exact Hid].
Qed.

(** Writing the Failed state on a Paused row of the table. *)
Lemma frame_write (s : Store) (r : FlowRun) (t : Z) :
  NoDup (ids s) -> In r s -> is_paused r = true ->
  frame s (write_run_state s (id r) (Failed never_resumed) t).
Proof.
  intros Hnd Hin Hp.
  assert (H : forall l, (forall x, In x l -> In x s) ->
                        frame l (write_run_state l (id r)
                                   (Failed never_resumed) t)).
  { induction l as [| x l IH]; intros Hl; cbn; constructor.
    - destruct (Nat.eqb_spec (id x) (id r)) as [E | _].
      + right. cbn.
        rewrite (same_id_same_row s x r Hnd (Hl x (or_introl eq_refl)) Hin E).
        auto.
      + left. reflexivity.
    - apply IH. intros y Hy. apply Hl. right. exact Hy. }
  apply H. auto.
Qed.

Lemma mark_each_kept (l : list FlowRun) :
  forall (w : Env),
    NoDup (ids (store w)) -> NoDup (ids l) ->
    (forall r, In r l -> In r (store w) /\ is_paused r = true) ->
    frame (store w)
          (store (snd (fst (mark_each clock set_flow_run_state l w)))).
Proof.
  induction l as [| r l IH]; intros w Hnd Hl Hrows.
  - cbn. apply frame_refl.
  - cbn in Hl. apply NoDup_cons_iff in Hl. destruct Hl as [Hr Hl].
    destruct (Hrows r (or_introl eq_refl)) as [Hin Hp].
    cbn [mark_each]. unfold bind.
    destruct (pause_timeout (state_details (state r))) as [d |] eqn:Hd.
    + destruct (Z.ltb_spec d (clock (ticks w))) as [Hlt | Hge].
      * rewrite (mark_due clock set_flow_run_state r w d Hd Hlt).
        destruct (contract (store w) r (read_run_in _ _ Hnd Hin) Hp)
          as (t1 & Hcall).
        rewrite Hcall.
        pose proof (frame_write (store w) r t1 Hnd Hin Hp) as Hw.
        specialize (IH {| store := write_run_state (store w) (id r)
                                     (Failed never_resumed) t1;
                          ticks := S (ticks w) |}).
        cbn [store] in IH.
        assert (Hk : frame (write_run_state (store w) (id r)
                              (Failed never_resumed) t1)
                           (store (snd (fst (mark_each clock set_flow_run_state
                              l {| store := write_run_state (store w) (id r)
                                              (Failed never_resumed) t1;
                                   ticks := S (ticks w) |}))))).
        { apply IH.
          - rewrite ids_write_run_state. exact Hnd.
          - exact Hl.
          - intros x Hx. destruct (Hrows x (or_intror Hx)) as [Hxin Hxp].
            split; [| exact Hxp]. apply in_write_run_state; [exact Hxin |].
            intros E. apply Hr. rewrite <- E. apply in_map. exact Hx. }
        destruct (mark_each clock set_flow_run_state l _) as [[r2 w2] t2].
        cbn [fst snd] in Hk |- *. exact (frame_trans _ _ _ Hw Hk).
      * rewrite (mark_not_due clock set_flow_run_state r w d Hd Hge).
        specialize (IH (tick w) Hnd Hl
                       (fun x Hx => Hrows x (or_intror Hx))).
        destruct (mark_each clock set_flow_run_state l (tick w))
          as [[r2 w2] t2].
        cbn [fst snd] in IH |- *. exact IH.
    + rewrite (mark_no_deadline clock set_flow_run_state r w Hd).
      cbn. apply frame_refl.
Qed.

Lemma batch_kept (w : Env) :
  NoDup (ids (store w)) ->
  frame (store w)
        (store (snd (fst (batch clock set_flow_run_state batch_size w)))).
Proof.
  intros Hnd. rewrite batch_eq.
  pose proof (mark_each_kept (select_paused batch_size (store w)) w Hnd
                (NoDup_ids_selected batch_size _ Hnd)) as H.
  destruct (mark_each clock set_flow_run_state _ w) as [[[u | e] w1] t].
  - apply H. intros r Hr. unfold select_paused in Hr. apply in_firstn in Hr.
    apply filter_In in Hr. exact Hr.
  - cbn. apply frame_refl.
Qed.

Lemma batch_loop_kept (fuel : nat) (w : Env) :
  NoDup (ids (store w)) ->
  frame (store w)
        (store (snd (fst (batch_loop clock set_flow_run_state batch_size
                                     fuel w)))).
Proof.
  revert w. induction fuel as [| fuel IH]; intros w Hnd; cbn [batch_loop].
  - cbn. apply frame_refl.
  - pose proof (batch_kept w Hnd) as Hb.
    destruct (batch clock set_flow_run_state batch_size w)
      as [[[[|] | e] w1] t]; cbn [fst snd] in Hb |- *; try exact Hb.
    assert (Hnd1 : NoDup (ids (store w1))).
    { rewrite (frame_ids _ _ Hb). exact Hnd. }
    specialize (IH w1 Hnd1).
    destruct (batch_loop clock set_flow_run_state batch_size fuel w1)
      as [[st w2] t2].
    cbn [fst snd] in IH |- *. exact (frame_trans _ _ _ Hb IH).
Qed.

End FrameFacts.

(** However a pass goes (it returns, it raises, or it is still going round)
    and however long it is followed, the table it leaves has the rows of
    the table it found, in their order: a run that was not Paused is as it
    was, and a run that was Paused is as it was or is Failed with the fixed
    message, under its id.  The table has unique ids and the state machine
    is any that fails Paused runs on request. *)
Theorem a_pass_only_fails_paused_runs :
  forall (clock : nat -> Z)
         (set_flow_run_state :
            Store -> nat -> State -> bool -> outcome unit * Store)
         (batch_size fuel : nat) (s : Store) (tk : nat),
    fails_paused_runs set_flow_run_state ->
    NoDup (ids s) ->
    Forall2 kept_or_failed s
            (store (snd (fst (run_once clock set_flow_run_state batch_size
                                       fuel {| store := s; ticks := tk |})))).
Proof.
  intros clock sfrs bs fuel s tk Hk Hnd. unfold run_once.
  pose proof (batch_loop_kept clock sfrs Hk bs fuel
                {| store := s; ticks := tk |} Hnd) as H.
  destruct (batch_loop clock sfrs bs fuel _) as [[[| e |] w1] t]; exact H.
Qed.

(** The theorem at three Paused runs of which the last has no deadline, the
    pass raising in its second batch. *)
Lemma a_pass_only_fails_paused_runs_witness :
  let sfrs := state_machine.set_state (fun _ _ => false) 7 in
  let s := [paused_run 1 (Some (-1)%Z); paused_run 2 (Some 3600%Z);
            paused_run 3 None] in
  fails_paused_runs sfrs
  /\ NoDup (ids s)
  /\ Forall2 kept_or_failed s
             (store (snd (fst (run_once (standing_at 0) sfrs 2 5
                                        {| store := s; ticks := 0 |})))).
Proof.
  intros sfrs s.
  assert (H0 : fails_paused_runs sfrs) by apply reference_fails_paused_runs.
  assert (H1 : NoDup (ids s)).
  { cbn. repeat constructor; cbn; intuition discriminate. }
  split; [exact H0 |]. split; [exact H1 |].
  exact (a_pass_only_fails_paused_runs (standing_at 0) sfrs 2 5 s 0 H0 H1).
Defined.

(** ** The migration forwards and back *)

Import revisions.

Section AlterFacts.

Lemma table_of_alter_other (s : Schema) (t t' : string) (f : Table -> Table) :
  t <> t' -> table_of (alter s t f) t' = table_of s t'.
Proof.
  intros Hne. induction s as [| [n tb] s IH]; [reflexivity |].
  cbn. destruct (String.eqb_spec n t) as [-> | Hn]; cbn.
  - destruct (String.eqb_spec t t'); [contradiction | reflexivity].
  - rewrite IH. reflexivity.
Qed.

Lemma table_of_alter_same (s : Schema) (t : string) (f : Table -> Table) :
  table_of (alter s t f) t = option_map f (table_of s t).
Proof.
  induction s as [| [n tb] s IH]; [reflexivity |].
  cbn. destruct (String.eqb_spec n t) as [-> | Hn]; cbn.
  - rewrite String.eqb_refl. reflexivity.
  - destruct (String.eqb_spec n t); [contradiction | exact IH].
Qed.

Lemma alter_alter (s : Schema) (t : string) (f g : Table -> Table) :
  alter (alter s t f) t g = alter s t (fun tb => g (f tb)).
Proof.
  induction s as [| [n tb] s IH]; [reflexivity |].
  cbn. destruct (String.eqb_spec n t) as [-> | Hn]; cbn.
  - rewrite String.eqb_refl. reflexivity.
  - destruct (String.eqb_spec n t); [contradiction |]. rewrite IH. reflexivity.
Qed.

Lemma alter_comm (s : Schema) (t t' : string) (f g : Table -> Table) :
  t <> t' -> alter (alter s t f) t' g = alter (alter s t' g) t f.
Proof.
  intros Hne. induction s as [| [n tb] s IH]; [reflexivity |].
  cbn. destruct (String.eqb_spec n t) as [-> | Hn]; cbn.
  - destruct (String.eqb_spec t t') as [E | _]; [contradiction |]. cbn.
    rewrite String.eqb_refl. reflexivity.
  - destruct (String.eqb_spec n t') as [-> | Hn']; cbn.
    + destruct (String.eqb_spec t' t); [congruence | reflexivity].
    + destruct (String.eqb_spec n t); [contradiction |]. rewrite IH.
      reflexivity.
Qed.

Lemma alter_same (s : Schema) (t : string) (f : Table -> Table) :
  (forall tb, table_of s t = Some tb -> f tb = tb) -> alter s t f = s.
Proof.
  induction s as [| [n tb] s IH]; intros Hf; [reflexivity |].
  cbn in Hf |- *. destruct (String.eqb n t).
  - rewrite (Hf tb eq_refl). reflexivity.
  - rewrite (IH Hf). reflexivity.
Qed.

Lemma filter_all {A} (p : A -> bool) (l : list A) :
  forallb p l = true -> filter p l = l.
Proof.
  induction l as [| x l IH]; cbn; [reflexivity |].
  destruct (p x); cbn; [| discriminate]. intros H. rewrite (IH H). reflexivity.
Qed.

Lemma drop_absent_table (s : Schema) (n : string) :
  table_of s n = None ->
  filter (fun e => negb (String.eqb (fst e) n)) s = s.
Proof.
  induction s as [| [m tb] s IH]; [reflexivity |].
  cbn. destruct (String.eqb m n); [discriminate |]. cbn.
  intros H. rewrite (IH H). reflexivity.
Qed.

Lemma table_of_drop_other (s : Schema) (n t : string) :
  n <> t ->
  table_of (filter (fun e => negb (String.eqb (fst e) n)) s) t = table_of s t.
Proof.
  intros Hne. induction s as [| [m tb] s IH]; [reflexivity |].
  cbn. destruct (String.eqb_spec m n) as [-> | Hm]; cbn.
  - destruct (String.eqb_spec n t); [contradiction | exact IH].
  - rewrite IH. reflexivity.
Qed.

Lemma table_of_apply_other (s : Schema) (o : op.Op) (t : string) :
  target o <> t -> table_of (op.apply s o) t = table_of s t.
Proof.
  destruct o; cbn [target op.apply]; intros Hne;
    try (apply table_of_alter_other; exact Hne).
  - cbn. destruct (String.eqb_spec name t); [contradiction | reflexivity].
  - apply table_of_drop_other. exact Hne.
Qed.

(** Operations leave the tables they do not act on as they are. *)
Lemma table_of_run_other (ops : list op.Op) (s : Schema) (t : string) :
  Forall (fun o => target o <> t) ops ->
  table_of (op.run ops s) t = table_of s t.
Proof.
  unfold op.run. intros H. revert s.
  induction H as [| o ops Ho _ IH]; intros s; [reflexivity |].
  cbn [fold_left]. rewrite IH. apply table_of_apply_other. exact Ho.
Qed.

(** Dropping a column that was added last, with the one constraint and the
    one index over it, gives the table back. *)
Lemma drop_added_column (c : string) (tb : Table) (col : Column)
      (k : Constraint) (ix : Index) :
  without_column c tb = true ->
  column_name col = c ->
  mentions c (constraint_columns k) = true ->
  mentions c (index_columns ix) = true ->
  mkTable
    (filter (fun x => negb (String.eqb (column_name x) c))
            (columns tb ++ [col]))
    (filter (fun x => negb (mentions c (constraint_columns x)))
            (constraints tb ++ [k]))
    (filter (fun x => negb (mentions c (index_columns x)))
            (indexes tb ++ [ix]))
  = tb.
Proof.
  unfold without_column. intros H Hc Hk Hi.
  apply andb_prop in H. destruct H as [H H3].
  apply andb_prop in H. destruct H as [H1 H2].
  rewrite !filter_app, (filter_all _ _ H1), (filter_all _ _ H2),
    (filter_all _ _ H3).
  cbn [filter]. rewrite Hc, String.eqb_refl, Hk, Hi. cbn.
  rewrite !app_nil_r. destruct tb; reflexivity.
Qed.

End AlterFacts.

(** [downgrade()] undoes [upgrade()]: on any schema that has none of the
    three worker tables, and whose [deployment] and [flow_run] tables have
    no column [worker_pool_queue_id] nor a constraint or index over a column
    of that name, running the operations of [upgrade()] and then those of
    [downgrade()] gives the schema back, table for table and in order. *)
Theorem downgrade_undoes_upgrade :
  forall (base : Schema),
    table_of base "worker_pool" = None ->
    table_of base "worker" = None ->
    table_of base "worker_pool_queue" = None ->
    (forall tb, table_of base "deployment" = Some tb ->
                without_column "worker_pool_queue_id" tb = true) ->
    (forall tb, table_of base "flow_run" = Some tb ->
                without_column "worker_pool_queue_id" tb = true) ->
    op.run add_worker_tables.downgrade
           (op.run add_worker_tables.upgrade base)
    = base.
Proof.
  intros base Hp Hw Hq Hd Hf.
  unfold op.run, add_worker_tables.upgrade, add_worker_tables.downgrade.
  cbn [fold_left op.apply alter String.eqb Ascii.eqb Bool.eqb op.f filter
       negb fst].
  rewrite !alter_alter.
  rewrite (alter_comm _ "flow_run" "deployment") by discriminate.
  rewrite !alter_alter.
  rewrite (alter_same _ "flow_run").
  - rewrite (alter_same _ "deployment").
    + rewrite (drop_absent_table _ _ Hq), (drop_absent_table _ _ Hw),
        (drop_absent_table _ _ Hp). reflexivity.
    + intros tb Ht. cbn [columns constraints indexes].
      apply drop_added_column; [exact (Hd tb Ht) | reflexivity ..].
  - intros tb Ht. rewrite table_of_alter_other in Ht by discriminate.
    cbn [columns constraints indexes].
    apply drop_added_column; [exact (Hf tb Ht) | reflexivity ..].
Qed.

(** The theorem at the tables of the earlier revisions. *)
Lemma downgrade_undoes_upgrade_witness :
  let base := add_worker_tables.earlier_revisions in
  table_of base "worker_pool" = None
  /\ table_of base "worker" = None
  /\ table_of base "worker_pool_queue" = None
  /\ (forall tb, table_of base "deployment" = Some tb ->
                 without_column "worker_pool_queue_id" tb = true)
  /\ (forall tb, table_of base "flow_run" = Some tb ->
                 without_column "worker_pool_queue_id" tb = true)
  /\ op.run add_worker_tables.downgrade
            (op.run add_worker_tables.upgrade base)
     = base.
Proof.
  intros base.
  assert (H1 : table_of base "worker_pool" = None) by reflexivity.
  assert (H2 : table_of base "worker" = None) by reflexivity.
  assert (H3 : table_of base "worker_pool_queue" = None) by reflexivity.
  assert (H4 : forall tb, table_of base "deployment" = Some tb ->
                          without_column "worker_pool_queue_id" tb = true).
  { intros tb Ht. vm_compute in Ht. injection Ht as <-. reflexivity. }
  assert (H5 : forall tb, table_of base "flow_run" = Some tb ->
                          without_column "worker_pool_queue_id" tb = true).
  { intros tb Ht. vm_compute in Ht. injection Ht as <-. reflexivity. }
  split; [exact H1 |]. split; [exact H2 |]. split; [exact H3 |].
  split; [exact H4 |]. split; [exact H5 |].
  exact (downgrade_undoes_upgrade base H1 H2 H3 H4 H5).
Defined.

(** The migration acts on five tables and on no other: whatever the schema,
    a table that is not one of [worker_pool], [worker], [worker_pool_queue],
    [deployment] and [flow_run] is after [upgrade()], and after
    [downgrade()], what it was before. *)
Theorem the_migration_keeps_the_other_tables :
  forall (base : Schema) (t : string),
    ~ In t worker_tables ->
    table_of (op.run add_worker_tables.upgrade base) t = table_of base t
    /\ table_of (op.run add_worker_tables.downgrade base) t = table_of base t.
Proof.
  intros base t Hn.
  assert (H : forall o, In (target o) worker_tables -> target o <> t).
  { intros o Ho E. apply Hn. rewrite <- E. exact Ho. }
  split; apply table_of_run_other.
  - unfold add_worker_tables.upgrade.
    repeat (apply Forall_cons; [apply H; cbn; tauto |]). apply Forall_nil.
  - unfold add_worker_tables.downgrade.
    repeat (apply Forall_cons; [apply H; cbn; tauto |]). apply Forall_nil.
Qed.

(** The theorem at a schema with a [flow] table beside those of the
    earlier revisions. *)
Lemma the_migration_keeps_the_other_tables_witness :
  let base := ("flow", mkTable [add_worker_tables.id_column] [] [])
              :: add_worker_tables.earlier_revisions in
  ~ In "flow" worker_tables
  /\ table_of (op.run add_worker_tables.upgrade base) "flow"
     = table_of base "flow"
  /\ table_of (op.run add_worker_tables.downgrade base) "flow"
     = table_of base "flow".
Proof.
  intros base.
  assert (H : ~ In "flow" worker_tables).
  { unfold worker_tables. cbn. intuition discriminate. }
  split; [exact H |].
  exact (the_migration_keeps_the_other_tables base "flow" H).
Defined.

(** What the operations of [upgrade()] make of [deployment] and of
    [flow_run]: the table as it was, and after its columns, constraints and
    indexes the queue column, its foreign key and its index. *)
Lemma run_upgrade_on_deployment_and_flow_run :
  forall (base : Schema),
    table_of (op.run add_worker_tables.upgrade base) "deployment"
    = option_map
        (fun tb =>
           mkTable
             (columns tb ++ [mkColumn "worker_pool_queue_id" UUID None true])
             (constraints tb
              ++ [ForeignKeyConstraint ["worker_pool_queue_id"]
                    "worker_pool_queue" ["id"]
                    "fk_deployment__worker_pool_queue_id__worker_pool_queue"
                    SET_NULL])
             (indexes tb
              ++ [mkIndex "ix_deployment__worker_pool_queue_id"
                          ["worker_pool_queue_id"] false]))
        (table_of base "deployment")
    /\ table_of (op.run add_worker_tables.upgrade base) "flow_run"
       = option_map
           (fun tb =>
              mkTable
                (columns tb
                 ++ [mkColumn "worker_pool_queue_id" UUID None true])
                (constraints tb
                 ++ [ForeignKeyConstraint ["worker_pool_queue_id"]
                       "worker_pool_queue" ["id"]
                       "fk_flow_run__worker_pool_queue_id__worker_pool_queue"
                       SET_NULL])
                (indexes tb
                 ++ [mkIndex "ix_flow_run__worker_pool_queue_id"
                             ["worker_pool_queue_id"] false]))
           (table_of base "flow_run").
Proof.
  intros base.
  unfold op.run, add_worker_tables.upgrade.
  cbn [fold_left op.apply alter String.eqb Ascii.eqb Bool.eqb op.f].
  cbn [table_of String.eqb Ascii.eqb Bool.eqb].
  rewrite !alter_alter. split.
  - rewrite table_of_alter_other by discriminate.
    rewrite table_of_alter_same. reflexivity.
  - rewrite table_of_alter_same.
    rewrite table_of_alter_other by discriminate. reflexivity.
Qed.

(** ** Deleting a queue *)

Import integrity.

Lemma delete_queues_eq (db : Database) (victim : Row -> bool) :
  delete schema db "worker_pool_queue" victim =
  let dead := filter victim (db "worker_pool_queue") in
  let db1 := set_rows db "worker_pool_queue"
               (filter (fun r => negb (victim r)) (db "worker_pool_queue")) in
  if existsb (orphaned as_default dead) (db "worker_pool")
  then Raised IntegrityError
  else
    match checked_write schema db1 "deployment"
            (map (fun r => if orphaned from_deployment dead r
                           then set_null ["worker_pool_queue_id"] r else r)
                 (db "deployment")) with
    | Raised e => Raised e
    | Ok d2 =>
        checked_write schema d2 "flow_run"
          (map (fun r => if orphaned from_flow_run dead r
                         then set_null ["worker_pool_queue_id"] r else r)
               (d2 "flow_run"))
    end.
Proof.
  unfold delete.
  replace (S (List.length schema)) with 6 by reflexivity.
  rewrite delete_rows_step, references_to_worker_pool_queue.
  cbn [fold_left as_default from_deployment from_flow_run ref_ondelete
       ref_table ref_cols].
  rewrite (set_rows_other db "worker_pool_queue" "worker_pool")
    by discriminate.
  cbv zeta.
  destruct (existsb _ (db "worker_pool")); [reflexivity |].
  rewrite (set_rows_other _ "worker_pool_queue" "deployment") by discriminate.
  destruct (checked_write schema _ "deployment" _) as [d3 |]; reflexivity.
Qed.

Lemma orphaned_by_id (rows : list Row) (q : nat) (rf : Reference)
      (c : string) (r : Row) :
  existsb (is_queue q) rows = true ->
  ref_cols rf = [c] -> ref_refcols rf = ["id"] ->
  orphaned rf (filter (is_queue q) rows) r = value_eqb (get r c) (VUuid q).
Proof.
  intros Hex Hc Hr. unfold orphaned. rewrite Hc, Hr. apply existsb_const.
  - intros row Hrow. apply filter_In in Hrow. destruct Hrow as [_ Hp].
    unfold is_queue in Hp. apply value_eqb_eq in Hp.
    cbn [refers]. rewrite Hp.
    destruct (get r c); cbn; try reflexivity.
    rewrite andb_true_r. reflexivity.
  - apply existsb_exists in Hex. destruct Hex as (row & Hin & Hp).
    intros Hnil.
    assert (Hf : In row (filter (is_queue q) rows))
      by (apply filter_In; auto).
    rewrite Hnil in Hf. exact Hf.
Qed.

Lemma uses_queue_release (q : nat) (r : Row) :
  uses_queue q (release q r) = false.
Proof.
  unfold release. destruct (uses_queue q r) eqn:E; [| exact E].
  unfold uses_queue. rewrite get_set_null. reflexivity.
Qed.

Lemma existsb_eq {A} (f g : A -> bool) (l : list A) :
  (forall x, f x = g x) -> existsb f l = existsb g l.
Proof.
  intros H. induction l as [| x l IH]; cbn; [reflexivity |].
  rewrite H, IH. reflexivity.
Qed.

Lemma schema_spine :
  exists tq tw tp td tf,
    schema = [("worker_pool_queue", tq); ("worker", tw); ("worker_pool", tp);
              ("deployment", td); ("flow_run", tf)]
    /\ constraints tq
       = [ForeignKeyConstraint ["worker_pool_id"] "worker_pool" ["id"]
            "fk_worker_pool_queue__worker_pool_id__worker_pool" CASCADE;
          PrimaryKeyConstraint ["id"] "pk_worker_pool_queue";
          UniqueConstraint ["worker_pool_id"; "name"]
            "uq_worker_pool_queue__worker_pool_id_name"]
    /\ constraints tw
       = [ForeignKeyConstraint ["worker_pool_id"] "worker_pool" ["id"]
            "fk_worker__worker_pool_id__worker_pool" CASCADE;
          PrimaryKeyConstraint ["id"] "pk_worker";
          UniqueConstraint ["worker_pool_id"; "name"]
            "uq_worker__worker_pool_id_name"]
    /\ constraints tp
       = [PrimaryKeyConstraint ["id"] "pk_worker_pool";
          UniqueConstraint ["name"] "uq_worker_pool__name";
          ForeignKeyConstraint ["default_queue_id"] "worker_pool_queue" ["id"]
            "fk_worker_pool__default_queue_id__worker_pool_queue" RESTRICT]
    /\ constraints td
       = [PrimaryKeyConstraint ["id"] "pk_deployment";
          ForeignKeyConstraint ["worker_pool_queue_id"] "worker_pool_queue"
            ["id"] "fk_deployment__worker_pool_queue_id__worker_pool_queue"
            SET_NULL]
    /\ constraints tf
       = [PrimaryKeyConstraint ["id"] "pk_flow_run";
          ForeignKeyConstraint ["worker_pool_queue_id"] "worker_pool_queue"
            ["id"] "fk_flow_run__worker_pool_queue_id__worker_pool_queue"
            SET_NULL].
Proof.
  do 5 eexists. split; [vm_compute; reflexivity |].
  repeat split; reflexivity.
Qed.

(** Deleting a queue that exists, on a database that meets the constraints:
    while some pool has the queue as its default queue the deletion is
    refused (the foreign key of [default_queue_id] restricts); otherwise it
    goes through, the queue's row goes, every deployment and every flow run
    stays, those that named the queue with their [worker_pool_queue_id] set
    to [NULL] and the others as they were (the foreign keys say set null),
    so that none names the queue any more, and pools and workers are as
    they were. *)
Theorem deleting_a_queue_releases_what_used_it :
  forall (db : Database) (q : nat),
    db_ok schema db ->
    existsb (is_queue q) (db "worker_pool_queue") = true ->
    if existsb (has_default q) (db "worker_pool")
    then delete_worker_pool_queue db q = Raised IntegrityError
    else exists db',
        delete_worker_pool_queue db q = Ok db'
        /\ db' "worker_pool_queue"
           = filter (fun r => negb (is_queue q r)) (db "worker_pool_queue")
        /\ db' "deployment" = map (release q) (db "deployment")
        /\ db' "flow_run" = map (release q) (db "flow_run")
        /\ (forall r, In r (db' "deployment") \/ In r (db' "flow_run") ->
                      uses_queue q r = false)
        /\ db' "worker_pool" = db "worker_pool"
        /\ db' "worker" = db "worker".
Proof.
  intros db q Hok Hex.
  unfold delete_worker_pool_queue. rewrite delete_queues_eq. cbv zeta.
  assert (Hdef : forall r, orphaned as_default
                   (filter (is_queue q) (db "worker_pool_queue")) r
                 = has_default q r)
    by (intros r;
        apply (orphaned_by_id _ q as_default "default_queue_id" r Hex);
        reflexivity).
  assert (Hdep : forall r, orphaned from_deployment
                   (filter (is_queue q) (db "worker_pool_queue")) r
                 = uses_queue q r)
    by (intros r;
        apply (orphaned_by_id _ q from_deployment "worker_pool_queue_id" r
                 Hex);
        reflexivity).
  assert (Hfr : forall r, orphaned from_flow_run
                   (filter (is_queue q) (db "worker_pool_queue")) r
                 = uses_queue q r)
    by (intros r;
        apply (orphaned_by_id _ q from_flow_run "worker_pool_queue_id" r Hex);
        reflexivity).
  rewrite (existsb_eq _ _ (db "worker_pool") Hdef).
  destruct (existsb (has_default q) (db "worker_pool")); [reflexivity |].
  assert (Hd : exists tb, table_of schema "deployment" = Some tb
                          /\ set_null_ok tb ["worker_pool_queue_id"] = true)
    by (eexists; split; reflexivity).
  assert (Hf : exists tb, table_of schema "flow_run" = Some tb
                          /\ set_null_ok tb ["worker_pool_queue_id"] = true)
    by (eexists; split; reflexivity).
  destruct Hd as (tbd & Htd & Hsd). destruct Hf as (tbf & Htf & Hsf).
  unfold checked_write at 1. rewrite Htd.
  rewrite (table_ok_set_null tbd _ _ _ Hsd (Hok _ _ Htd)).
  unfold checked_write. rewrite Htf.
  rewrite set_rows_other by discriminate.
  rewrite set_rows_other by discriminate.
  rewrite (table_ok_set_null tbf _ _ _ Hsf (Hok _ _ Htf)).
  eexists. split; [reflexivity |].
  repeat (rewrite set_rows_other by discriminate).
  rewrite !set_rows_same.
  repeat (rewrite set_rows_other by discriminate).
  rewrite !set_rows_same.
  assert (Ed : map (fun r => if orphaned from_deployment
                                  (filter (is_queue q)
                                          (db "worker_pool_queue")) r
                             then set_null ["worker_pool_queue_id"] r else r)
                   (db "deployment")
               = map (release q) (db "deployment")).
  { apply map_ext. intros r. unfold release. rewrite Hdep. reflexivity. }
  assert (Ef : map (fun r => if orphaned from_flow_run
                                  (filter (is_queue q)
                                          (db "worker_pool_queue")) r
                             then set_null ["worker_pool_queue_id"] r else r)
                   (db "flow_run")
               = map (release q) (db "flow_run")).
  { apply map_ext. intros r. unfold release. rewrite Hfr. reflexivity. }
  rewrite Ed, Ef.
  split; [reflexivity |]. split; [reflexivity |]. split; [reflexivity |].
  split; [| split; reflexivity].
  intros r [Hr | Hr]; apply in_map_iff in Hr; destruct Hr as (x & <- & _);
    apply uses_queue_release.
Qed.

(** A pool with two queues, a deployment on each, and a flow run on the
    first. *)
Lemma deleting_a_queue_releases_what_used_it_witness :
  let db :=
    set_rows
      (set_rows
         (set_rows
            (set_rows empty "worker_pool" [pool_row 1 "docker" None])
            "worker_pool_queue"
            [queue_row 10 "default" 1 1 None; queue_row 11 "fast" 1 2 None])
         "deployment"
         [[("id", VUuid 500); ("worker_pool_queue_id", VUuid 10)];
          [("id", VUuid 501); ("worker_pool_queue_id", VUuid 11)]])
      "flow_run"
      [[("id", VUuid 900); ("worker_pool_queue_id", VUuid 10)]] in
  db_ok schema db
  /\ existsb (is_queue 10) (db "worker_pool_queue") = true
  /\ exists db',
      delete_worker_pool_queue db 10 = Ok db'
      /\ db' "worker_pool_queue"
         = filter (fun r => negb (is_queue 10 r)) (db "worker_pool_queue")
      /\ db' "deployment" = map (release 10) (db "deployment")
      /\ db' "flow_run" = map (release 10) (db "flow_run")
      /\ (forall r, In r (db' "deployment") \/ In r (db' "flow_run") ->
                    uses_queue 10 r = false)
      /\ db' "worker_pool" = db "worker_pool"
      /\ db' "worker" = db "worker".
Proof.
  intros db.
  assert (H1 : db_ok schema db).
  { intros t tb Ht.
    destruct schema_spine
      as (tq & tw & tp & td & tf & Hs & _).
    rewrite Hs in Ht. cbn [table_of] in Ht.
    destruct (String.eqb_spec "worker_pool_queue" t) as [<- | _];
      [injection Ht as <-;
       assert (E : table_of schema "worker_pool_queue" = Some tq)
         by (rewrite Hs; reflexivity);
       vm_compute in E; injection E as <-; vm_compute; reflexivity |].
    destruct (String.eqb_spec "worker" t) as [<- | _];
      [injection Ht as <-;
       assert (E : table_of schema "worker" = Some tw)
         by (rewrite Hs; reflexivity);
       vm_compute in E; injection E as <-; vm_compute; reflexivity |].
    destruct (String.eqb_spec "worker_pool" t) as [<- | _];
      [injection Ht as <-;
       assert (E : table_of schema "worker_pool" = Some tp)
         by (rewrite Hs; reflexivity);
       vm_compute in E; injection E as <-; vm_compute; reflexivity |].
    destruct (String.eqb_spec "deployment" t) as [<- | _];
      [injection Ht as <-;
       assert (E : table_of schema "deployment" = Some td)
         by (rewrite Hs; reflexivity);
       vm_compute in E; injection E as <-; vm_compute; reflexivity |].
    destruct (String.eqb_spec "flow_run" t) as [<- | _]; [| discriminate].
    injection Ht as <-.
    assert (E : table_of schema "flow_run" = Some tf)
      by (rewrite Hs; reflexivity).
    vm_compute in E. injection E as <-. vm_compute. reflexivity. }
  assert (H2 : existsb (is_queue 10) (db "worker_pool_queue") = true)
    by reflexivity.
  split; [exact H1 |]. split; [exact H2 |].
  exact (deleting_a_queue_releases_what_used_it db 10 H1 H2).
Defined.

(** The statement on the rows of the witness, and on a queue that is a
    pool's default queue. *)
Example deleting_queue_10 :
  let db :=
    set_rows
      (set_rows
         (set_rows empty "worker_pool" [pool_row 1 "docker" None])
         "worker_pool_queue"
         [queue_row 10 "default" 1 1 None; queue_row 11 "fast" 1 2 None])
      "deployment"
      [[("id", VUuid 500); ("worker_pool_queue_id", VUuid 10)];
       [("id", VUuid 501); ("worker_pool_queue_id", VUuid 11)]] in
  match delete_worker_pool_queue db 10 with
  | Ok db' =>
      map (fun r => get r "id") (db' "worker_pool_queue") = [VUuid 11]
      /\ map (fun r => get r "worker_pool_queue_id") (db' "deployment")
         = [NULL; VUuid 11]
  | Raised _ => False
  end
  /\ delete_worker_pool_queue
       (set_rows db "worker_pool"
          [("default_queue_id", VUuid 10) :: pool_row 1 "docker" None]) 10
     = Raised IntegrityError.
Proof. vm_compute. repeat split; reflexivity. Qed.

(** ** Referential integrity *)

(** On the schema of the migration, the rows find the parents their foreign
    keys name when the five foreign keys hold row by row. *)
Lemma fk_ok_schema (db : Database) : fk_ok schema db <-> referential db.
Proof.
  destruct schema_spine
    as (tq & tw & tp & td & tf & Hs & Hq & Hw & Hp & Hd & Hf).
  unfold fk_ok, referential, finds. rewrite Hs. split.
  - intros H.
    repeat split; intros r Hr;
      [ specialize (H "worker" tw r eq_refl Hr)
      | specialize (H "worker_pool_queue" tq r eq_refl Hr)
      | specialize (H "worker_pool" tp r eq_refl Hr)
      | specialize (H "deployment" td r eq_refl Hr)
      | specialize (H "flow_run" tf r eq_refl Hr) ];
      unfold parents_ok in H; rewrite ?Hw, ?Hq, ?Hp, ?Hd, ?Hf in H;
      cbn in H; rewrite !andb_true_r, orb_false_r in H; exact H.
  - intros (H1 & H2 & H3 & H4 & H5) t tb r Ht Hr.
    cbn [table_of] in Ht. unfold parents_ok.
    destruct (String.eqb_spec "worker_pool_queue" t) as [<- | _];
      [injection Ht as <-; rewrite Hq; cbn;
       rewrite orb_false_r, !andb_true_r; apply H2; exact Hr |].
    destruct (String.eqb_spec "worker" t) as [<- | _];
      [injection Ht as <-; rewrite Hw; cbn;
       rewrite orb_false_r, !andb_true_r; apply H1; exact Hr |].
    destruct (String.eqb_spec "worker_pool" t) as [<- | _];
      [injection Ht as <-; rewrite Hp; cbn;
       rewrite orb_false_r, !andb_true_r; apply H3; exact Hr |].
    destruct (String.eqb_spec "deployment" t) as [<- | _];
      [injection Ht as <-; rewrite Hd; cbn;
       rewrite orb_false_r, !andb_true_r; apply H4; exact Hr |].
    destruct (String.eqb_spec "flow_run" t) as [<- | _]; [| discriminate].
    injection Ht as <-. rewrite Hf. cbn.
    rewrite orb_false_r, !andb_true_r. apply H5. exact Hr.
Qed.

Lemma parent_ok_mono (db db' : Database) (r : Row) (k : Constraint) :
  (forall t x, In x (db t) -> In x (db' t)) ->
  parent_ok db r k = true -> parent_ok db' r k = true.
Proof.
  intros Hinc. destruct k as [| | cols reft refcols n od]; cbn; auto.
  intros H. apply orb_prop in H. destruct H as [H | H].
  - rewrite H. reflexivity.
  - apply existsb_exists in H. destruct H as (p & Hp & Hr).
    apply orb_true_intro. right. apply existsb_exists. exists p.
    split; [apply Hinc; exact Hp | exact Hr].
Qed.

Lemma parents_ok_mono (db db' : Database) (tb : Table) (r : Row) :
  (forall t x, In x (db t) -> In x (db' t)) ->
  parents_ok db tb r = true -> parents_ok db' tb r = true.
Proof.
  intros Hinc. unfold parents_ok. rewrite !forallb_forall.
  intros H k Hk. apply (parent_ok_mono db db' r k Hinc). apply H. exact Hk.
Qed.

Lemma parent_ok_same (db db' : Database) (r : Row) (k : Constraint) :
  (forall cols reft refcols n od,
      k = ForeignKeyConstraint cols reft refcols n od -> db' reft = db reft) ->
  parent_ok db' r k = parent_ok db r k.
Proof.
  destruct k as [| | cols reft refcols n od]; cbn; auto.
  intros H. rewrite (H cols reft refcols n od eq_refl). reflexivity.
Qed.

Lemma insert_fk_ok (sch : Schema) (db db' : Database) (t : string) (r : Row) :
  fk_ok sch db -> insert sch db t r = Ok db' -> fk_ok sch db'.
Proof.
  intros Hok. unfold insert.
  destruct (table_of sch t) as [tb |] eqn:Ht; [| discriminate].
  destruct (parents_ok db tb r) eqn:Hp; [| discriminate].
  intros Hw. apply checked_write_rows in Hw. subst db'.
  assert (Hinc : forall t' x,
             In x (db t') -> In x (set_rows db t (db t ++ [r]) t')).
  { intros t' x Hx. destruct (String.eqb_spec t t') as [<- | Hne].
    - rewrite set_rows_same. apply in_or_app. left. exact Hx.
    - rewrite set_rows_other by exact Hne. exact Hx. }
  intros t' tb' x Ht' Hx.
  apply (parents_ok_mono db _ tb' x Hinc).
  destruct (String.eqb_spec t t') as [<- | Hne].
  - rewrite set_rows_same in Hx. apply in_app_or in Hx.
    destruct Hx as [Hx | [<- | []]].
    + apply (Hok t tb' x Ht' Hx).
    + congruence.
  - rewrite set_rows_other in Hx by exact Hne. apply (Hok t' tb' x Ht' Hx).
Qed.

Lemma table_of_In (sch : Schema) (t : string) (tb : Table) :
  table_of sch t = Some tb -> In (t, tb) sch.
Proof.
  induction sch as [| [n tb0] sch IH]; cbn; [discriminate |].
  destruct (String.eqb_spec n t) as [-> | _].
  - intros [= ->]. left. reflexivity.
  - intros H. right. apply IH. exact H.
Qed.

Lemma in_references_to (sch : Schema) (t' : string) (tb : Table)
      (cols : list string) (t : string) (refcols : list string) (n : string)
      (od : OnDelete) :
  In (t', tb) sch ->
  In (ForeignKeyConstraint cols t refcols n od) (constraints tb) ->
  In (mkReference t' cols refcols od) (references_to sch t).
Proof.
  intros Hin Hk. unfold references_to. apply in_flat_map.
  exists (t', tb). split; [exact Hin |].
  unfold references_from. apply in_flat_map.
  exists (ForeignKeyConstraint cols t refcols n od). split; [exact Hk |].
  cbn. rewrite String.eqb_refl. left. reflexivity.
Qed.

Lemma update_fk_ok (sch : Schema) (db db' : Database) (t : string)
      (target : Row -> bool) (change : Row -> Row) :
  fk_ok sch db -> update sch db t target change = Ok db' -> fk_ok sch db'.
Proof.
  intros Hok. unfold update.
  destruct (table_of sch t) as [tb |] eqn:Ht; [| discriminate].
  destruct (checked_write sch db t _) as [d |] eqn:Hw; [| discriminate].
  destruct (forallb (parents_ok d tb) _) eqn:Hrows; [| discriminate].
  destruct (children_ok sch d t) eqn:Hch; [| discriminate].
  cbn. intros [= <-].
  pose proof (checked_write_rows _ _ _ _ _ Hw) as Hd.
  intros t' tb' x Ht' Hx.
  destruct (String.eqb_spec t t') as [<- | Hne].
  - assert (tb' = tb) by congruence. subst tb'.
    rewrite forallb_forall in Hrows. apply Hrows.
    rewrite Hd in Hx. rewrite set_rows_same in Hx. exact Hx.
  - assert (Hx0 : In x (db t')).
    { rewrite Hd in Hx. rewrite set_rows_other in Hx by exact Hne. exact Hx. }
    pose proof (Hok t' tb' x Ht' Hx0) as Hp.
    unfold parents_ok in Hp |- *. rewrite forallb_forall in Hp |- *.
    intros k Hk. specialize (Hp k Hk).
    destruct k as [| | cols reft refcols n od]; try reflexivity.
    destruct (String.eqb_spec t reft) as [<- | Hr].
    + unfold children_ok in Hch. rewrite forallb_forall in Hch.
      specialize (Hch _ (in_references_to sch t' tb' cols t refcols n od
                           (table_of_In _ _ _ Ht') Hk)).
      cbn [ref_table ref_cols ref_refcols] in Hch.
      rewrite forallb_forall in Hch. apply (Hch x Hx).
    + cbn in Hp |- *. rewrite Hd. rewrite set_rows_other by exact Hr. exact Hp.
Qed.

Lemma finds_same (db db' : Database) (parent col : string) (r : Row) :
  db' parent = db parent -> finds db' parent col r = finds db parent col r.
Proof. unfold finds. intros ->. reflexivity. Qed.

Lemma finds_null (db : Database) (parent col : string) (r : Row) :
  finds db parent col (set_null [col] r) = true.
Proof.
  unfold finds. rewrite get_set_null. cbn. rewrite String.eqb_refl. reflexivity.
Qed.

(** A row that the deleted rows do not orphan finds its parent among the
    rows that are left. *)
Lemma finds_survivor (db db' : Database) (parent col : string)
      (victim : Row -> bool) (rf : Reference) (r : Row) :
  ref_cols rf = [col] -> ref_refcols rf = ["id"] ->
  db' parent = filter (fun x => negb (victim x)) (db parent) ->
  finds db parent col r = true ->
  orphaned rf (filter victim (db parent)) r = false ->
  finds db' parent col r = true.
Proof.
  unfold finds, orphaned. intros -> -> -> H Ho.
  apply orb_prop in H. destruct H as [H | H]; [rewrite H; reflexivity |].
  apply existsb_exists in H. destruct H as (p & Hp & Hr).
  apply orb_true_intro. right. apply existsb_exists. exists p.
  split; [| exact Hr]. apply filter_In. split; [exact Hp |].
  destruct (victim p) eqn:Hv; [| reflexivity].
  assert (He : existsb (refers [col] ["id"] r) (filter victim (db parent))
               = true).
  { apply existsb_exists. exists p. split; [| exact Hr].
    apply filter_In. auto. }
  rewrite He in Ho. discriminate Ho.
Qed.

Lemma delete_pools_eq (db : Database) (victim : Row -> bool) :
  delete schema db "worker_pool" victim =
  let dead := filter victim (db "worker_pool") in
  let pools := filter (fun r => negb (victim r)) (db "worker_pool") in
  let dead_queues := filter (orphaned to_queues dead) (db "worker_pool_queue") in
  let queues := filter (fun r => negb (orphaned to_queues dead r))
                       (db "worker_pool_queue") in
  let db2 := set_rows (set_rows db "worker_pool" pools)
                      "worker_pool_queue" queues in
  if existsb (orphaned as_default dead_queues) pools
  then Raised IntegrityError
  else
    match checked_write schema db2 "deployment"
            (map (fun r => if orphaned from_deployment dead_queues r
                           then set_null ["worker_pool_queue_id"] r else r)
                 (db "deployment")) with
    | Raised e => Raised e
    | Ok d3 =>
        match checked_write schema d3 "flow_run"
                (map (fun r => if orphaned from_flow_run dead_queues r
                               then set_null ["worker_pool_queue_id"] r else r)
                     (d3 "flow_run")) with
        | Raised e => Raised e
        | Ok d4 =>
            Ok (set_rows d4 "worker"
                  (filter (fun r => negb (orphaned to_workers dead r))
                          (d4 "worker")))
        end
    end.
Proof.
  unfold delete.
  replace (S (List.length schema)) with 6 by reflexivity.
  rewrite delete_rows_step, references_to_worker_pool.
  cbn [fold_left to_queues to_workers ref_ondelete ref_table].
  rewrite delete_rows_step, references_to_worker_pool_queue.
  cbn [fold_left as_default from_deployment from_flow_run ref_ondelete
       ref_table ref_cols].
  rewrite (set_rows_other db "worker_pool" "worker_pool_queue")
    by discriminate.
  rewrite (set_rows_other _ "worker_pool_queue" "worker_pool")
    by discriminate.
  rewrite set_rows_same.
  cbv zeta.
  destruct (existsb _ (filter (fun r => negb (victim r)) _));
    [reflexivity |].
  rewrite (set_rows_other _ "worker_pool_queue" "deployment") by discriminate.
  rewrite (set_rows_other _ "worker_pool" "deployment") by discriminate.
  destruct (checked_write schema _ "deployment" _) as [d3 |]; [| reflexivity].
  destruct (checked_write schema d3 "flow_run" _) as [d4 |]; [| reflexivity].
  rewrite delete_rows_step, references_to_worker. reflexivity.
Qed.

Lemma existsb_false {A} (f : A -> bool) (l : list A) (x : A) :
  existsb f l = false -> In x l -> f x = false.
Proof.
  intros H Hx. destruct (f x) eqn:E; [| reflexivity].
  assert (existsb f l = true) by (apply existsb_exists; eauto). congruence.
Qed.

(** Rows released from the deleted rows of [parent], or kept as they are
    when they do not refer to one, find their parent. *)
Lemma finds_released (db db' : Database) (parent col : string)
      (victim : Row -> bool) (rf : Reference) (rows : list Row) (r' : Row) :
  ref_cols rf = [col] -> ref_refcols rf = ["id"] ->
  db' parent = filter (fun x => negb (victim x)) (db parent) ->
  (forall r, In r rows -> finds db parent col r = true) ->
  In r' (map (fun r => if orphaned rf (filter victim (db parent)) r
                       then set_null [col] r else r) rows) ->
  finds db' parent col r' = true.
Proof.
  intros Hc Hr Hp H Hin. apply in_map_iff in Hin.
  destruct Hin as (r & <- & Hin).
  destruct (orphaned rf _ r) eqn:Ho.
  - apply finds_null.
  - apply (finds_survivor db db' parent col victim rf r Hc Hr Hp (H r Hin) Ho).
Qed.

Lemma delete_queues_referential (db db' : Database) (victim : Row -> bool) :
  referential db ->
  delete schema db "worker_pool_queue" victim = Ok db' ->
  referential db'.
Proof.
  intros (H1 & H2 & H3 & H4 & H5). rewrite delete_queues_eq. cbv zeta.
  destruct (existsb _ (db "worker_pool")) eqn:Hres; [discriminate |].
  destruct (checked_write schema _ "deployment" _) as [d2 |] eqn:Hd2;
    [| discriminate].
  intros Hd3. apply checked_write_rows in Hd2, Hd3. subst db' d2.
  set (queues := filter (fun r => negb (victim r)) (db "worker_pool_queue")).
  unfold referential.
  repeat (rewrite set_rows_other by discriminate).
  rewrite !set_rows_same.
  repeat (rewrite set_rows_other by discriminate).
  rewrite !set_rows_same.
  match goal with |- context [finds ?d] => set (db' := d) end.
  assert (Hq : db' "worker_pool_queue" = queues).
  { unfold db'. repeat (rewrite set_rows_other by discriminate).
    apply set_rows_same. }
  assert (Hp : db' "worker_pool" = db "worker_pool").
  { unfold db'. repeat (rewrite set_rows_other by discriminate). reflexivity. }
  repeat split.
  - intros r Hr. rewrite (finds_same db db' _ _ r Hp). apply H1. exact Hr.
  - intros r Hr. rewrite (finds_same db db' _ _ r Hp). apply H2.
    apply filter_In in Hr. exact (proj1 Hr).
  - intros r Hr.
    apply (finds_survivor db db' _ _ victim as_default r eq_refl eq_refl Hq
             (H3 r Hr)).
    apply (existsb_false _ _ r Hres Hr).
  - intros r Hr.
    apply (finds_released db db' _ _ victim from_deployment (db "deployment")
             r eq_refl eq_refl Hq H4 Hr).
  - intros r Hr.
    apply (finds_released db db' _ _ victim from_flow_run (db "flow_run")
             r eq_refl eq_refl Hq H5 Hr).
Qed.

Lemma delete_pools_referential (db db' : Database) (victim : Row -> bool) :
  referential db ->
  delete schema db "worker_pool" victim = Ok db' ->
  referential db'.
Proof.
  intros (H1 & H2 & H3 & H4 & H5). rewrite delete_pools_eq. cbv zeta.
  set (dead := filter victim (db "worker_pool")).
  set (pools := filter (fun r => negb (victim r)) (db "worker_pool")).
  set (doomed := orphaned to_queues dead).
  set (queues := filter (fun r => negb (doomed r)) (db "worker_pool_queue")).
  destruct (existsb _ pools) eqn:Hres; [discriminate |].
  destruct (checked_write schema _ "deployment" _) as [d3 |] eqn:Hd3;
    [| discriminate].
  destruct (checked_write schema d3 "flow_run" _) as [d4 |] eqn:Hd4;
    [| discriminate].
  intros [= <-].
  apply checked_write_rows in Hd3, Hd4. subst d4 d3.
  unfold referential.
  rewrite !set_rows_same.
  repeat (rewrite set_rows_other by discriminate).
  rewrite !set_rows_same.
  repeat (rewrite set_rows_other by discriminate).
  rewrite !set_rows_same.
  match goal with |- context [finds ?d] => set (db' := d) end.
  assert (Hq : db' "worker_pool_queue" = queues).
  { unfold db'. repeat (rewrite set_rows_other by discriminate).
    apply set_rows_same. }
  assert (Hp : db' "worker_pool" = pools).
  { unfold db'. repeat (rewrite set_rows_other by discriminate).
    apply set_rows_same. }
  repeat split.
  - intros r Hr. apply filter_In in Hr. destruct Hr as [Hr Ho].
    apply (finds_survivor db db' _ _ victim to_workers r eq_refl eq_refl Hp
             (H1 r Hr)).
    fold dead.
    destruct (orphaned to_workers dead r); [discriminate | reflexivity].
  - intros r Hr. apply filter_In in Hr. destruct Hr as [Hr Ho].
    apply (finds_survivor db db' _ _ victim to_queues r eq_refl eq_refl Hp
             (H2 r Hr)).
    fold dead. fold doomed. destruct (doomed r); [discriminate | reflexivity].
  - intros r Hr.
    assert (Hr0 : In r (db "worker_pool")).
    { apply filter_In in Hr. exact (proj1 Hr). }
    apply (finds_survivor db db' _ _ doomed as_default r eq_refl eq_refl Hq
             (H3 r Hr0)).
    apply (existsb_false _ _ r Hres Hr).
  - intros r Hr.
    apply (finds_released db db' _ _ doomed from_deployment (db "deployment")
             r eq_refl eq_refl Hq H4 Hr).
  - intros r Hr.
    apply (finds_released db db' _ _ doomed from_flow_run (db "flow_run")
             r eq_refl eq_refl Hq H5 Hr).
Qed.

Lemma references_to_other (t : string) :
  t <> "worker_pool" -> t <> "worker_pool_queue" ->
  references_to schema t = [].
Proof.
  intros Hp Hq.
  destruct schema_spine
    as (tq & tw & tp & td & tf & Hs & Hcq & Hcw & Hcp & Hcd & Hcf).
  unfold references_to. rewrite Hs. cbn [flat_map]. unfold references_from.
  cbn [snd fst]. rewrite Hcq, Hcw, Hcp, Hcd, Hcf. cbn [flat_map app].
  destruct (String.eqb_spec "worker_pool" t); [congruence |].
  destruct (String.eqb_spec "worker_pool_queue" t); [congruence |].
  reflexivity.
Qed.

Lemma in_set_rows_filter (db : Database) (t c : string) (f : Row -> bool)
      (r : Row) :
  In r (set_rows db t (filter f (db t)) c) -> In r (db c).
Proof.
  destruct (String.eqb_spec t c) as [<- | Hne].
  - rewrite set_rows_same. intros H. apply filter_In in H. exact (proj1 H).
  - rewrite set_rows_other by exact Hne. auto.
Qed.

Lemma delete_others_referential (db db' : Database) (t : string)
      (victim : Row -> bool) :
  t <> "worker_pool" -> t <> "worker_pool_queue" ->
  referential db ->
  delete schema db t victim = Ok db' ->
  referential db'.
Proof.
  intros Hp Hq (H1 & H2 & H3 & H4 & H5). unfold delete.
  replace (S (List.length schema)) with 6 by reflexivity.
  rewrite delete_rows_step, (references_to_other t Hp Hq).
  cbn [fold_left]. intros [= <-].
  assert (Ep : forall col r,
             finds (set_rows db t (filter (fun r => negb (victim r)) (db t)))
                   "worker_pool" col r
             = finds db "worker_pool" col r).
  { intros col r. apply finds_same. apply set_rows_other. exact Hp. }
  assert (Eq : forall col r,
             finds (set_rows db t (filter (fun r => negb (victim r)) (db t)))
                   "worker_pool_queue" col r
             = finds db "worker_pool_queue" col r).
  { intros col r. apply finds_same. apply set_rows_other. exact Hq. }
  repeat split; intros r Hr; apply in_set_rows_filter in Hr;
    rewrite ?Ep, ?Eq; auto.
Qed.

Lemma delete_referential (db db' : Database) (t : string)
      (victim : Row -> bool) :
  referential db -> delete schema db t victim = Ok db' -> referential db'.
Proof.
  intros H.
  destruct (String.eqb_spec t "worker_pool") as [-> | Hp];
    [apply delete_pools_referential; exact H |].
  destruct (String.eqb_spec t "worker_pool_queue") as [-> | Hq];
    [apply delete_queues_referential; exact H |].
  apply delete_others_referential; assumption.
Qed.

Lemma execute_fk_ok (db db' : Database) (st : Statement) :
  fk_ok schema db -> execute schema db st = Ok db' -> fk_ok schema db'.
Proof.
  intros Hok. destruct st as [t r | t victim | t target change];
    cbn [execute].
  - apply insert_fk_ok. exact Hok.
  - intros Hd. apply fk_ok_schema. apply fk_ok_schema in Hok.
    apply (delete_referential db db' t victim Hok Hd).
  - apply update_fk_ok. exact Hok.
Qed.

Lemma execute_all_fk_ok (sts : list Statement) (db : Database) :
  fk_ok schema db -> fk_ok schema (execute_all schema db sts).
Proof.
  revert db. induction sts as [| st sts IH]; intros db Hok; [exact Hok |].
  change (execute_all schema db (st :: sts))
    with (execute_all schema
            (match execute schema db st with
             | Ok d' => d'
             | Raised _ => db
             end) sts).
  apply IH. destruct (execute schema db st) as [d |] eqn:Hd.
  - apply (execute_fk_ok _ _ _ Hok Hd).
  - exact Hok.
Qed.

Lemma fk_ok_empty (sch : Schema) : fk_ok sch empty.
Proof. intros t tb r _ []. Qed.

Lemma finds_has_parent (db : Database) (parent col : string) (r : Row) :
  finds db parent col r = true ->
  get r col = NULL \/ has_parent db parent col r.
Proof.
  unfold finds, has_parent. intros H. apply orb_prop in H.
  destruct H as [H | H].
  - left. destruct (get r col); try discriminate H. reflexivity.
  - right. apply existsb_exists in H. destruct H as (p & Hp & Hr).
    exists p. split; [exact Hp |]. cbn [refers] in Hr.
    rewrite andb_true_r in Hr. apply andb_prop in Hr.
    destruct Hr as [Hn He]. apply value_eqb_eq in He. split.
    + intros E. rewrite E in Hn. discriminate Hn.
    + symmetry. exact He.
Qed.

(** No statement leaves a row without the row it refers to.  Whatever
    statements (inserts, updates, deletes with their cascades) are issued
    one after another on a database that meets the constraints and whose
    rows find the parents their foreign keys name, refused statements
    changing nothing: every worker and every queue has its pool among the
    pools; the default queue of every pool that has one is among the
    queues; and the queue of every deployment and of every flow run that
    has one is among the queues. *)
Theorem no_statement_orphans_a_row :
  forall (db : Database) (sts : list Statement),
    db_ok schema db ->
    fk_ok schema db ->
    let db' := execute_all schema db sts in
    (forall r, In r (db' "worker") ->
               has_parent db' "worker_pool" "worker_pool_id" r)
    /\ (forall r, In r (db' "worker_pool_queue") ->
                  has_parent db' "worker_pool" "worker_pool_id" r)
    /\ (forall r, In r (db' "worker_pool") ->
                  get r "default_queue_id" = NULL
                  \/ has_parent db' "worker_pool_queue" "default_queue_id" r)
    /\ (forall r, In r (db' "deployment") ->
                  get r "worker_pool_queue_id" = NULL
                  \/ has_parent db' "worker_pool_queue"
                                "worker_pool_queue_id" r)
    /\ (forall r, In r (db' "flow_run") ->
                  get r "worker_pool_queue_id" = NULL
                  \/ has_parent db' "worker_pool_queue"
                                "worker_pool_queue_id" r).
Proof.
  intros db sts Hok Hfk db'.
  pose proof (execute_all_ok schema sts db Hok) as Hok'.
  pose proof (execute_all_fk_ok sts db Hfk) as Hfk'.
  fold db' in Hok', Hfk'. clearbody db'.
  apply fk_ok_schema in Hfk'.
  destruct Hfk' as (H1 & H2 & H3 & H4 & H5).
  assert (Hw : exists tb, table_of schema "worker" = Some tb
                          /\ not_null_column tb "worker_pool_id" = true)
    by (eexists; split; reflexivity).
  assert (Hq : exists tb, table_of schema "worker_pool_queue" = Some tb
                          /\ not_null_column tb "worker_pool_id" = true)
    by (eexists; split; reflexivity).
  destruct Hw as (tbw & Htw & Hnw). destruct Hq as (tbq & Htq & Hnq).
  split; [| split; [| split; [| split]]].
  - intros r Hr. destruct (finds_has_parent _ _ _ _ (H1 r Hr)) as [E | H];
      [| exact H].
    pose proof (not_null_of_table_ok tbw _ r _ (Hok' _ _ Htw) Hr Hnw) as Hn.
    rewrite E in Hn. discriminate Hn.
  - intros r Hr. destruct (finds_has_parent _ _ _ _ (H2 r Hr)) as [E | H];
      [| exact H].
    pose proof (not_null_of_table_ok tbq _ r _ (Hok' _ _ Htq) Hr Hnq) as Hn.
    rewrite E in Hn. discriminate Hn.
  - intros r Hr. apply finds_has_parent. apply H3. exact Hr.
  - intros r Hr. apply finds_has_parent. apply H4. exact Hr.
  - intros r Hr. apply finds_has_parent. apply H5. exact Hr.
Qed.

(** The theorem at the empty tables the migration creates, on which a
    worker is inserted for a pool that is not there (refused), then the
    pool, a queue and a worker of it, and the pool is deleted. *)
Lemma no_statement_orphans_a_row_witness :
  let sts := [INSERT "worker" (worker_row 100 "w1" 1);
              INSERT "worker_pool" (pool_row 1 "docker" None);
              INSERT "worker_pool_queue" (queue_row 10 "default" 1 1 None);
              INSERT "worker" (worker_row 101 "w2" 1);
              DELETE "worker_pool" (is_pool 1)] in
  let db' := execute_all schema empty sts in
  db_ok schema empty
  /\ fk_ok schema empty
  /\ (forall r, In r (db' "worker") ->
                has_parent db' "worker_pool" "worker_pool_id" r)
  /\ (forall r, In r (db' "worker_pool_queue") ->
                has_parent db' "worker_pool" "worker_pool_id" r)
  /\ (forall r, In r (db' "worker_pool") ->
                get r "default_queue_id" = NULL
                \/ has_parent db' "worker_pool_queue" "default_queue_id" r)
  /\ (forall r, In r (db' "deployment") ->
                get r "worker_pool_queue_id" = NULL
                \/ has_parent db' "worker_pool_queue"
                              "worker_pool_queue_id" r)
  /\ (forall r, In r (db' "flow_run") ->
                get r "worker_pool_queue_id" = NULL
                \/ has_parent db' "worker_pool_queue"
                              "worker_pool_queue_id" r).
Proof.
  intros sts db'.
  split; [apply empty_ok |]. split; [apply fk_ok_empty |].
  exact (no_statement_orphans_a_row empty sts (empty_ok schema)
           (fk_ok_empty schema)).
Defined.

(** The statements of the witness before the deletion: the first worker is
    refused, the second is taken. *)
Example a_worker_needs_its_pool :
  let db := execute_all schema empty
              [INSERT "worker" (worker_row 100 "w1" 1);
               INSERT "worker_pool" (pool_row 1 "docker" None);
               INSERT "worker_pool_queue" (queue_row 10 "default" 1 1 None);
               INSERT "worker" (worker_row 101 "w2" 1)] in
  db "worker" = [worker_row 101 "w2" 1]
  /\ db "worker_pool_queue" = [queue_row 10 "default" 1 1 None].
Proof. vm_compute. split; reflexivity. Qed.

(** ** The migration, operation by operation *)

Import op ddl.

Lemma has_table_cons (n : string) (tb : Table) (s : Schema) (t : string) :
  has_table ((n, tb) :: s) t = String.eqb n t || has_table s t.
Proof. unfold has_table. cbn. destruct (String.eqb n t); reflexivity. Qed.

Lemma has_index_cons (n : string) (tb : Table) (s : Schema) (x : string) :
  has_index ((n, tb) :: s) x
  = existsb (fun ix => String.eqb (index_name ix) x) (indexes tb)
    || has_index s x.
Proof. reflexivity. Qed.

Lemma referred_to_cons (n : string) (tb : Table) (s : Schema) (x : string) :
  referred_to ((n, tb) :: s) x
  = negb (String.eqb n x) && refers_to x tb || referred_to s x.
Proof. reflexivity. Qed.

Lemma run_checked_cons (o : Op) (rest : list Op) (s : Schema) :
  permitted s o = true ->
  run_checked (o :: rest) s = run_checked rest (apply s o).
Proof. intros H. cbn [run_checked]. rewrite H. reflexivity. Qed.

Lemma has_index_alter (s : Schema) (t : string) (f : Table -> Table)
      (x : string) :
  (forall tb,
      existsb (fun ix => String.eqb (index_name ix) x) (indexes (f tb))
      = existsb (fun ix => String.eqb (index_name ix) x) (indexes tb)) ->
  has_index (alter s t f) x = has_index s x.
Proof.
  intros Hf. unfold has_index. induction s as [| [n tb] s IH]; [reflexivity |].
  cbn [alter]. destruct (String.eqb n t); cbn [existsb snd].
  - rewrite Hf. reflexivity.
  - rewrite IH. reflexivity.
Qed.

Lemma no_column (c : string) (tb : Table) :
  without_column c tb = true -> has_column (columns tb) c = false.
Proof.
  unfold without_column, has_column. intros H.
  apply andb_prop in H. destruct H as [H _].
  apply andb_prop in H. destruct H as [H _].
  induction (columns tb) as [| col l IH]; [reflexivity |].
  cbn in H |- *. apply andb_prop in H. destruct H as [H1 H2].
  rewrite (IH H2). destruct (String.eqb (column_name col) c);
    [discriminate H1 | reflexivity].
Qed.

(** Computing on the tables the migration has written out. *)
Ltac literal :=
  cbn [String.eqb Ascii.eqb Bool.eqb existsb forallb negb andb orb
       index_name indexes columns column_name constraints constraint_columns
       constraint_name has_column has_constraint is_key same_columns
       declarable refers_to fst snd app table_of
       add_worker_tables.id_column add_worker_tables.created_column
       add_worker_tables.updated_column op.f].


Lemma at_down_revision_facts (base : Schema) :
  at_down_revision base = true ->
  (forall n, In n ["worker_pool"; "worker"; "worker_pool_queue"] ->
             has_table base n = false /\ referred_to base n = false)
  /\ (forall n, In n (created_indexes add_worker_tables.upgrade) ->
                has_index base n = false)
  /\ (exists tbd,
         table_of base "deployment" = Some tbd
         /\ without_column "worker_pool_queue_id" tbd = true
         /\ has_constraint tbd
              "fk_deployment__worker_pool_queue_id__worker_pool_queue"
            = false)
  /\ (exists tbf,
         table_of base "flow_run" = Some tbf
         /\ without_column "worker_pool_queue_id" tbf = true
         /\ has_constraint tbf
              "fk_flow_run__worker_pool_queue_id__worker_pool_queue"
            = false).
Proof.
  unfold at_down_revision, takes_queue_column. intros H.
  apply andb_prop in H. destruct H as [H Hf].
  apply andb_prop in H. destruct H as [H Hd].
  apply andb_prop in H. destruct H as [Ht Hi].
  rewrite forallb_forall in Ht, Hi.
  split; [| split; [| split]].
  - intros n Hn. specialize (Ht n Hn). apply andb_prop in Ht.
    destruct Ht as [H1 H2]. apply negb_true_iff in H1, H2. auto.
  - intros n Hn. apply negb_true_iff. apply Hi. exact Hn.
  - destruct (table_of base "deployment") as [tbd |]; [| discriminate Hd].
    exists tbd. apply andb_prop in Hd. destruct Hd as [H1 H2].
    apply negb_true_iff in H2. auto.
  - destruct (table_of base "flow_run") as [tbf |]; [| discriminate Hf].
    exists tbf. apply andb_prop in Hf. destruct Hf as [H1 H2].
    apply negb_true_iff in H2. auto.
Qed.

Lemma table_of_absent (s : Schema) (t : string) :
  has_table s t = false -> table_of s t = None.
Proof.
  unfold has_table. destruct (table_of s t); [discriminate | reflexivity].
Qed.

Lemma has_column_app (a b : list Column) (c : string) :
  has_column (a ++ b) c = has_column a c || has_column b c.
Proof. unfold has_column. apply existsb_app. Qed.

(** What is known of the schema the migration starts from. *)
Ltac facts Ht Hi :=
  repeat match goal with
    | |- context [has_table ((?n, ?tb) :: ?s) ?t] =>
        rewrite (has_table_cons n tb s t)
    | |- context [has_index ((?n, ?tb) :: ?s) ?t] =>
        rewrite (has_index_cons n tb s t)
    | |- context [has_index (alter ?s ?t ?g) ?x] =>
        rewrite (has_index_alter s t g x)
          by (intros; cbn [indexes]; rewrite ?existsb_app; literal;
              rewrite ?orb_false_r; reflexivity)
    | |- context [has_table ?b ?n] =>
        rewrite (proj1 (Ht n ltac:(cbn; tauto)))
    | |- context [has_index ?b ?n] => rewrite (Hi n ltac:(cbn; tauto))
    | |- context [table_of (alter ?s ?t ?g) ?t] =>
        rewrite (table_of_alter_same s t g)
    | |- context [table_of (alter ?s ?t ?g) ?t'] =>
        rewrite (table_of_alter_other s t t' g) by discriminate
    end.

(** One operation: it is permitted, and this is the schema it leaves. *)
Ltac step Ht Hi tac :=
  rewrite run_checked_cons;
  [ cbn [fold_left op.apply alter String.eqb Ascii.eqb Bool.eqb op.f
         columns constraints indexes app];
    rewrite ?alter_alter
  | cbn [permitted op.f]; literal; facts Ht Hi; tac; literal;
    try reflexivity ].

Lemma upgrade_is_accepted (base : Schema) :
  at_down_revision base = true ->
  run_checked add_worker_tables.upgrade base
  = Some (op.run add_worker_tables.upgrade base).
Proof.
  intros H.
  destruct (at_down_revision_facts base H)
    as (Ht & Hi & (tbd & Hd & Hwd & Hcd) & (tbf & Hf & Hwf & Hcf)).
  assert (Htp : table_of base "worker_pool" = None)
    by (apply table_of_absent; apply Ht; cbn; tauto).
  assert (Htw : table_of base "worker" = None)
    by (apply table_of_absent; apply Ht; cbn; tauto).
  assert (Htq : table_of base "worker_pool_queue" = None)
    by (apply table_of_absent; apply Ht; cbn; tauto).
  pose proof (no_column _ _ Hwd) as Hnd.
  pose proof (no_column _ _ Hwf) as Hnf.
  unfold op.run, add_worker_tables.upgrade.
  do 12 (step Ht Hi ltac:(rewrite ?Htp, ?Htw, ?Htq)).
  unfold has_constraint in Hcd, Hcf.
  do 6 (step Ht Hi
           ltac:(rewrite ?Hd, ?Hf;
                 cbn [option_map columns constraints indexes];
                 unfold op.f, has_constraint, declarable;
                 cbn [constraints constraint_columns forallb];
                 rewrite ?has_column_app, ?Hnd, ?Hnf, ?Hcd, ?Hcf)).
  reflexivity.
Qed.

Lemma downgrade_is_accepted (base : Schema) :
  at_down_revision base = true ->
  run_checked add_worker_tables.downgrade
              (op.run add_worker_tables.upgrade base)
  = Some base.
Proof.
  intros H.
  destruct (at_down_revision_facts base H)
    as (Ht & Hi & (tbd & Hd & Hwd & Hcd) & (tbf & Hf & Hwf & Hcf)).
  assert (Htp : table_of base "worker_pool" = None)
    by (apply table_of_absent; apply Ht; cbn; tauto).
  assert (Htw : table_of base "worker" = None)
    by (apply table_of_absent; apply Ht; cbn; tauto).
  assert (Htq : table_of base "worker_pool_queue" = None)
    by (apply table_of_absent; apply Ht; cbn; tauto).
  unfold op.run, add_worker_tables.upgrade, add_worker_tables.downgrade.
  cbn [fold_left op.apply alter String.eqb Ascii.eqb Bool.eqb op.f
       columns constraints indexes app].
  rewrite !alter_alter.
  (* the two columns *)
  rewrite run_checked_cons.
  2: { cbn [permitted table_of String.eqb Ascii.eqb Bool.eqb].
       rewrite table_of_alter_other by discriminate.
       rewrite table_of_alter_same, Hd. cbn [option_map columns].
       rewrite has_column_app. cbn. apply orb_true_r. }
  cbn [op.apply alter String.eqb Ascii.eqb Bool.eqb].
  rewrite run_checked_cons.
  2: { cbn [permitted table_of String.eqb Ascii.eqb Bool.eqb].
       rewrite table_of_alter_other by discriminate.
       rewrite table_of_alter_same.
       rewrite table_of_alter_other by discriminate.
       rewrite Hf. cbn [option_map columns].
       rewrite has_column_app. cbn. apply orb_true_r. }
  cbn [op.apply alter String.eqb Ascii.eqb Bool.eqb].
  (* what was there is there again *)
  rewrite (alter_comm _ "flow_run" "deployment") by discriminate.
  rewrite !alter_alter.
  rewrite (alter_same _ "flow_run").
  2: { intros tb Htb. rewrite table_of_alter_other in Htb by discriminate.
       rewrite Hf in Htb. injection Htb as <-.
       cbn [columns constraints indexes].
       apply drop_added_column; [exact Hwf | reflexivity ..]. }
  rewrite (alter_same _ "deployment").
  2: { intros tb Htb. rewrite Hd in Htb. injection Htb as <-.
       cbn [columns constraints indexes].
       apply drop_added_column; [exact Hwd | reflexivity ..]. }
  (* the default queue *)
  rewrite run_checked_cons by reflexivity.
  cbn [op.apply alter String.eqb Ascii.eqb Bool.eqb columns constraints
       indexes filter negb constraint_name op.f].
  (* the three tables *)
  rewrite run_checked_cons.
  2: { cbn [permitted]. rewrite !has_table_cons, !referred_to_cons.
       rewrite (proj2 (Ht "worker_pool_queue" ltac:(cbn; tauto))).
       reflexivity. }
  cbn [op.apply filter fst negb String.eqb Ascii.eqb Bool.eqb].
  rewrite (drop_absent_table _ _ Htq).
  rewrite run_checked_cons.
  2: { cbn [permitted]. rewrite !has_table_cons, !referred_to_cons.
       rewrite (proj2 (Ht "worker" ltac:(cbn; tauto))).
       reflexivity. }
  cbn [op.apply filter fst negb String.eqb Ascii.eqb Bool.eqb].
  rewrite (drop_absent_table _ _ Htw).
  rewrite run_checked_cons.
  2: { cbn [permitted]. rewrite !has_table_cons, !referred_to_cons.
       rewrite (proj2 (Ht "worker_pool" ltac:(cbn; tauto))).
       reflexivity. }
  cbn [op.apply filter fst negb String.eqb Ascii.eqb Bool.eqb].
  rewrite (drop_absent_table _ _ Htp).
  reflexivity.
Qed.

(** The operations of the migration come in an order the database accepts.
    On a schema on which the migration has not run, every operation of
    [upgrade()] is permitted when its turn comes (a table is created before
    the tables and the foreign keys that refer to it, the foreign key of
    [default_queue_id] after the queue table); on the schema this leaves,
    every operation of [downgrade()] is permitted when its turn comes (the
    columns and the constraint that refer to the queue table go before it,
    the worker and queue tables before the pool table) and the schema the
    migration started from is back; and [upgrade()] is not accepted a second
    time. *)
Theorem the_migration_is_accepted_in_order :
  forall (base : Schema),
    at_down_revision base = true ->
    run_checked add_worker_tables.upgrade base
    = Some (op.run add_worker_tables.upgrade base)
    /\ run_checked add_worker_tables.downgrade
                   (op.run add_worker_tables.upgrade base)
       = Some base
    /\ run_checked add_worker_tables.upgrade
                   (op.run add_worker_tables.upgrade base)
       = None.
Proof.
  intros base H. split; [| split].
  - apply upgrade_is_accepted. exact H.
  - apply downgrade_is_accepted. exact H.
  - reflexivity.
Qed.

(** The theorem at the tables of the earlier revisions. *)
Lemma the_migration_is_accepted_in_order_witness :
  let base := add_worker_tables.earlier_revisions in
  at_down_revision base = true
  /\ run_checked add_worker_tables.upgrade base
     = Some (op.run add_worker_tables.upgrade base)
  /\ run_checked add_worker_tables.downgrade
                 (op.run add_worker_tables.upgrade base)
     = Some base
  /\ run_checked add_worker_tables.upgrade
                 (op.run add_worker_tables.upgrade base)
     = None.
Proof.
  intros base.
  assert (H : at_down_revision base = true) by (vm_compute; reflexivity).
  split; [exact H |].
  exact (the_migration_is_accepted_in_order base H).
Defined.

(** The order matters: once [upgrade()] has run, the pool table and the
    queue table cannot be dropped as a first step, and [downgrade()] in
    reverse is refused. *)
Example the_tables_cannot_be_dropped_first :
  permitted add_worker_tables.schema (drop_table "worker_pool") = false
  /\ permitted add_worker_tables.schema (drop_table "worker_pool_queue")
     = false
  /\ run_checked (rev add_worker_tables.downgrade) add_worker_tables.schema
     = None.
Proof. vm_compute. repeat split; reflexivity. Qed.

(** ** No run is failed before its deadline *)

Import deadlines.

Section DueFacts.

Variable clock : nat -> Z.
Variable set_flow_run_state :
  Store -> nat -> State -> bool -> outcome unit * Store.
Variable batch_size : nat.

Lemma overdue_wider (rows : Store) (lo hi lo' hi' i : nat) :
  lo' <= lo -> hi <= hi' ->
  overdue clock rows lo hi i -> overdue clock rows lo' hi' i.
Proof.
  intros Hlo Hhi (r & d & k & Hr & Hi & Hp & Hd & Hk & Hlt).
  exists r, d, k. repeat split; try assumption; lia.
Qed.

Lemma overdue_rows (rows rows' : Store) (lo hi i : nat) :
  (forall r, In r rows -> is_paused r = true -> In r rows') ->
  overdue clock rows lo hi i -> overdue clock rows' lo hi i.
Proof.
  intros Hin (r & d & k & Hr & Hi & Hp & Hd & Hk & Hlt).
  exists r, d, k. repeat split; try assumption; try lia.
  apply Hin; assumption.
Qed.

(** Marking reads the clock forwards, and calls on a run only when the
    reading it took for the run is past the run's deadline. *)
Lemma mark_each_due (l : list FlowRun) :
  (forall r, In r l -> is_paused r = true) ->
  forall (w : Env),
    ticks w <= ticks (snd (fst (mark_each clock set_flow_run_state l w)))
    /\ forall i,
        In i (set_state_calls (snd (mark_each clock set_flow_run_state l w))) ->
        overdue clock l (ticks w)
                (ticks (snd (fst (mark_each clock set_flow_run_state l w)))) i.
Proof.
  induction l as [| run l IH]; intros Hp w; cbn [mark_each].
  - cbn. split; [lia | intros i []].
  - assert (Hl : forall r, In r l -> is_paused r = true)
      by (intros r Hr; apply Hp; right; exact Hr).
    assert (Hrest : forall (w1 : Env) lo hi i,
               overdue clock l lo hi i -> overdue clock (run :: l) lo hi i).
    { intros _ lo hi i. apply overdue_rows. intros r Hr _. right. exact Hr. }
    unfold bind.
    destruct (pause_timeout (state_details (state run))) as [d |] eqn:Hd.
    + destruct (Z.ltb_spec d (clock (ticks w))) as [Hlt | Hge].
      * rewrite (mark_due clock set_flow_run_state run w d Hd Hlt).
        assert (Hrun : forall hi, S (ticks w) <= hi ->
                   overdue clock (run :: l) (ticks w) hi (id run)).
        { intros hi Hhi. exists run, d, (ticks w).
          repeat split; try assumption; try lia.
          - left. reflexivity.
          - apply Hp. left. reflexivity. }
        destruct (set_flow_run_state _ _ _ _) as [[u | e] s'].
        -- specialize (IH Hl {| store := s'; ticks := S (ticks w) |}).
           destruct (mark_each clock set_flow_run_state l _) as [[r2 w2] t2].
           cbn [fst snd ticks] in IH |- *. destruct IH as [Hle Hc].
           split; [lia |]. intros i [<- | Hi].
           ++ apply Hrun. exact Hle.
           ++ apply (Hrest w). apply (overdue_wider l (S (ticks w)) (ticks w2));
                [lia | lia | apply Hc; exact Hi].
        -- cbn [fst snd ticks set_state_calls fail_call].
           split; [lia |]. intros i [<- | []]. apply Hrun. lia.
      * rewrite (mark_not_due clock set_flow_run_state run w d Hd Hge).
        specialize (IH Hl (tick w)).
        destruct (mark_each clock set_flow_run_state l (tick w))
          as [[r2 w2] t2].
        cbn [fst snd ticks tick] in IH |- *. destruct IH as [Hle Hc].
        split; [lia |]. intros i Hi.
        apply (Hrest w). apply (overdue_wider l (S (ticks w)) (ticks w2));
          [lia | lia | apply Hc; exact Hi].
    + rewrite (mark_no_deadline clock set_flow_run_state run w Hd).
      cbn. split; [lia | intros i []].
Qed.

Lemma set_state_calls_batch (sel : list nat) (t tail : list Event) :
  set_state_calls tail = [] ->
  set_state_calls (EvBegin :: EvSelect sel :: t ++ tail) = set_state_calls t.
Proof.
  intros H. cbn [set_state_calls]. rewrite set_state_calls_app, H.
  apply app_nil_r.
Qed.

(** One turn of the loop calls on selected runs that were overdue. *)
Lemma batch_due (w : Env) :
  ticks w <= ticks (snd (fst (batch clock set_flow_run_state batch_size w)))
  /\ forall i,
      In i (set_state_calls
              (snd (batch clock set_flow_run_state batch_size w))) ->
      overdue clock (store w) (ticks w)
              (ticks (snd (fst (batch clock set_flow_run_state batch_size w))))
              i.
Proof.
  rewrite batch_eq.
  assert (Hsel : forall r, In r (select_paused batch_size (store w)) ->
                           In r (store w) /\ is_paused r = true).
  { intros r Hr. unfold select_paused in Hr. apply in_firstn in Hr.
    apply filter_In in Hr. exact Hr. }
  pose proof (mark_each_due (select_paused batch_size (store w))
                (fun r Hr => proj2 (Hsel r Hr)) w) as H.
  destruct (mark_each clock set_flow_run_state _ w) as [[[u | e] w1] t];
    cbn [fst snd ticks] in H |- *; destruct H as [Hle Hc];
    (split; [exact Hle |]); intros i Hi.
  - unfold committed in Hi. rewrite set_state_calls_batch in Hi by reflexivity.
    apply (overdue_rows (select_paused batch_size (store w))).
    + intros r Hr _. apply Hsel. exact Hr.
    + apply Hc. exact Hi.
  - rewrite set_state_calls_batch in Hi by reflexivity.
    apply (overdue_rows (select_paused batch_size (store w))).
    + intros r Hr _. apply Hsel. exact Hr.
    + apply Hc. exact Hi.
Qed.

Hypothesis contract : fails_paused_runs set_flow_run_state.

Lemma kept_paused (s s' : Store) (y : FlowRun) :
  Forall2 kept_or_failed s s' -> In y s' -> is_paused y = true -> In y s.
Proof.
  induction 1 as [| a b s s' Hab _ IH]; intros Hin Hp; [contradiction |].
  destruct Hin as [-> | Hin]; [| right; apply IH; assumption].
  left. destruct Hab as [E | (_ & _ & Hst)]; [symmetry; exact E |].
  unfold is_paused, state_type in Hp. rewrite Hst in Hp. discriminate Hp.
Qed.

Lemma batch_loop_due (fuel : nat) (s : Store) :
  forall (w : Env),
    NoDup (ids (store w)) ->
    Forall2 kept_or_failed s (store w) ->
    ticks w
    <= ticks (snd (fst (batch_loop clock set_flow_run_state batch_size
                                   fuel w)))
    /\ forall i,
        In i (set_state_calls
                (snd (batch_loop clock set_flow_run_state batch_size
                                 fuel w))) ->
        overdue clock s (ticks w)
                (ticks (snd (fst (batch_loop clock set_flow_run_state
                                             batch_size fuel w)))) i.
Proof.
  induction fuel as [| fuel IH]; intros w Hnd Hfr; cbn [batch_loop].
  - cbn. split; [lia | intros i []].
  - pose proof (batch_due w) as Hb.
    pose proof (batch_kept clock set_flow_run_state contract batch_size w Hnd)
      as Hk.
    assert (Hrows : forall lo hi i,
               overdue clock (store w) lo hi i -> overdue clock s lo hi i).
    { intros lo hi i. apply overdue_rows. intros r Hr Hp.
      apply (kept_paused s (store w) r Hfr Hr Hp). }
    destruct (batch clock set_flow_run_state batch_size w)
      as [[[[|] | e] w1] t]; cbn [fst snd] in Hb, Hk |- *;
      destruct Hb as [Hle Hc].
    + split; [exact Hle |]. intros i Hi. apply Hrows. apply Hc. exact Hi.
    + assert (Hnd1 : NoDup (ids (store w1))).
      { rewrite (frame_ids _ _ Hk). exact Hnd. }
      specialize (IH w1 Hnd1 (frame_trans _ _ _ Hfr Hk)).
      destruct (batch_loop clock set_flow_run_state batch_size fuel w1)
        as [[st w2] t2].
      cbn [fst snd] in IH |- *. destruct IH as [Hle2 Hc2].
      split; [lia |]. intros i Hi. rewrite set_state_calls_app in Hi.
      apply in_app_or in Hi. destruct Hi as [Hi | Hi].
      * apply Hrows. apply (overdue_wider (store w) (ticks w) (ticks w1));
          [lia | lia | apply Hc; exact Hi].
      * apply (overdue_wider s (ticks w1) (ticks w2));
          [lia | lia | apply Hc2; exact Hi].
    + split; [exact Hle |]. intros i Hi. apply Hrows. apply Hc. exact Hi.
Qed.

End DueFacts.

(** A pass fails no run before its deadline.  However the pass goes and
    however long it is followed, every call of [set_flow_run_state] it
    makes (in a batch that commits or in one that is rolled back) is on a
    run that was Paused in the table the pass started from, and whose
    deadline had passed at a reading of the clock the pass took.  The table
    has unique ids and the state machine is any that fails Paused runs on
    request. *)
Theorem a_pass_fails_no_run_before_its_deadline :
  forall (clock : nat -> Z)
         (set_flow_run_state :
            Store -> nat -> State -> bool -> outcome unit * Store)
         (batch_size fuel : nat) (s : Store) (tk : nat),
    fails_paused_runs set_flow_run_state ->
    NoDup (ids s) ->
    let pass := run_once clock set_flow_run_state batch_size fuel
                         {| store := s; ticks := tk |} in
    forall i,
      In i (set_state_calls (snd pass)) ->
      overdue clock s tk (ticks (snd (fst pass))) i.
Proof.
  intros clock sfrs bs fuel s tk Hk Hnd pass i. unfold pass, run_once.
  pose proof (batch_loop_due clock sfrs bs Hk fuel s
                {| store := s; ticks := tk |} Hnd (frame_refl s)) as H.
  destruct (batch_loop clock sfrs bs fuel _) as [[[| e |] w1] t];
    cbn [fst snd ticks] in H |- *; destruct H as [_ Hc];
    try (apply Hc).
  intros Hi. rewrite set_state_calls_app in Hi. cbn in Hi.
  rewrite app_nil_r in Hi. apply Hc. exact Hi.
Qed.

(** The theorem at a clock that goes forward by one at every reading, and
    three Paused runs: the first is overdue from the start, the deadline of
    the second goes by during the pass, the third waits. *)
Lemma a_pass_fails_no_run_before_its_deadline_witness :
  let clock := fun k => Z.of_nat k in
  let sfrs := state_machine.set_state (fun _ _ => false) 7 in
  let s := [paused_run 1 (Some (-1)%Z); paused_run 2 (Some 1%Z);
            paused_run 3 (Some 3600%Z)] in
  let pass := run_once clock sfrs 2 5 {| store := s; ticks := 0 |} in
  fails_paused_runs sfrs
  /\ NoDup (ids s)
  /\ forall i,
      In i (set_state_calls (snd pass)) ->
      overdue clock s 0 (ticks (snd (fst pass))) i.
Proof.
  intros clock sfrs s pass.
  assert (H0 : fails_paused_runs sfrs) by apply reference_fails_paused_runs.
  assert (H1 : NoDup (ids s)).
  { cbn. repeat constructor; cbn; intuition discriminate. }
  split; [exact H0 |]. split; [exact H1 |].
  exact (a_pass_fails_no_run_before_its_deadline clock sfrs 2 5 s 0 H0 H1).
Defined.

(** The pass of the witness: run 1 is failed in the first batch, run 2 in
    the second (its deadline, not yet passed at the second reading, has
    gone by at the third), run 3 is left Paused. *)
Example a_deadline_that_goes_by_during_the_pass :
  let pass := run_once (fun k => Z.of_nat k)
                       (state_machine.set_state (fun _ _ => false) 7) 2 5
                       {| store := [paused_run 1 (Some (-1)%Z);
                                    paused_run 2 (Some 1%Z);
                                    paused_run 3 (Some 3600%Z)];
                          ticks := 0 |} in
  fst (fst pass) = Returned
  /\ set_state_calls (snd pass) = [1; 2]
  /\ batch_sizes (snd pass) = [2; 2; 1].
Proof. vm_compute. repeat split; reflexivity. Qed.

(** ** What an accepted upgrade adds *)

Lemma run_checked_run (ops : list Op) (s s' : Schema) :
  run_checked ops s = Some s' -> s' = op.run ops s.
Proof.
  unfold op.run. revert s. induction ops as [| o ops IH]; intros s;
    cbn [run_checked fold_left].
  - intros [= <-]. reflexivity.
  - destruct (permitted s o); [apply IH | discriminate].
Qed.

(** Every operation of an accepted run was permitted when its turn came. *)
Lemma run_checked_permits (a : list Op) (o : Op) (b : list Op)
      (s s' : Schema) :
  run_checked (a ++ o :: b) s = Some s' -> permitted (op.run a s) o = true.
Proof.
  unfold op.run. revert s. induction a as [| x a IH]; intros s;
    cbn [app run_checked fold_left].
  - destruct (permitted s o); [reflexivity | discriminate].
  - destruct (permitted s x); [apply IH | discriminate].
Qed.

(** On the two tables it alters, [upgrade()] only adds.  Whenever the
    database accepts the operations of [upgrade()], the [deployment] table
    and the [flow_run] table were there without a column
    [worker_pool_queue_id], and each has afterwards the columns,
    constraints and indexes it had, in their order, and after them the
    nullable column [worker_pool_queue_id], its foreign key to
    [worker_pool_queue] with [ondelete] set null, and its index. *)
Theorem an_accepted_upgrade_only_adds_to_deployment_and_flow_run :
  forall (base upgraded : Schema),
    run_checked add_worker_tables.upgrade base = Some upgraded ->
    exists tbd tbf,
      table_of base "deployment" = Some tbd
      /\ table_of base "flow_run" = Some tbf
      /\ has_column (columns tbd) "worker_pool_queue_id" = false
      /\ has_column (columns tbf) "worker_pool_queue_id" = false
      /\ table_of upgraded "deployment"
         = Some (mkTable
                   (columns tbd
                    ++ [mkColumn "worker_pool_queue_id" UUID None true])
                   (constraints tbd
                    ++ [ForeignKeyConstraint ["worker_pool_queue_id"]
                          "worker_pool_queue" ["id"]
                          "fk_deployment__worker_pool_queue_id__worker_pool_queue"
                          SET_NULL])
                   (indexes tbd
                    ++ [mkIndex "ix_deployment__worker_pool_queue_id"
                                ["worker_pool_queue_id"] false]))
      /\ table_of upgraded "flow_run"
         = Some (mkTable
                   (columns tbf
                    ++ [mkColumn "worker_pool_queue_id" UUID None true])
                   (constraints tbf
                    ++ [ForeignKeyConstraint ["worker_pool_queue_id"]
                          "worker_pool_queue" ["id"]
                          "fk_flow_run__worker_pool_queue_id__worker_pool_queue"
                          SET_NULL])
                   (indexes tbf
                    ++ [mkIndex "ix_flow_run__worker_pool_queue_id"
                                ["worker_pool_queue_id"] false])).
Proof.
  intros base upgraded Hrun.
  pose proof (run_checked_run _ _ _ Hrun) as ->.
  assert (Hd : exists tbd,
             table_of base "deployment" = Some tbd
             /\ has_column (columns tbd) "worker_pool_queue_id" = false).
  { pose proof (run_checked_permits
                  (firstn 12 add_worker_tables.upgrade)
                  (add_column "deployment"
                     (mkColumn "worker_pool_queue_id" UUID None true))
                  (skipn 13 add_worker_tables.upgrade) base _ Hrun) as Hp.
    cbn [permitted column_name] in Hp.
    rewrite table_of_run_other in Hp
      by (cbn [firstn add_worker_tables.upgrade];
          repeat (apply Forall_cons; [cbn; discriminate |]);
          apply Forall_nil).
    destruct (table_of base "deployment") as [tbd |]; [| discriminate Hp].
    exists tbd. split; [reflexivity |]. apply negb_true_iff. exact Hp. }
  assert (Hf : exists tbf,
             table_of base "flow_run" = Some tbf
             /\ has_column (columns tbf) "worker_pool_queue_id" = false).
  { pose proof (run_checked_permits
                  (firstn 15 add_worker_tables.upgrade)
                  (add_column "flow_run"
                     (mkColumn "worker_pool_queue_id" UUID None true))
                  (skipn 16 add_worker_tables.upgrade) base _ Hrun) as Hp.
    cbn [permitted column_name] in Hp.
    rewrite table_of_run_other in Hp
      by (cbn [firstn add_worker_tables.upgrade];
          repeat (apply Forall_cons; [cbn; discriminate |]);
          apply Forall_nil).
    destruct (table_of base "flow_run") as [tbf |]; [| discriminate Hp].
    exists tbf. split; [reflexivity |]. apply negb_true_iff. exact Hp. }
  destruct Hd as (tbd & Hd & Hnd). destruct Hf as (tbf & Hf & Hnf).
  exists tbd, tbf.
  destruct (run_upgrade_on_deployment_and_flow_run base) as [Ed Ef].
  rewrite Ed, Ef, Hd, Hf. cbn [option_map]. auto 6.
Qed.

(** The theorem at the tables of the earlier revisions, on which
    [upgrade()] is accepted and gives the schema of the worker tables. *)
Lemma an_accepted_upgrade_only_adds_to_deployment_and_flow_run_witness :
  let base := add_worker_tables.earlier_revisions in
  let upgraded := add_worker_tables.schema in
  run_checked add_worker_tables.upgrade base = Some upgraded
  /\ exists tbd tbf,
      table_of base "deployment" = Some tbd
      /\ table_of base "flow_run" = Some tbf
      /\ has_column (columns tbd) "worker_pool_queue_id" = false
      /\ has_column (columns tbf) "worker_pool_queue_id" = false
      /\ table_of upgraded "deployment"
         = Some (mkTable
                   (columns tbd
                    ++ [mkColumn "worker_pool_queue_id" UUID None true])
                   (constraints tbd
                    ++ [ForeignKeyConstraint ["worker_pool_queue_id"]
                          "worker_pool_queue" ["id"]
                          "fk_deployment__worker_pool_queue_id__worker_pool_queue"
                          SET_NULL])
                   (indexes tbd
                    ++ [mkIndex "ix_deployment__worker_pool_queue_id"
                                ["worker_pool_queue_id"] false]))
      /\ table_of upgraded "flow_run"
         = Some (mkTable
                   (columns tbf
                    ++ [mkColumn "worker_pool_queue_id" UUID None true])
                   (constraints tbf
                    ++ [ForeignKeyConstraint ["worker_pool_queue_id"]
                          "worker_pool_queue" ["id"]
                          "fk_flow_run__worker_pool_queue_id__worker_pool_queue"
                          SET_NULL])
                   (indexes tbf
                    ++ [mkIndex "ix_flow_run__worker_pool_queue_id"
                                ["worker_pool_queue_id"] false])).
Proof.
  intros base upgraded.
  assert (H : run_checked add_worker_tables.upgrade base = Some upgraded)
    by (vm_compute; reflexivity).
  split; [exact H |].
  exact (an_accepted_upgrade_only_adds_to_deployment_and_flow_run
           base upgraded H).
Defined.

(** Where [upgrade()] is not accepted nothing is added: on a schema with a
    [flow_run] table and no [deployment] table the run is refused (at the
    column of [deployment], after the worker tables), as it is on the
    upgraded schema. *)
Example upgrade_is_refused_without_deployment :
  run_checked add_worker_tables.upgrade
    [("flow_run", mkTable [add_worker_tables.id_column]
                    [PrimaryKeyConstraint ["id"] "pk_flow_run"] [])]
  = None
  /\ run_checked add_worker_tables.upgrade add_worker_tables.schema = None.
Proof. vm_compute. split; reflexivity. Qed.

(** ** A pass under a clock that goes forward *)

Section SweepFacts.

Variable clock : nat -> Z.
Variable set_flow_run_state :
  Store -> nat -> State -> bool -> outcome unit * Store.
Hypothesis contract : fails_paused_runs set_flow_run_state.
Variable batch_size : nat.
Hypothesis forward : goes_forward clock.

Local Notation "'frame'" := (Forall2 kept_or_failed).
Local Notation "'paused'" := (filter is_paused).
Local Notation "'calls'" := set_state_calls.

Lemma frame_partner (s s' : Store) (x : FlowRun) :
  frame s s' -> In x s -> exists y, In y s' /\ kept_or_failed x y.
Proof.
  induction 1 as [| a b s s' Hab _ IH]; intros Hin; [contradiction |].
  destruct Hin as [<- | Hin].
  - exists b. split; [left; reflexivity | exact Hab].
  - destruct (IH Hin) as (y & Hy & Hk). exists y. split; [right |]; assumption.
Qed.

Lemma failed_not_paused (y : FlowRun) :
  state y = Failed never_resumed -> is_paused y = false.
Proof.
  intros H. unfold is_paused, state_type. rewrite H. reflexivity.
Qed.

(** Along a pass the Paused runs only get fewer. *)
Lemma frame_paused_le (f : FlowRun -> bool) (s s' : Store) :
  frame s s' ->
  List.length (filter f (paused s')) <= List.length (filter f (paused s)).
Proof.
  induction 1 as [| x y s s' Hxy _ IH]; [reflexivity |].
  cbn [filter]. destruct Hxy as [-> | (Hp & _ & Hst)].
  - destruct (is_paused x); [| exact IH].
    cbn [filter]. destruct (f x); cbn [List.length]; lia.
  - rewrite (failed_not_paused y Hst), Hp. cbn [filter].
    destruct (f x); cbn [List.length]; lia.
Qed.

Lemma frame_paused_count (s s' : Store) :
  frame s s' -> List.length (paused s') <= List.length (paused s).
Proof.
  induction 1 as [| x y s s' Hxy _ IH]; [reflexivity |].
  cbn [filter]. destruct Hxy as [-> | (Hp & _ & Hst)].
  - destruct (is_paused x); cbn [List.length]; lia.
  - rewrite (failed_not_paused y Hst), Hp. cbn [List.length]. lia.
Qed.

Lemma frame_paused_lt (s s' : Store) (x : FlowRun) :
  frame s s' -> In x s -> is_paused x = true -> ~ In x s' ->
  List.length (paused s') < List.length (paused s).
Proof.
  induction 1 as [| a b s s' Hab Hrest IH]; intros Hin Hp Hno;
    [contradiction |].
  pose proof (frame_paused_count s s' Hrest) as Hle.
  cbn [filter]. destruct Hin as [<- | Hin].
  - destruct Hab as [-> | (_ & _ & Hst)].
    + exfalso. apply Hno. left. reflexivity.
    + rewrite (failed_not_paused b Hst), Hp. cbn [List.length]. lia.
  - assert (Hlt : List.length (paused s') < List.length (paused s)).
    { apply IH; [exact Hin | exact Hp |]. intros H. apply Hno. right. exact H. }
    destruct Hab as [-> | (Hpa & _ & Hst)].
    + destruct (is_paused a); cbn [List.length]; lia.
    + rewrite (failed_not_paused b Hst), Hpa. cbn [List.length]. lia.
Qed.

Lemma not_in_write (s : Store) (r : FlowRun) (t : Z) :
  is_paused r = true ->
  ~ In r (write_run_state s (id r) (Failed never_resumed) t).
Proof.
  intros Hp Hin. unfold write_run_state in Hin. apply in_map_iff in Hin.
  destruct Hin as (x & E & _).
  destruct (Nat.eqb_spec (id x) (id r)) as [_ | Hne].
  - rewrite <- E in Hp. discriminate Hp.
  - subst x. apply Hne. reflexivity.
Qed.

Lemma due_forward (r : FlowRun) (j k : nat) :
  j <= k -> is_due (clock j) r = true -> is_due (clock k) r = true.
Proof.
  intros Hjk. unfold is_due.
  destruct (pause_timeout (state_details (state r))) as [d |]; [| auto].
  intros H. apply Z.ltb_lt in H. apply Z.ltb_lt.
  pose proof (forward j k Hjk). lia.
Qed.

(** Marking runs that are Paused rows of the table and have a deadline goes
    through.  It reads the clock once for each; a run it calls on is no
    longer in the table as it was; a run it does not call on was not due at
    the reading taken for it; and a row it does not call on is kept. *)
Lemma mark_each_sweep (l : list FlowRun) :
  forall (w : Env),
    NoDup (ids (store w)) -> NoDup (ids l) ->
    (forall r, In r l ->
               In r (store w) /\ is_paused r = true
               /\ pause_timeout (state_details (state r)) <> None) ->
    exists w1 t,
      mark_each clock set_flow_run_state l w = (Ok tt, w1, t)
      /\ ticks w1 = List.length l + ticks w
      /\ (forall r, In r l ->
            (In (id r) (calls t) /\ ~ In r (store w1))
            \/ (~ In (id r) (calls t)
                /\ exists k, ticks w <= k /\ is_due (clock k) r = false))
      /\ (forall x, In x (store w) -> ~ In (id x) (calls t) ->
                    In x (store w1)).
Proof.
  induction l as [| r l IH]; intros w Hnd Hl Hrows.
  - exists w, []. cbn. unfold ret.
    split; [reflexivity |]. split; [reflexivity |].
    split; [intros r [] | auto].
  - cbn in Hl. apply NoDup_cons_iff in Hl. destruct Hl as [Hr Hl].
    destruct (Hrows r (or_introl eq_refl)) as (Hin & Hp & Hsome).
    assert (Hne : forall x, In x l -> id x <> id r).
    { intros x Hx E. apply Hr. rewrite <- E. apply in_map. exact Hx. }
    cbn [mark_each]. unfold bind.
    destruct (pause_timeout (state_details (state r))) as [d |] eqn:Hd;
      [| contradiction].
    destruct (Z.ltb_spec d (clock (ticks w))) as [Hlt | Hge].
    + (* due: the call writes the Failed state *)
      rewrite (mark_due clock set_flow_run_state r w d Hd Hlt).
      destruct (contract (store w) r (read_run_in _ _ Hnd Hin) Hp)
        as (t1 & Hcall).
      rewrite Hcall.
      set (s1 := write_run_state (store w) (id r) (Failed never_resumed) t1).
      assert (Hnd1 : NoDup (ids s1)).
      { unfold s1. rewrite ids_write_run_state. exact Hnd. }
      assert (Hrows1 : forall x, In x l ->
                 In x s1 /\ is_paused x = true
                 /\ pause_timeout (state_details (state x)) <> None).
      { intros x Hx. destruct (Hrows x (or_intror Hx)) as (Hxin & Hxp & Hxs).
        split; [| auto]. apply in_write_run_state; [exact Hxin |].
        apply Hne. exact Hx. }
      destruct (IH {| store := s1; ticks := S (ticks w) |} Hnd1 Hl Hrows1)
        as (w1 & t & Hm & Htk & Hsel & Hkeep).
      pose proof (mark_each_kept clock set_flow_run_state contract l
                    {| store := s1; ticks := S (ticks w) |} Hnd1 Hl
                    (fun x Hx => conj (proj1 (Hrows1 x Hx))
                                      (proj1 (proj2 (Hrows1 x Hx)))))
        as Hfr.
      rewrite Hm in Hfr |- *. cbn [fst snd store ticks] in *.
      exists w1, (fail_call (id r) :: t).
      split; [reflexivity |]. split; [cbn [List.length]; lia |]. split.
      * intros x [<- | Hx].
        -- left. split; [left; reflexivity |].
           intros Hin1. apply (not_in_write (store w) r t1 Hp).
           apply (kept_paused s1 (store w1) r Hfr Hin1 Hp).
        -- destruct (Hsel x Hx) as [[Hc Hgone] | [Hnc (k & Hk & Hnd')]].
           ++ left. split; [right; exact Hc | exact Hgone].
           ++ right. split.
              ** intros [E | Hc]; [apply (Hne x Hx); symmetry; exact E |].
                 contradiction.
              ** exists k. split; [lia | exact Hnd'].
      * intros x Hx Hnc. apply Hkeep.
        -- apply in_write_run_state; [exact Hx |].
           intros E. apply Hnc. left. symmetry. exact E.
        -- intros Hc. apply Hnc. right. exact Hc.
    + (* not due: nothing is called *)
      rewrite (mark_not_due clock set_flow_run_state r w d Hd Hge).
      destruct (IH (tick w) Hnd Hl (fun x Hx => Hrows x (or_intror Hx)))
        as (w1 & t & Hm & Htk & Hsel & Hkeep).
      rewrite Hm. cbn [ticks tick store app] in *.
      exists w1, t.
      split; [reflexivity |]. split; [cbn [List.length]; lia |].
      split; [| exact Hkeep].
      intros x [<- | Hx].
      * right. split.
        -- intros Hc.
           destruct (mark_each_calls clock set_flow_run_state _ _ _ _ _ Hm)
             as [_ Hi].
           apply Hr. apply Hi. exact Hc.
        -- exists (ticks w). split; [lia |]. unfold is_due. rewrite Hd.
           apply Z.ltb_ge. exact Hge.
      * destruct (Hsel x Hx) as [H | [Hnc (k & Hk & Hnd')]]; [left; exact H |].
        right. split; [exact Hnc |]. exists k. split; [lia | exact Hnd'].
Qed.

Lemma selected_rows (w : Env) (r : FlowRun) :
  In r (select_paused batch_size (store w)) ->
  In r (store w) /\ is_paused r = true.
Proof.
  unfold select_paused. intros Hr. apply in_firstn in Hr.
  apply filter_In in Hr. exact Hr.
Qed.

(** One turn of the loop on a table whose Paused runs all have a
    deadline. *)
Lemma batch_sweep (w : Env) :
  NoDup (ids (store w)) ->
  (forall r, In r (store w) -> is_paused r = true ->
             pause_timeout (state_details (state r)) <> None) ->
  exists w1 t,
    batch clock set_flow_run_state batch_size w
    = (Ok (Nat.ltb (List.length (select_paused batch_size (store w)))
                   batch_size),
       w1, committed (ids (select_paused batch_size (store w))) t)
    /\ ticks w1 = List.length (select_paused batch_size (store w)) + ticks w
    /\ (forall r, In r (select_paused batch_size (store w)) ->
          (In (id r) (calls t) /\ ~ In r (store w1))
          \/ (~ In (id r) (calls t)
              /\ exists k, ticks w <= k /\ is_due (clock k) r = false))
    /\ (forall x, In x (store w) -> ~ In (id x) (calls t) -> In x (store w1))
    /\ incl (calls t) (ids (select_paused batch_size (store w)))
    /\ frame (store w) (store w1).
Proof.
  intros Hnd Hdl.
  destruct (mark_each_sweep (select_paused batch_size (store w)) w Hnd
              (NoDup_ids_selected batch_size _ Hnd))
    as (w1 & t & Hm & Htk & Hsel & Hkeep).
  { intros r Hr. destruct (selected_rows w r Hr) as [Hin Hp].
    split; [exact Hin |]. split; [exact Hp |]. apply Hdl; assumption. }
  pose proof (batch_kept clock set_flow_run_state contract batch_size w Hnd)
    as Hfr.
  rewrite batch_eq in Hfr |- *. rewrite Hm in Hfr |- *. cbn [fst snd] in Hfr.
  exists w1, t. repeat split; try assumption.
  destruct (mark_each_calls clock set_flow_run_state _ _ _ _ _ Hm) as [_ Hi].
  exact Hi.
Qed.

Lemma calls_committed (sel : list nat) (t : list Event) :
  calls (committed sel t) = calls t.
Proof. unfold committed. apply set_state_calls_batch. reflexivity. Qed.

Lemma not_due_before (r : FlowRun) (j k : nat) :
  j <= k -> is_due (clock k) r = false -> is_due (clock j) r = false.
Proof.
  intros Hjk Hk. destruct (is_due (clock j) r) eqn:Hj; [| reflexivity].
  rewrite (due_forward r j k Hjk Hj) in Hk. discriminate Hk.
Qed.

(** When, at some reading of the clock, fewer Paused runs than a batch holds
    are still not due, the loop is left: a full batch either fails a run or
    lets the clock go on towards that reading, and past it every full batch
    holds a run that is due.  When it is left, the runs that were due from
    the start have been called on and are no longer as they were, and the
    rows that were not called on are kept. *)
Lemma batch_loop_sweeps (K : nat) (fuel : nat) :
  forall (w : Env),
    NoDup (ids (store w)) ->
    (forall r, In r (store w) -> is_paused r = true ->
               pause_timeout (state_details (state r)) <> None) ->
    List.length (filter (fun r => negb (is_due (clock K) r))
                        (paused (store w))) < batch_size ->
    List.length (paused (store w)) + (K - ticks w) < fuel ->
    exists w' ev,
      batch_loop clock set_flow_run_state batch_size fuel w
      = (Returned, w', ev)
      /\ (forall r, In r (store w) -> is_paused r = true ->
                    is_due (clock (ticks w)) r = true ->
                    In (id r) (calls ev) /\ ~ In r (store w'))
      /\ (forall x, In x (store w) -> ~ In (id x) (calls ev) ->
                    In x (store w')).
Proof.
  induction fuel as [| fuel IH]; intros w Hnd Hdl HK Hfuel; [lia |].
  destruct (batch_sweep w Hnd Hdl)
    as (w1 & t & Hb & Htk & Hsel & Hkeep & Hincl & Hfr).
  set (sel := select_paused batch_size (store w)) in *.
  assert (Hin_sel : forall r, In r (store w) -> is_paused r = true ->
                              In (id r) (calls t) -> In r sel).
  { intros r Hr Hp Hc. apply Hincl in Hc. unfold ids in Hc.
    apply in_map_iff in Hc. destruct Hc as (x & Hid & Hx).
    destruct (selected_rows w x Hx) as [Hxin _].
    rewrite <- (same_id_same_row (store w) x r Hnd Hxin Hr Hid). exact Hx. }
  cbn [batch_loop]. rewrite Hb.
  destruct (Nat.ltb_spec (List.length sel) batch_size) as [Hshort | Hfull].
  - (* the last batch holds every Paused run *)
    exists w1, (committed (ids sel) t). split; [reflexivity |].
    rewrite calls_committed. split; [| exact Hkeep].
    intros r Hr Hp Hdue.
    assert (Hrs : In r sel).
    { unfold sel, select_paused in *. rewrite length_firstn in Hshort.
      rewrite firstn_all2 by lia. apply filter_In. auto. }
    destruct (Hsel r Hrs) as [H | [_ (k & Hk & Hno)]]; [exact H |].
    rewrite (due_forward r (ticks w) k Hk Hdue) in Hno. discriminate Hno.
  - (* a full batch: the loop goes round *)
    assert (Hlen : List.length sel = batch_size).
    { unfold sel, select_paused in *. rewrite length_firstn in *. lia. }
    assert (Hnd1 : NoDup (ids (store w1))).
    { rewrite (frame_ids _ _ Hfr). exact Hnd. }
    assert (Hdl1 : forall r, In r (store w1) -> is_paused r = true ->
                             pause_timeout (state_details (state r)) <> None).
    { intros r Hr Hp. apply Hdl; [| exact Hp].
      apply (kept_paused (store w) (store w1) r Hfr Hr Hp). }
    assert (HK1 : List.length (filter (fun r => negb (is_due (clock K) r))
                                      (paused (store w1))) < batch_size).
    { pose proof (frame_paused_le (fun r => negb (is_due (clock K) r))
                    _ _ Hfr). lia. }
    assert (Hmeasure : List.length (paused (store w1)) + (K - ticks w1)
                       < List.length (paused (store w)) + (K - ticks w)).
    { destruct (calls t) as [| i rest] eqn:Hcalls.
      - (* nothing was due: the clock has gone on, and it had to *)
        pose proof (frame_paused_count _ _ Hfr) as Hle.
        assert (Hbefore : ticks w < K).
        { destruct (Nat.lt_ge_cases (ticks w) K) as [H | Hge]; [exact H |].
          exfalso.
          assert (Hsub : incl sel (filter (fun r => negb (is_due (clock K) r))
                                          (paused (store w)))).
          { intros r Hr. apply filter_In.
            destruct (selected_rows w r Hr) as [Hin Hp].
            split; [apply filter_In; auto |].
            destruct (Hsel r Hr) as [[[] _] | [_ (k & Hk & Hno)]].
            rewrite (not_due_before r K k ltac:(lia) Hno). reflexivity. }
          assert (Hnds : NoDup sel).
          { apply (NoDup_map_inv id).
            apply (NoDup_ids_selected batch_size _ Hnd). }
          pose proof (NoDup_incl_length Hnds Hsub). lia. }
        lia.
      - (* a run was failed *)
        assert (Hi : In i (calls t)) by (rewrite Hcalls; left; reflexivity).
        rewrite <- Hcalls in *. clear Hcalls.
        pose proof (Hincl i Hi) as Hids. unfold ids in Hids.
        apply in_map_iff in Hids. destruct Hids as (r & Hid & Hr).
        destruct (selected_rows w r Hr) as [Hin Hp].
        destruct (Hsel r Hr) as [[_ Hgone] | [Hnc _]].
        + pose proof (frame_paused_lt _ _ r Hfr Hin Hp Hgone). lia.
        + exfalso. apply Hnc. rewrite Hid. exact Hi. }
    destruct (IH w1 Hnd1 Hdl1 HK1 ltac:(lia))
      as (w' & ev2 & Hloop & Hdue2 & Hkeep2).
    rewrite Hloop. exists w', (committed (ids sel) t ++ ev2).
    split; [reflexivity |].
    assert (Hfr2 : frame (store w1) (store w')).
    { pose proof (batch_loop_kept clock set_flow_run_state contract
                    batch_size fuel w1 Hnd1) as H.
      rewrite Hloop in H. exact H. }
    split.
    + intros r Hr Hp Hdue. rewrite set_state_calls_app, calls_committed.
      destruct (in_dec Nat.eq_dec (id r) (calls t)) as [Hc | Hnc].
      * split; [apply in_or_app; left; exact Hc |].
        destruct (Hsel r (Hin_sel r Hr Hp Hc)) as [[_ Hgone] | [Hnc _]];
          [| contradiction].
        intros Hr'. apply Hgone.
        apply (kept_paused (store w1) (store w') r Hfr2 Hr' Hp).
      * destruct (Hdue2 r (Hkeep r Hr Hnc) Hp) as [Hc2 Hgone2].
        -- apply (due_forward r (ticks w) (ticks w1)); [lia | exact Hdue].
        -- split; [apply in_or_app; right; exact Hc2 | exact Hgone2].
    + intros x Hx Hnc. rewrite set_state_calls_app, calls_committed in Hnc.
      apply Hkeep2.
      * apply Hkeep; [exact Hx |]. intros Hc. apply Hnc.
        apply in_or_app. left. exact Hc.
      * intros Hc. apply Hnc. apply in_or_app. right. exact Hc.
Qed.

End SweepFacts.



(** The pass of the witness.  For eighteen batches the query returns the
    same 200 runs and nothing is failed; in the nineteenth their deadline
    goes by and 199 of them are failed; the twentieth holds the two Paused
    runs that are left, among them the run that was due from the start, and
    the pass returns.  After nineteen batches it has not. *)
Example the_due_run_behind_a_full_batch_is_failed_late :
  let clock := fun k : nat => Z.of_nat k in
  let sfrs := state_machine.set_state (fun _ _ => false) 7 in
  let s := paused_runs 0 200 3600 ++ [paused_run 200 (Some (-1)%Z)] in
  let pass := run_once clock sfrs default_batch_size 20 (at_start s) in
  fst (fst pass) = Returned
  /\ batch_sizes (snd pass) = repeat 200 19 ++ [2]
  /\ set_state_calls (snd pass) = seq 1 199 ++ [0; 200]
  /\ filter is_paused (store (snd (fst pass))) = []
  /\ fst (fst (run_once clock sfrs default_batch_size 19 (at_start s)))
     = Running.
Proof. vm_compute. repeat split; reflexivity. Qed.
